(** * Semantic Bookmarks: a shallow embedding of the front end, the schema
    and the retrieval contracts

  The development follows the repository layout:
  - [JS]        strings and the few JavaScript primitives the code relies on;
  - [Types]     [frontend/src/types/index.ts];
  - [Schema]    [database/init.sql] (tables, foreign keys, indexes);
  - [Client]    [utils/api.ts], [store/bookmarkStore.ts] and the
                [SearchBar] / [Search] / [Diagnostics] components, as
                programs of a small state-and-exception monad over the
                browser-side world;
  - [Chunker], [Indexer], [Cosine], [HybridSearch]: the ingestion and
    retrieval back end, which the front end only calls. *)

From Stdlib Require Import ZArith QArith Qround Qreals Reals Lra Lqa Lia List String Ascii.
From stdpp Require Import base list strings gmap.

Local Open Scope string_scope.
Local Open Scope list_scope.

(* ===================================================================== *)
(** * JavaScript primitives *)
(* ===================================================================== *)

Module JS.

(** A JavaScript string is a sequence of UTF-16 code units. *)
Definition jsstring := list N.

Definition of_ascii (s : string) : jsstring :=
  map (fun a : ascii => N_of_ascii a) (list_ascii_of_string s).

(** [String.prototype.trim] strips WhiteSpace and LineTerminator code
    points (ECMA-262, 22.1.3.32): TAB, VT, FF, SP, NBSP, ZWNBSP, the
    Unicode Zs category, and LF, CR, LS, PS. *)
Definition is_white_space (c : N) : bool :=
  ((9 <=? c) && (c <=? 13) || (c =? 32) || (c =? 160) || (c =? 5760)
   || (8192 <=? c) && (c <=? 8202) || (c =? 8232) || (c =? 8233)
   || (c =? 8239) || (c =? 8287) || (c =? 12288) || (c =? 65279))%N.

Fixpoint trimStart (s : jsstring) : jsstring :=
  match s with
  | c :: s' => if is_white_space c then trimStart s' else s
  | [] => []
  end.

Definition trimEnd (s : jsstring) : jsstring := rev (trimStart (rev s)).

Definition trim (s : jsstring) : jsstring := trimEnd (trimStart s).

(** Truthiness of a string: every string but the empty one. *)
Definition truthy (s : jsstring) : bool :=
  match s with [] => false | _ :: _ => true end.

(** [a || b] on an optional string argument ([undefined] is falsy). *)
Definition or_else (a : option jsstring) (b : jsstring) : jsstring :=
  match a with
  | Some s => if truthy s then s else b
  | None => b
  end.

(** The same operator where the left operand is a plain Rocq string
    (identifiers and messages, where code units do not matter). *)
Definition or_default (a : option string) (b : string) : string :=
  match a with
  | Some s => if String.eqb s EmptyString then b else s
  | None => b
  end.

End JS.

(* ===================================================================== *)
(** * [frontend/src/types/index.ts] *)
(* ===================================================================== *)

Module Types.
Import JS.

(** JSON values, for [Record<string, any>] and for records as they are
    seen on the wire. Numbers are idealised as rationals. *)
#[local] Unset Elimination Schemes.
Inductive JsonValue : Type :=
| JNull
| JBool (b : bool)
| JNum (q : Q)
| JStr (s : string)
| JArr (l : list JsonValue)
| JObj (fields : list (string * JsonValue)).
#[local] Set Elimination Schemes.

Record User := {
  u_id : string;
  u_email : string;
  u_created_at : string
}.

Record Bookmark := {
  id : string;
  user_id : string;
  url : string;
  title : option string;
  description : option string;
  content : option string;
  platform : option string;
  meta_data : list (string * JsonValue);
  tags : list string;
  is_public : bool;
  created_at : string;
  updated_at : string;
  relevance_score : option Q
}.

Record SearchQuery := {
  query : jsstring;
  limit : option N;
  mode : option string;          (* only ['smart'] inhabits the type *)
  q_platform : option string;
  q_tags : option (list string);
  date_from : option string;
  date_to : option string
}.

Record SearchResult := {
  sr_bookmarks : list Bookmark;
  total : Z;
  sr_query : jsstring
}.

(** The object a [Bookmark] value is: one property per declared field,
    optional fields present only when defined. *)
Definition put_opt {A} (k : string) (f : A -> JsonValue) (o : option A)
           (m : gmap string JsonValue) : gmap string JsonValue :=
  match o with Some a => <[k := f a]> m | None => m end.

Definition Bookmark_object (b : Bookmark) : gmap string JsonValue :=
  <["id" := JStr (id b)]>
  (<["user_id" := JStr (user_id b)]>
  (<["url" := JStr (url b)]>
  (put_opt "title" JStr (title b)
  (put_opt "description" JStr (description b)
  (put_opt "content" JStr (content b)
  (put_opt "platform" JStr (platform b)
  (<["meta_data" := JObj (meta_data b)]>
  (<["tags" := JArr (map JStr (tags b))]>
  (<["is_public" := JBool (is_public b)]>
  (<["created_at" := JStr (created_at b)]>
  (<["updated_at" := JStr (updated_at b)]>
  (put_opt "relevance_score" JNum (relevance_score b) ∅)))))))))))).

(** The processing states of section 4.4 of the specification. *)
Inductive ProcessingStatus : Type :=
| pending | extracting | chunking | embedding | indexing | indexed | failed.

Definition status_name (s : ProcessingStatus) : string :=
  match s with
  | pending => "pending"
  | extracting => "extracting"
  | chunking => "chunking"
  | embedding => "embedding"
  | indexing => "indexing"
  | indexed => "indexed"
  | failed => "failed"
  end.

(** "The record carries a processing status": it has a [status] property
    holding one of the seven names. *)
Definition carries_status (o : gmap string JsonValue) : Prop :=
  exists s : ProcessingStatus, o !! "status" = Some (JStr (status_name s)).

(** The remaining interfaces of the file. Texts a form edits are kept as
    JavaScript strings, since the code trims and measures them. *)
Record AuthToken := {
  access_token : string;
  token_type : string
}.

Record LoginCredentials := {
  login_email : string;
  login_password : string
}.

Record RegisterData := {
  register_email : string;
  register_password : string
}.

Record BookmarkCreate := {
  create_url : jsstring;
  create_title : option jsstring;
  create_description : option jsstring;
  create_tags : option (list jsstring);
  create_is_public : option bool
}.

Record BookmarkUpdate := {
  update_title : option jsstring;
  update_description : option jsstring;
  update_tags : option (list jsstring);
  update_is_public : option bool
}.

End Types.

(* ===================================================================== *)
(** * [database/init.sql] *)
(* ===================================================================== *)

Module Schema.

(** Rows of the four tables. A column that is neither [NOT NULL] nor the
    primary key is an [option]; UUIDs and timestamps are kept as opaque
    strings; a [VECTOR(1536)] value is a list of (rational) components. *)
Record users_row := {
  users_id : string;
  email : string;
  password_hash : string;
  users_created_at : option string;
  users_updated_at : option string
}.

Record bookmarks_row := {
  bookmarks_id : string;
  bookmarks_user_id : option string;     (* REFERENCES users(id) ON DELETE CASCADE *)
  url : string;
  title : option string;
  description : option string;
  content : option string;
  platform : option string;
  metadata : option (list (string * Types.JsonValue));   (* JSONB DEFAULT '{}' *)
  tags : option (list string);                           (* TEXT[] DEFAULT '{}' *)
  is_public : option bool;                               (* DEFAULT FALSE *)
  created_at : option string;
  updated_at : option string
}.

Record embeddings_row := {
  embeddings_id : string;
  bookmark_id : option string;           (* REFERENCES bookmarks(id) ON DELETE CASCADE *)
  content_chunk : option string;
  embedding : option (list Q);           (* VECTOR(1536) *)
  chunk_index : option Z;                (* INTEGER DEFAULT 0 *)
  embeddings_created_at : option string
}.

Record search_logs_row := {
  search_logs_id : string;
  search_logs_user_id : option string;   (* REFERENCES users(id) ON DELETE SET NULL *)
  query : option string;
  results_count : option Z;
  search_logs_created_at : option string
}.

Record Database := {
  users : list users_row;
  bookmarks : list bookmarks_row;
  embeddings : list embeddings_row;
  search_logs : list search_logs_row
}.

(** The column list of [CREATE TABLE bookmarks]. *)
Definition bookmarks_columns : list string :=
  ["id"; "user_id"; "url"; "title"; "description"; "content"; "platform";
   "metadata"; "tags"; "is_public"; "created_at"; "updated_at"].

(** [e] references one of the rows [bs] through its foreign key. *)
Definition references (bs : list bookmarks_row) (e : embeddings_row) : Prop :=
  exists b, b ∈ bs /\ bookmark_id e = Some (bookmarks_id b).

#[global] Instance references_dec bs e : Decision (references bs e).
Proof.
  unfold references.
  refine (cast_if (decide (Exists (fun b => bookmark_id e = Some (bookmarks_id b)) bs)));
    rewrite Exists_exists in *; naive_solver.
Defined.

(** [DELETE FROM bookmarks WHERE id = bid]: the matching rows go, and the
    [ON DELETE CASCADE] foreign key of [embeddings] removes every row that
    references one of them. *)
Definition delete_bookmark (bid : string) (db : Database) : Database :=
  let deleted := filter (fun b => bookmarks_id b = bid) (bookmarks db) in
  {| users := users db;
     bookmarks := filter (fun b => bookmarks_id b <> bid) (bookmarks db);
     embeddings := filter (fun e => ~ references deleted e) (embeddings db);
     search_logs := search_logs db |}.

(** [idx_embeddings_vector]: the HNSW index (cosine operator class) holds
    one entry per [embeddings] row with a non-null vector. *)
Definition idx_embeddings_vector (db : Database)
  : list (embeddings_row * list Q) :=
  omap (fun e => pair e <$> embedding e) (embeddings db).

(** The indexed expression of [idx_bookmarks_fts], before [to_tsvector]:
    [title || ' ' || COALESCE(description, '') || ' ' || COALESCE(content, '')].
    [||] is strict, so a null title makes the whole expression null. *)
Definition coalesce (o : option string) (d : string) : string :=
  match o with Some s => s | None => d end.

Definition fts_document (b : bookmarks_row) : option string :=
  match title b with
  | Some t => Some (t ++ " " ++ coalesce (description b) EmptyString ++ " "
                      ++ coalesce (content b) EmptyString)%string
  | None => None
  end.

(** [idx_bookmarks_fts]: one entry per [bookmarks] row. *)
Definition idx_bookmarks_fts (db : Database)
  : list (bookmarks_row * option string) :=
  map (fun b => (b, fts_document b)) (bookmarks db).

(** Referential integrity of [embeddings.bookmark_id]. *)
Definition fk_embeddings_ok (db : Database) : Prop :=
  forall e bid, e ∈ embeddings db -> bookmark_id e = Some bid ->
    exists b, b ∈ bookmarks db /\ bookmarks_id b = bid.

(** [DELETE FROM users WHERE id = uid]: the matching rows go; the
    [ON DELETE CASCADE] key of [bookmarks] removes the bookmarks of the
    deleted users, the one of [embeddings] the chunks of those bookmarks;
    the [ON DELETE SET NULL] key of [search_logs] keeps the log rows and
    nulls their user. *)
Definition owned_by_one (us : list users_row) (b : bookmarks_row) : Prop :=
  exists u, u ∈ us /\ bookmarks_user_id b = Some (users_id u).

#[global] Instance owned_by_one_dec us b : Decision (owned_by_one us b).
Proof.
  unfold owned_by_one.
  refine (cast_if (decide (Exists (fun u => bookmarks_user_id b = Some (users_id u)) us)));
    rewrite Exists_exists in *; naive_solver.
Defined.

Definition logged_by_one (us : list users_row) (l : search_logs_row) : Prop :=
  exists u, u ∈ us /\ search_logs_user_id l = Some (users_id u).

#[global] Instance logged_by_one_dec us l : Decision (logged_by_one us l).
Proof.
  unfold logged_by_one.
  refine (cast_if (decide (Exists (fun u => search_logs_user_id l = Some (users_id u)) us)));
    rewrite Exists_exists in *; naive_solver.
Defined.

Definition set_null_user (l : search_logs_row) : search_logs_row :=
  {| search_logs_id := search_logs_id l;
     search_logs_user_id := None;
     query := query l;
     results_count := results_count l;
     search_logs_created_at := search_logs_created_at l |}.

Definition delete_user (uid : string) (db : Database) : Database :=
  let deleted := filter (fun u => users_id u = uid) (users db) in
  let gone := filter (owned_by_one deleted) (bookmarks db) in
  {| users := filter (fun u => users_id u <> uid) (users db);
     bookmarks := filter (fun b => ~ owned_by_one deleted b) (bookmarks db);
     embeddings := filter (fun e => ~ references gone e) (embeddings db);
     search_logs :=
       map (fun l => if decide (logged_by_one deleted l) then set_null_user l else l)
           (search_logs db) |}.

(** Referential integrity of [bookmarks.user_id]. *)
Definition fk_bookmarks_ok (db : Database) : Prop :=
  forall b uid, b ∈ bookmarks db -> bookmarks_user_id b = Some uid ->
    exists u, u ∈ users db /\ users_id u = uid.

End Schema.

(* ===================================================================== *)
(** * The browser side: [utils/api.ts], [store/bookmarkStore.ts],
      [components/SearchBar.tsx], [components/BookmarkList.tsx],
      [pages/search.tsx], [pages/diagnostics.tsx] *)
(* ===================================================================== *)

Module Client.
Import JS Types.

(** What a rejected request carries: [error.response?.status] and
    [error.response?.data?.detail] (both absent on a network failure). *)
Record ApiError := {
  response_status : option N;
  response_detail : option string
}.

Inductive Response (A : Type) : Type :=
| Ok (a : A)
| Fail (e : ApiError).
Arguments Ok {A} a.
Arguments Fail {A} e.

(** The requests the modelled code can issue. *)
Inductive ApiCall : Type :=
| POST_search (q : SearchQuery)
| GET_search_suggestions (q : jsstring)
| DELETE_bookmarks (bid : string).

(** The server, as seen from the browser: any answer to any request. *)
Record Backend := {
  on_search : SearchQuery -> Response SearchResult;
  on_suggestions : jsstring -> Response (list jsstring);
  on_delete : string -> Response unit
}.

(** [BookmarkState] of the zustand store. *)
Record BookmarkState := {
  bookmarks : list Bookmark;
  searchResults : option SearchResult;
  isLoading : bool;
  error : option string
}.

(** The [useState] cells of [SearchBar]. *)
Record SearchBarState := {
  sb_query : jsstring;
  suggestions : list jsstring;
  showSuggestions : bool
}.

Record World := {
  store : BookmarkState;
  searchBar : SearchBarState;
  access_token : option string;       (* localStorage *)
  location_href : string;             (* window.location.href *)
  input_focused : bool;
  requests : list ApiCall;            (* requests sent so far, latest first *)
  console : list string               (* console.error lines, latest first *)
}.

Definition initial_store : BookmarkState :=
  {| bookmarks := []; searchResults := None; isLoading := false; error := None |}.

(** ** A state-and-exception monad for [async] functions *)

Inductive Outcome (A : Type) : Type :=
| Resolved (a : A)
| Rejected (e : ApiError).
Arguments Resolved {A} a.
Arguments Rejected {A} e.

Definition M (A : Type) : Type := World -> Outcome A * World.

Definition ret {A} (a : A) : M A := fun w => (Resolved a, w).

Definition bind {A B} (m : M A) (k : A -> M B) : M B := fun w =>
  match m w with
  | (Resolved a, w') => k a w'
  | (Rejected e, w') => (Rejected e, w')
  end.

Definition throw {A} (e : ApiError) : M A := fun w => (Rejected e, w).

Definition try_catch {A} (m : M A) (h : ApiError -> M A) : M A := fun w =>
  match m w with
  | (Resolved a, w') => (Resolved a, w')
  | (Rejected e, w') => h e w'
  end.

Definition get : M World := fun w => (Resolved w, w).

Definition modify (f : World -> World) : M unit := fun w => (Resolved tt, f w).

Notation "x <- m ;; k" := (bind m (fun x => k))
  (at level 100, m at next level, right associativity, only parsing).
Notation "m ;; k" := (bind m (fun _ => k))
  (at level 100, right associativity, only parsing).

(** ** Field updates *)

Definition with_store (f : BookmarkState -> BookmarkState) (w : World) : World :=
  {| store := f (store w); searchBar := searchBar w;
     access_token := access_token w; location_href := location_href w;
     input_focused := input_focused w; requests := requests w;
     console := console w |}.

Definition with_searchBar (f : SearchBarState -> SearchBarState) (w : World) : World :=
  {| store := store w; searchBar := f (searchBar w);
     access_token := access_token w; location_href := location_href w;
     input_focused := input_focused w; requests := requests w;
     console := console w |}.

Definition sent (c : ApiCall) (w : World) : World :=
  {| store := store w; searchBar := searchBar w;
     access_token := access_token w; location_href := location_href w;
     input_focused := input_focused w; requests := c :: requests w;
     console := console w |}.

Definition blurred (w : World) : World :=
  {| store := store w; searchBar := searchBar w;
     access_token := access_token w; location_href := location_href w;
     input_focused := false; requests := requests w;
     console := console w |}.

Definition logged (line : string) (w : World) : World :=
  {| store := store w; searchBar := searchBar w;
     access_token := access_token w; location_href := location_href w;
     input_focused := input_focused w; requests := requests w;
     console := line :: console w |}.

(** ** [utils/api.ts] *)

(** The response interceptor: a 401 drops the token and sends the browser
    to the login page; every error is then re-rejected. *)
Definition response_interceptor (e : ApiError) (w : World) : World :=
  match response_status e with
  | Some 401%N =>
      {| store := store w; searchBar := searchBar w;
         access_token := None; location_href := "/auth/login";
         input_focused := input_focused w; requests := requests w;
         console := console w |}
  | _ => w
  end.

Definition api_request {A} (c : ApiCall) (r : Response A) : M A := fun w =>
  match r with
  | Ok a => (Resolved a, sent c w)
  | Fail e => (Rejected e, response_interceptor e (sent c w))
  end.

Section WithBackend.
Variable backend : Backend.

Definition bookmarksAPI_delete (bid : string) : M unit :=
  api_request (DELETE_bookmarks bid) (on_delete backend bid).

Definition searchAPI_search (q : SearchQuery) : M SearchResult :=
  api_request (POST_search q) (on_search backend q).

Definition searchAPI_getSuggestions (q : jsstring) : M (list jsstring) :=
  api_request (GET_search_suggestions q) (on_suggestions backend q).

(** ** [store/bookmarkStore.ts] *)

(** zustand's [set]: a partial update of the store. *)
Definition set (f : BookmarkState -> BookmarkState) : M unit :=
  modify (with_store f).

Definition loading_started (s : BookmarkState) : BookmarkState :=
  {| bookmarks := bookmarks s; searchResults := searchResults s;
     isLoading := true; error := None |}.

Definition failed_with (msg : string) (s : BookmarkState) : BookmarkState :=
  {| bookmarks := bookmarks s; searchResults := searchResults s;
     isLoading := false; error := Some msg |}.

Definition deleteBookmark (bid : string) : M unit :=
  set loading_started ;;
  try_catch
    (bookmarksAPI_delete bid ;;
     set (fun s =>
       {| bookmarks := filter (fun b => id b <> bid) (bookmarks s);
          searchResults := searchResults s;
          isLoading := false; error := error s |}))
    (fun e =>
       set (failed_with
              (or_default (response_detail e) "Failed to delete bookmark")) ;;
       throw e).

Definition search (q : SearchQuery) : M SearchResult :=
  set loading_started ;;
  try_catch
    (results <- searchAPI_search q ;;
     set (fun s =>
       {| bookmarks := bookmarks s; searchResults := Some results;
          isLoading := false; error := error s |}) ;;
     ret results)
    (fun e =>
       set (failed_with (or_default (response_detail e) "Search failed")) ;;
       throw e).

Definition clearSearch : M unit :=
  set (fun s =>
    {| bookmarks := bookmarks s; searchResults := None;
       isLoading := isLoading s; error := error s |}).

(** ** [components/SearchBar.tsx] *)

Definition setSuggestions (l : list jsstring) : M unit :=
  modify (with_searchBar (fun u =>
    {| sb_query := sb_query u; suggestions := l;
       showSuggestions := showSuggestions u |})).

Definition setShowSuggestions (b : bool) : M unit :=
  modify (with_searchBar (fun u =>
    {| sb_query := sb_query u; suggestions := suggestions u;
       showSuggestions := b |})).

Definition setQuery (q : jsstring) : M unit :=
  modify (with_searchBar (fun u =>
    {| sb_query := q; suggestions := suggestions u;
       showSuggestions := showSuggestions u |})).

(** The body of the debounced effect, run when the 300ms timer fires. *)
Definition fetchSuggestions : M unit :=
  w <- get ;;
  let query := sb_query (searchBar w) in
  if (2 <? length query)%nat then
    try_catch
      (response <- searchAPI_getSuggestions query ;;
       setSuggestions response ;;
       setShowSuggestions true)
      (fun _ => setSuggestions [])
  else
    setSuggestions [] ;;
    setShowSuggestions false.

Definition handleSearch (searchQuery : option jsstring) : M unit :=
  w <- get ;;
  let finalQuery := or_else searchQuery (sb_query (searchBar w)) in
  if negb (truthy (trim finalQuery)) then ret tt
  else
    try_catch
      (search {| Types.query := finalQuery; limit := None; mode := Some "smart";
                 q_platform := None; q_tags := None;
                 date_from := None; date_to := None |} ;;
       setShowSuggestions false ;;
       modify blurred)
      (fun _ => modify (logged "Search failed:")).

(** [setQuery] takes effect at the next render, so the [handleSearch] of
    this render still sees the text that was in the box; the two touch
    different cells, and the update is written last here. *)
Definition handleSuggestionClick (suggestion : jsstring) : M unit :=
  handleSearch (Some suggestion) ;;
  setQuery suggestion.

Definition focused (w : World) : World :=
  {| store := store w; searchBar := searchBar w;
     access_token := access_token w; location_href := location_href w;
     input_focused := true; requests := requests w;
     console := console w |}.

(** The [onFocus] handler of the input. *)
Definition onFocus : M unit :=
  w <- get ;;
  if (0 <? length (suggestions (searchBar w)))%nat
  then setShowSuggestions true
  else ret tt.

(** [inputRef.current?.focus()]: an input that has not the focus takes it,
    and its focus event runs [onFocus] before the call returns; on the
    input that has the focus the call does nothing. *)
Definition focus : M unit :=
  w <- get ;;
  if input_focused w then ret tt
  else modify focused ;; onFocus.

Definition handleClearSearch : M unit :=
  setQuery [] ;;
  clearSearch ;;
  setShowSuggestions false ;;
  focus.

Inductive Key : Type :=
| Enter
| Escape
| OtherKey (key : string).

Definition handleKeyDown (e : Key) : M unit :=
  match e with
  | Enter => handleSearch None
  | Escape => setShowSuggestions false ;; modify blurred
  | OtherKey _ => ret tt
  end.

End WithBackend.

(** The suggestion dropdown is rendered when
    [showSuggestions && suggestions.length > 0]. *)
Definition dropdown_visible (u : SearchBarState) : bool :=
  showSuggestions u && (0 <? length (suggestions u))%nat.

(** ** [pages/search.tsx]: what the page renders below the search bar *)

Inductive Panel : Type :=
| ResultsInfo (total : Z) (query : jsstring)
| LoadingSpinner
| BookmarkList (bookmarks : list Bookmark) (showEmpty : bool)
| InitialState
| NoResultsState.

Definition when (b : bool) (p : list Panel) : list Panel :=
  if b then p else [].

Definition is_some {A} (o : option A) : bool :=
  match o with Some _ => true | None => false end.

Definition Search_page (s : BookmarkState) (hasSearched : bool) : list Panel :=
  match searchResults s with
  | Some r =>
      [ResultsInfo (total r) (sr_query r)]
      ++ when (isLoading s) [LoadingSpinner]
      ++ when (negb (isLoading s)) [BookmarkList (sr_bookmarks r) true]
      ++ when (negb (isLoading s) && (length (sr_bookmarks r) =? 0)%nat)
              [NoResultsState]
  | None =>
      when (isLoading s) [LoadingSpinner]
      ++ when (negb (isLoading s) && negb hasSearched) [InitialState]
  end.

(** ** [components/BookmarkList.tsx]: the relevance badge *)

(** [Math.round]: the nearest integer, halves going up. *)
Definition Math_round (x : Q) : Z := Qfloor (x + (1 # 2)).

(** The badge is rendered when [relevance_score] is defined and positive;
    it reads [Math.round(relevance_score)] followed by "% match". *)
Definition relevance_badge (b : Bookmark) : option Z :=
  match relevance_score b with
  | Some s => if Qle_bool s 0 then None else Some (Math_round s)
  | None => None
  end.

(** ** [pages/diagnostics.tsx]: the badge of a recent bookmark *)
Definition processing_badge (embedding_count : Z) : string :=
  if (0 <? embedding_count)%Z then "Processed" else "Pending".

(** ** The rest of [utils/api.ts] and of [store/bookmarkStore.ts] *)

(** The request interceptor: the [Authorization] header it puts on a
    request, if any (an empty token is falsy). *)
Definition request_interceptor (w : World) : option string :=
  match access_token w with
  | Some t => if String.eqb t EmptyString then None
              else Some ("Bearer " ++ t)%string
  | None => None
  end.

(** A request through the axios instance, seen from its caller: it
    resolves with the data, or rejects once the response interceptor has
    run. *)
Definition axios {A} (r : Response A) : M A := fun w =>
  match r with
  | Ok a => (Resolved a, w)
  | Fail e => (Rejected e, response_interceptor e w)
  end.

Record GetAllParams := {
  skip : option N;
  params_limit : option N;
  params_platform : option string
}.

(** [bookmarksAPI], as far as the store uses it besides [delete]: each
    entry is the request it makes, whatever the server answers. *)
Record BookmarksAPI := {
  getAll : option GetAllParams -> M (list Bookmark);
  create : BookmarkCreate -> M Bookmark;
  update : string -> BookmarkUpdate -> M Bookmark
}.

Section WithBookmarksAPI.
Variable bookmarksAPI : BookmarksAPI.

Definition fetchBookmarks (params : option GetAllParams) : M unit :=
  set loading_started ;;
  try_catch
    (fetched <- getAll bookmarksAPI params ;;
     set (fun s =>
       {| bookmarks := fetched; searchResults := searchResults s;
          isLoading := false; error := error s |}))
    (fun e =>
       set (failed_with
              (or_default (response_detail e) "Failed to fetch bookmarks"))).

Definition createBookmark (data : BookmarkCreate) : M Bookmark :=
  set loading_started ;;
  try_catch
    (bookmark <- create bookmarksAPI data ;;
     set (fun s =>
       {| bookmarks := bookmark :: bookmarks s;
          searchResults := searchResults s;
          isLoading := false; error := error s |}) ;;
     ret bookmark)
    (fun e =>
       set (failed_with
              (or_default (response_detail e) "Failed to create bookmark")) ;;
       throw e).

Definition updateBookmark (bid : string) (data : BookmarkUpdate) : M Bookmark :=
  set loading_started ;;
  try_catch
    (updatedBookmark <- update bookmarksAPI bid data ;;
     set (fun s =>
       {| bookmarks :=
            map (fun b => if String.eqb (id b) bid then updatedBookmark else b)
                (bookmarks s);
          searchResults := searchResults s;
          isLoading := false; error := error s |}) ;;
     ret updatedBookmark)
    (fun e =>
       set (failed_with
              (or_default (response_detail e) "Failed to update bookmark")) ;;
       throw e).

End WithBookmarksAPI.

Definition clearError : M unit :=
  set (fun s =>
    {| bookmarks := bookmarks s; searchResults := searchResults s;
       isLoading := isLoading s; error := None |}).

(** The query [handleSearch] sends for a text. *)
Definition smart_query (text : jsstring) : SearchQuery :=
  {| Types.query := text; limit := None; mode := Some "smart";
     q_platform := None; q_tags := None; date_from := None; date_to := None |}.

(** ** The rest of [components/BookmarkList.tsx] *)

Definition truncateContent (content : jsstring) (maxLength : nat) : jsstring :=
  if (length content <=? maxLength)%nat then content
  else take maxLength content ++ of_ascii "...".

Definition getPlatformColor (platform : option string) : string :=
  match platform with
  | Some p =>
      if String.eqb p "youtube" then "bg-red-100 text-red-800"
      else if String.eqb p "twitter" then "bg-blue-100 text-blue-800"
      else if String.eqb p "pdf" then "bg-orange-100 text-orange-800"
      else if String.eqb p "github" then "bg-gray-100 text-gray-800"
      else "bg-gray-100 text-gray-800"
  | None => "bg-gray-100 text-gray-800"
  end.

(** What the component renders for its props: its own empty state, or
    one card per bookmark. *)
Inductive ListView : Type :=
| NoBookmarks
| Cards (bookmarks : list Bookmark).

Definition BookmarkList_view (bookmarks : list Bookmark) (showEmpty : bool)
  : ListView :=
  if (length bookmarks =? 0)%nat && showEmpty then NoBookmarks
  else Cards bookmarks.

Definition Panel_view (p : Panel) : option ListView :=
  match p with
  | BookmarkList bs showEmpty => Some (BookmarkList_view bs showEmpty)
  | _ => None
  end.

(** ** [pages/index.tsx]: what the home page renders below the search bar *)

(** [searchResults?.bookmarks || bookmarks]: an array is truthy even when
    empty. *)
Definition displayBookmarks (s : BookmarkState) : list Bookmark :=
  match searchResults s with
  | Some r => sr_bookmarks r
  | None => bookmarks s
  end.

Definition Home_page (s : BookmarkState) : list Panel :=
  match searchResults s with
  | Some r => [ResultsInfo (total r) (sr_query r)]
  | None => []
  end
  ++ when (isLoading s) [LoadingSpinner]
  ++ when (negb (isLoading s))
          [BookmarkList (displayBookmarks s) (negb (is_some (searchResults s)))].

End Client.

(* ===================================================================== *)
(** * The chunker (specification, section 4.2) *)
(* ===================================================================== *)

Module Chunker.

(** Modelled from the spec: the chunker's configuration, which is back-end
    code: "a configured maximum token/character budget" and "a configured
    number of trailing characters". *)
Record Config := {
  max_chars : nat;      (* budget of one chunk *)
  overlap : nat         (* trailing characters carried into the next chunk *)
}.

(** Modelled from the spec: the ContentDocument of section 3, which is
    back-end code: "title, description, full extracted text, platform". *)
Record ContentDocument := {
  doc_title : option string;
  doc_description : option string;
  text : string;
  doc_platform : option string
}.

(** Modelled from the spec: "empty or whitespace-only documents", a test of
    the back-end chunker; white space is TAB, LF, VT, FF, CR and SP. *)
Definition is_space (c : ascii) : bool :=
  let n := nat_of_ascii c in
  ((9 <=? n) && (n <=? 13) || (n =? 32))%nat.

(** Modelled from the spec: an "empty or whitespace-only" text, as the
    back-end chunker tests it. *)
Fixpoint blank (s : string) : bool :=
  match s with
  | EmptyString => true
  | String c s' => is_space c && blank s'
  end.

(** Modelled from the spec: the "paragraph/sentence boundaries" of the
    back-end chunker: full stop, exclamation mark, question mark, line feed. *)
Definition is_boundary (c : ascii) : bool :=
  let n := nat_of_ascii c in
  ((n =? 46) || (n =? 33) || (n =? 63) || (n =? 10))%nat.

(** Modelled from the spec: the chunker's splitting step, which is back-end
    code: "splits text on paragraph/sentence boundaries". Each segment ends
    with its boundary character; [cur] is the segment being read. *)
Fixpoint split_after (cur : string) (s : string) : list string :=
  match s with
  | EmptyString => if String.eqb cur EmptyString then [] else [cur]
  | String c s' =>
      if is_boundary c
      then (cur ++ String c EmptyString)%string :: split_after EmptyString s'
      else split_after (cur ++ String c EmptyString)%string s'
  end.

(** Modelled from the spec: the state of the chunker's accumulation loop,
    which is back-end code. *)
Record state := {
  pending : list string;    (* segments not yet consumed *)
  buffer : string;          (* the chunk being accumulated *)
  emitted : list string     (* finished chunks, latest first *)
}.

(** Modelled from the spec: "accumulating until a configured maximum
    budget": a segment joins the chunk being built while the budget holds;
    a segment alone always makes a chunk. Back-end code. *)
Definition fits (cfg : Config) (buf seg : string) : Prop :=
  buf = EmptyString \/ (String.length buf + String.length seg <= max_chars cfg)%nat.

(** Modelled from the spec: the budget test of the back-end chunker as a
    boolean. *)
Definition fitsb (cfg : Config) (buf seg : string) : bool :=
  String.eqb buf EmptyString || (String.length buf + String.length seg <=? max_chars cfg)%nat.

(** Modelled from the spec: the "configured number of trailing characters
    from the previous chunk", the last [overlap] characters of a finished
    chunk. Back-end code. *)
Definition overlap_tail (cfg : Config) (buf : string) : string :=
  substring (String.length buf - overlap cfg) (overlap cfg) buf.

(** Modelled from the spec: the chunker's accumulation loop, which is
    back-end code: "accumulating until a configured maximum token/character
    budget, then starts a new chunk; overlaps the chunk boundary by a
    configured number of trailing characters from the previous chunk". *)
Inductive step (cfg : Config) : state -> state -> Prop :=
| step_accumulate seg rest buf out :
    fits cfg buf seg ->
    step cfg {| pending := seg :: rest; buffer := buf; emitted := out |}
             {| pending := rest; buffer := (buf ++ seg)%string; emitted := out |}
| step_new_chunk seg rest buf out :
    ~ fits cfg buf seg ->
    step cfg {| pending := seg :: rest; buffer := buf; emitted := out |}
             {| pending := rest;
                buffer := (overlap_tail cfg buf ++ seg)%string;
                emitted := buf :: out |}.

(** Modelled from the spec: a run of the back-end chunker, which consumes
    every segment and flushes the last chunk. *)
Inductive runs (cfg : Config) : state -> list string -> Prop :=
| runs_done buf out :
    runs cfg {| pending := []; buffer := buf; emitted := out |}
         (rev (if String.eqb buf EmptyString then out else buf :: out))
| runs_step s s' r :
    step cfg s s' -> runs cfg s' r -> runs cfg s r.

(** Modelled from the spec: the "chunk index (0-based, contiguous, unique
    per bookmark)" the back-end chunker gives its output. *)
Definition enumerate {A} (l : list A) : list (nat * A) :=
  combine (seq 0 (length l)) l.

(** Modelled from the spec: [chunks_to cfg d r], a run of the back-end
    chunker on [d] produces [r]; "empty or whitespace-only documents yield
    an empty sequence". *)
Definition chunks_to (cfg : Config) (d : ContentDocument)
           (r : list (nat * string)) : Prop :=
  if blank (text d) then r = []
  else exists cs,
      runs cfg {| pending := split_after EmptyString (text d); buffer := EmptyString;
                  emitted := [] |} cs
      /\ r = enumerate cs.

(** Modelled from the spec: the accumulation loop of the back-end chunker
    as a function. *)
Fixpoint accumulate (cfg : Config) (pending : list string) (buf : string)
         (out : list string) : list string :=
  match pending with
  | [] => rev (if String.eqb buf EmptyString then out else buf :: out)
  | seg :: rest =>
      if fitsb cfg buf seg
      then accumulate cfg rest (buf ++ seg)%string out
      else accumulate cfg rest (overlap_tail cfg buf ++ seg)%string (buf :: out)
  end.

(** Modelled from the spec: [chunk(document) -> ordered sequence of
    (index, text)], which is back-end code; "empty or whitespace-only
    documents yield an empty sequence". *)
Definition chunk (cfg : Config) (d : ContentDocument) : list (nat * string) :=
  if blank (text d) then []
  else enumerate (accumulate cfg (split_after EmptyString (text d)) EmptyString []).

End Chunker.

(* ===================================================================== *)
(** * The indexer and one pipeline run (specification, sections 4.3-4.5) *)
(* ===================================================================== *)

Module Indexer.
Import Schema Chunker.

(** Modelled from the spec: the embedding provider of section 6, consumed
    by back-end code: any function from a batch of texts to vectors, or a
    failure. *)
Definition EmbeddingProvider := list string -> option (list (list Q)).

(** Modelled from the spec: the embedding step, which is back-end code:
    "one vector per input chunk, order-preserving"; "a batch either fully
    succeeds or the step fails as a unit". *)
Definition embed (provider : EmbeddingProvider) (chunks : list (nat * string))
  : option (list ((nat * string) * list Q)) :=
  match provider (map snd chunks) with
  | Some vs =>
      if (length vs =? length chunks)%nat then Some (combine chunks vs) else None
  | None => None
  end.

(** Modelled from the spec: the [embeddings] row the back-end indexer
    writes for one chunk with its vector. *)
Definition chunk_row (uuid : nat -> string) (bid : string)
           (c : (nat * string) * list Q) : embeddings_row :=
  {| embeddings_id := uuid (fst (fst c));
     bookmark_id := Some bid;
     content_chunk := Some (snd (fst c));
     embedding := Some (snd c);
     chunk_index := Some (Z.of_nat (fst (fst c)));
     embeddings_created_at := None |}.

(** Modelled from the spec: [persist(bookmark_id, chunks_with_vectors)],
    which is back-end code: "delete any existing chunks for the bookmark,
    insert the new set". [uuid] supplies the generated row ids. *)
Definition persist (uuid : nat -> string) (bid : string)
           (cvs : list ((nat * string) * list Q)) (db : Database) : Database :=
  {| users := users db;
     bookmarks := bookmarks db;
     embeddings :=
       filter (fun e => bookmark_id e <> Some bid) (embeddings db)
       ++ map (chunk_row uuid bid) cvs;
     search_logs := search_logs db |}.

(** Modelled from the spec: one run of the pipeline after extraction
    (chunking, embedding, indexing), which is back-end code; [None] is a
    failed run, which writes nothing. *)
Definition index_bookmark (cfg : Config) (provider : EmbeddingProvider)
           (uuid : nat -> string) (bid : string) (d : ContentDocument)
           (db : Database) : option Database :=
  match embed provider (chunk cfg d) with
  | Some cvs => Some (persist uuid bid cvs db)
  | None => None
  end.

(** The stored chunks of a bookmark, in storage order. *)
Definition chunks_of (bid : string) (db : Database) : list embeddings_row :=
  filter (fun e => bookmark_id e = Some bid) (embeddings db).

(** Their [chunk_index] values. *)
Definition chunk_indices (bid : string) (db : Database) : list (option Z) :=
  map chunk_index (chunks_of bid db).

(** The indices are 0, 1, ..., n-1 where n is the number of stored chunks. *)
Definition contiguous (bid : string) (db : Database) : Prop :=
  chunk_indices bid db
  = map (fun i => Some (Z.of_nat i)) (seq 0 (length (chunks_of bid db))).

End Indexer.

(* ===================================================================== *)
(** * Cosine similarity and the vector lookup (specification, 4.6 step 2;
      [idx_embeddings_vector] uses [vector_cosine_ops]) *)
(* ===================================================================== *)

Module Cosine.
Import Schema.
Local Open Scope R_scope.

(** Modelled from the spec: the inner product and the norm behind "cosine
    similarity", computed by back-end code and the database. *)
Fixpoint dot (u v : list R) : R :=
  match u, v with
  | x :: u', y :: v' => x * y + dot u' v'
  | _, _ => 0
  end.

(** Modelled from the spec: the Euclidean norm of "cosine similarity"
    (back-end code and the database). *)
Definition norm (u : list R) : R := sqrt (dot u u).

(** Modelled from the spec: the similarity of the lookup, which is back-end
    code: "cosine similarity", the cosine of the angle between two vectors. *)
Definition cosine_similarity (u v : list R) : R :=
  dot u v / (norm u * norm v).

(** Modelled from the spec: descending insertion sort of scored matches,
    part of the back-end lookup ("top-K chunk matches"). *)
Fixpoint insert_desc {A} (x : A * R) (l : list (A * R)) : list (A * R) :=
  match l with
  | [] => [x]
  | y :: l' =>
      if Rle_dec (snd y) (snd x) then x :: l else y :: insert_desc x l'
  end.

(** Modelled from the spec: the ordering of the back-end lookup, best
    match first. *)
Definition sort_desc {A} (l : list (A * R)) : list (A * R) :=
  fold_right insert_desc [] l.

(** Modelled from the spec: "over the user's chunks", the scope of the
    back-end lookup: the chunks of the bookmarks of one user. *)
Definition owned_by (uid : string) (db : Database) (e : embeddings_row) : bool :=
  existsb (fun b =>
             bool_decide (bookmark_id e = Some (bookmarks_id b))
             && bool_decide (bookmarks_user_id b = Some uid))
          (bookmarks db).

(** A stored vector as a vector of reals. *)
Definition to_R (v : list Q) : list R := map Q2R v.

(** Modelled from the spec: "similarity scores in [0,1]", the scores of
    the matches the back-end lookup returns. *)
Definition unit_score (s : R) : bool :=
  if Rle_dec 0 s then (if Rle_dec s 1 then true else false) else false.

(** Modelled from the spec: the score the back-end lookup gives each chunk
    of the user that has a stored vector, "cosine similarity" with the
    query vector. *)
Definition scored_chunks (uid : string) (q : list Q) (db : Database)
  : list (embeddings_row * R) :=
  omap (fun e => (fun v => (e, cosine_similarity (to_R q) (to_R v)))
                   <$> embedding e)
       (List.filter (owned_by uid db) (embeddings db)).

(** Modelled from the spec: "run a vector-similarity lookup (cosine
    similarity) over the user's chunks, returning the top-K chunk matches
    with similarity scores in [0,1]", which is back-end code: a chunk is a
    match when its cosine similarity with the query is a score in [0,1],
    and the [K] best matches are returned, best first. *)
Definition vector_lookup (K : nat) (uid : string) (q : list Q) (db : Database)
  : list (embeddings_row * R) :=
  firstn K
    (sort_desc
       (List.filter (fun m => unit_score (snd m)) (scored_chunks uid q db))).

(** Modelled from the spec: the per-bookmark relevance of step 4, "the
    maximum chunk score" among the matches of the bookmark, which is
    back-end code; [None] when the bookmark has no match. *)
Definition bookmark_score (bid : string) (ms : list (embeddings_row * R))
  : option R :=
  match List.filter (fun m => bool_decide (bookmark_id (fst m) = Some bid)) ms with
  | [] => None
  | m :: ms' => Some (fold_left Rmax (map snd ms') (snd m))
  end.

(** The unit vector along the first axis of [VECTOR(1536)], scaled by [x]. *)
Definition axis (x : Q) : list Q := x :: repeat (0 : Q) 1535.

End Cosine.

(* ===================================================================== *)
(** * Hybrid search (specification, section 4.6, steps 4-8) *)
(* ===================================================================== *)

Module HybridSearch.
Import JS Types Client.
Local Open Scope Q_scope.

(** Modelled from the spec: the tunable numbers of the back-end engine
    (section 9: "treat the numeric boundaries and fusion weights as
    configuration"). *)
Record Config := {
  excellent_cut : Q;        (* 0.70 by default *)
  good_cut : Q;             (* 0.40 by default *)
  tight_band : Q;           (* width of the band kept below an excellent best *)
  moderate_fraction : Q;    (* fraction of a good best a result must reach *)
  relaxed_fraction : Q;     (* fraction of a poor best a result must reach *)
  fuse : Q -> Q -> Q        (* vector score, lexical score |-> fused score *)
}.

(** Modelled from the spec: the matches of steps 2 and 3, produced by
    back-end code: a bookmark with a similarity, or with a lexical rank. *)
Record ChunkMatch := { cm_bookmark : Bookmark; cm_similarity : Q }.
(** Modelled from the spec: a match of the lexical search of step 3
    (back-end code), with its "normalized relevance score". *)
Record LexMatch := { lm_bookmark : Bookmark; lm_rank : Q }.

(** Modelled from the spec: "the maximum" of two scores, used by back-end
    code. *)
Definition Qmax (a b : Q) : Q := if Qle_bool a b then b else a.

(** Modelled from the spec: "let best = highest fused score among
    candidates", computed by back-end code. *)
Definition best {A} (score : A -> Q) (l : list A) : option Q :=
  match l with
  | [] => None
  | x :: l' => Some (fold_left Qmax (map score l') (score x))
  end.

(** Modelled from the spec: the three policies of step 6, which is
    back-end code. "Within a tight band of best" is read as
    [best - band <= s]; "above a fraction of best" as [fraction * best <= s],
    so that the best hit itself is always kept. *)
Definition keeps (cfg : Config) (b s : Q) : bool :=
  if negb (Qle_bool b (excellent_cut cfg)) then        (* best > 0.70 *)
    Qle_bool (b - tight_band cfg) s
  else if Qle_bool (good_cut cfg) b then               (* 0.40 <= best <= 0.70 *)
    Qle_bool (moderate_fraction cfg * b) s
  else                                                 (* best < 0.40 *)
    Qle_bool (relaxed_fraction cfg * b) s.

(** Modelled from the spec: adaptive thresholding ("smart" mode), which is
    back-end code. *)
Definition adaptive_threshold {A} (score : A -> Q) (cfg : Config)
           (l : list A) : list A :=
  match best score l with
  | None => []
  | Some b => List.filter (fun x => keeps cfg b (score x)) l
  end.

(** Modelled from the spec: the same back-end filter on a bare list of
    fused scores. *)
Definition smart_filter (cfg : Config) (scores : list Q) : list Q :=
  adaptive_threshold (fun s => s) cfg scores.

(** Modelled from the spec: step 4, "keeping, per bookmark, the maximum
    chunk score", which is back-end code. *)
Fixpoint upsert_max (b : Bookmark) (s : Q) (acc : list (Bookmark * Q))
  : list (Bookmark * Q) :=
  match acc with
  | [] => [(b, s)]
  | (b', s') :: acc' =>
      if String.eqb (id b) (id b') then (b', Qmax s' s) :: acc'
      else (b', s') :: upsert_max b s acc'
  end.

(** Modelled from the spec: step 4 over all chunk matches (back-end code). *)
Definition collapse (ms : list ChunkMatch) : list (Bookmark * Q) :=
  fold_left (fun acc m => upsert_max (cm_bookmark m) (cm_similarity m) acc) ms [].

(** Modelled from the spec: the score of a bookmark in one of the two
    result lists of the back-end engine, if it is there. *)
Definition score_in (b : Bookmark) (l : list (Bookmark * Q)) : option Q :=
  snd <$> List.find (fun p => String.eqb (id (fst p)) (id b)) l.

(** Modelled from the spec: a bookmark absent from one back-end result
    list counts with score 0 there. *)
Definition or_zero (o : option Q) : Q :=
  match o with Some q => q | None => 0 end.

(** Modelled from the spec: step 5, fusion of the per-bookmark vector score
    and lexical score, which is back-end code; a bookmark found by one
    search only has score 0 in the other. *)
Definition fused (cfg : Config) (vs : list (Bookmark * Q))
           (ls : list LexMatch) : list (Bookmark * Q) :=
  let lex := map (fun m => (lm_bookmark m, lm_rank m)) ls in
  map (fun p => (fst p, fuse cfg (snd p) (or_zero (score_in (fst p) lex)))) vs
  ++ map (fun p => (fst p, fuse cfg 0 (snd p)))
         (List.filter (fun p => negb (is_some (score_in (fst p) vs))) lex).

(** Modelled from the spec: step 7, "sort by fused score descending; ties
    broken by most-recent [created_at] first", which is back-end code. *)
Definition ranks_before (a b : Bookmark * Q) : bool :=
  if Qeq_bool (snd a) (snd b)
  then String.leb (created_at (fst b)) (created_at (fst a))
  else Qle_bool (snd b) (snd a).

(** Modelled from the spec: step 7 as an insertion sort (back-end code). *)
Fixpoint insert_ranked (x : Bookmark * Q) (l : list (Bookmark * Q))
  : list (Bookmark * Q) :=
  match l with
  | [] => [x]
  | y :: l' => if ranks_before x y then x :: l else y :: insert_ranked x l'
  end.

(** Modelled from the spec: the ranked list of step 7 (back-end code). *)
Definition rank (l : list (Bookmark * Q)) : list (Bookmark * Q) :=
  fold_right insert_ranked [] l.

(** Modelled from the spec: a ranked bookmark with its fused score, as the
    back end returns it ([relevance_score] of [Bookmark]). *)
Definition with_relevance (p : Bookmark * Q) : Bookmark :=
  let b := fst p in
  {| id := id b; user_id := user_id b; Types.url := Types.url b;
     Types.title := Types.title b; Types.description := Types.description b;
     Types.content := Types.content b; Types.platform := Types.platform b;
     meta_data := meta_data b; Types.tags := Types.tags b;
     Types.is_public := Types.is_public b;
     Types.created_at := Types.created_at b; updated_at := updated_at b;
     relevance_score := Some (snd p) |}.

(** Modelled from the spec: [search(user, query_text, filters) -> ranked
    list of (bookmark, score)], which is back-end code. [vec] is the outcome
    of steps 1-2 ([None]: the query embedding failed and the search degrades
    to lexical-only), [lex] that of step 3. *)
Definition search (cfg : Config) (q : jsstring)
           (vec : option (list ChunkMatch)) (lex : list LexMatch)
  : Response SearchResult :=
  let vs := match vec with Some ms => collapse ms | None => [] end in
  let ranked := rank (adaptive_threshold snd cfg (fused cfg vs lex)) in
  Ok {| sr_bookmarks := map with_relevance ranked;
        total := Z.of_nat (length ranked);
        sr_query := q |}.

(** Modelled from the spec: the SearchLog entry of step 8, written by
    back-end code: query text and result count. *)
Definition search_log (r : Response SearchResult) : option (jsstring * Z) :=
  match r with
  | Ok res => Some (sr_query res, total res)
  | Fail _ => None
  end.

End HybridSearch.


(* ===================================================================== *)
(** * Components with state of their own *)
(* ===================================================================== *)

Module Page.
Import JS Types Client.

(** A component (or a second store) with local state [L], running in the
    browser-side world. *)
Record Page (L : Type) := {
  local : L;
  world : World
}.
Arguments Build_Page {L} _ _.
Arguments local {L} _.
Arguments world {L} _.

(** The monad of [Client], over a page. *)
Definition PM (L A : Type) : Type := Page L -> Outcome A * Page L.

Definition ret {L A} (a : A) : PM L A := fun p => (Resolved a, p).

Definition bind {L A B} (m : PM L A) (k : A -> PM L B) : PM L B := fun p =>
  match m p with
  | (Resolved a, p') => k a p'
  | (Rejected e, p') => (Rejected e, p')
  end.

Definition throw {L A} (e : ApiError) : PM L A := fun p => (Rejected e, p).

Definition try_catch {L A} (m : PM L A) (h : ApiError -> PM L A) : PM L A :=
  fun p =>
    match m p with
    | (Resolved a, p') => (Resolved a, p')
    | (Rejected e, p') => h e p'
    end.

(** [try { m } finally { f }]. *)
Definition try_finally {L A} (m : PM L A) (f : PM L unit) : PM L A := fun p =>
  match m p with
  | (o, p') =>
      match f p' with
      | (Resolved _, p'') => (o, p'')
      | (Rejected e, p'') => (Rejected e, p'')
      end
  end.

(** A computation of the world, run from the page. *)
Definition lift {L A} (m : M A) : PM L A := fun p =>
  match m (world p) with
  | (o, w) => (o, {| local := local p; world := w |})
  end.

Definition get_local {L} : PM L L := fun p => (Resolved (local p), p).

Definition get_world {L} : PM L World := fun p => (Resolved (world p), p).

Definition modify_local {L} (f : L -> L) : PM L unit := fun p =>
  (Resolved tt, {| local := f (local p); world := world p |}).

(** A promise that nobody awaits: its effects take place, its outcome is
    dropped. *)
Definition detached {L A} (m : PM L A) : PM L unit := fun p =>
  (Resolved tt, snd (m p)).

(** [Promise.all] of two requests: both are sent; the result is the pair
    of the data, or a rejection if one of them rejects. *)
Definition all2 {L A B} (m1 : PM L A) (m2 : PM L B) : PM L (A * B) := fun p =>
  match m1 p with
  | (o1, p1) =>
      match m2 p1 with
      | (o2, p2) =>
          (match o1, o2 with
           | Resolved a, Resolved b => Resolved (a, b)
           | Rejected e, _ => Rejected e
           | _, Rejected e => Rejected e
           end, p2)
      end
  end.

Declare Scope page_scope.
Delimit Scope page_scope with page.
Notation "x <- m ;; k" := (bind m (fun x => k))
  (at level 100, m at next level, right associativity, only parsing)
  : page_scope.
Notation "m ;; k" := (bind m (fun _ => k))
  (at level 100, right associativity, only parsing) : page_scope.

End Page.

(* ===================================================================== *)
(** * [components/BookmarkList.tsx]: deleting from the list *)
(* ===================================================================== *)

Module BookmarkListComponent.
Import JS Types Client Page.
Local Open Scope page_scope.

(** The [useState] cell of the component: the id being deleted. *)
Definition State := option string.

Section WithBackend.
Variable backend : Backend.

Definition setDeletingId (v : option string) : PM State unit :=
  modify_local (fun _ => v).

(** [confirmed] is the answer to [confirm('Are you sure ...')]. *)
Definition handleDelete (confirmed : bool) (bid : string) : PM State unit :=
  if confirmed then
    setDeletingId (Some bid) ;;
    try_catch
      (lift (deleteBookmark backend bid))
      (fun _ => lift (modify (logged "Failed to delete bookmark:"))) ;;
    setDeletingId None
  else ret tt.

End WithBackend.

(** The delete button of a card is disabled while its bookmark is being
    deleted. *)
Definition delete_disabled (deletingId : State) (b : Bookmark) : bool :=
  match deletingId with
  | Some d => String.eqb d (id b)
  | None => false
  end.

End BookmarkListComponent.

(* ===================================================================== *)
(** * [pages/search.tsx]: the search taken from the URL *)
(* ===================================================================== *)

Module SearchPage.
Import JS Types Client Page.
Local Open Scope page_scope.

(** [router.query.q]: absent, one value, or several. *)
Inductive QueryParam : Type :=
| Absent
| Single (q : jsstring)
| Several (qs : list jsstring).

(** The [useState] cell of the page. *)
Definition State := bool.      (* hasSearched *)

Section WithBackend.
Variable backend : Backend.

(** The effect on [router.query.q] and [user]. The promise of [search] is
    not awaited. *)
Definition query_effect (q : QueryParam) (user : option User) : PM State unit :=
  match q, user with
  | Single s, Some _ =>
      if truthy s then
        detached (lift (search backend
                   {| query := s; limit := None; mode := None;
                      q_platform := None; q_tags := None;
                      date_from := None; date_to := None |})) ;;
        modify_local (fun _ => true)
      else ret tt
  | _, _ => ret tt
  end.

End WithBackend.

(** What the page renders below the search bar. *)
Definition render (p : Page State) : list Panel :=
  Search_page (store (world p)) (local p).

End SearchPage.

(* ===================================================================== *)
(** * [components/AddBookmarkModal.tsx] *)
(* ===================================================================== *)

Module AddBookmarkModal.
Import JS Types Client Page.
Local Open Scope page_scope.

Record FormData := {
  url : jsstring;
  title : jsstring;
  description : jsstring;
  tags : jsstring;
  is_public : bool
}.

(** The cells of the modal, and [isOpen], which its parent owns and
    [onClose] clears. *)
Record State := {
  formData : FormData;
  validationError : jsstring;
  isOpen : bool
}.

Definition empty_form : FormData :=
  {| url := []; title := []; description := []; tags := [];
     is_public := false |}.

Definition setValidationError (msg : jsstring) : PM State unit :=
  modify_local (fun s =>
    {| formData := formData s; validationError := msg; isOpen := isOpen s |}).

Definition resetForm : PM State unit :=
  modify_local (fun s =>
    {| formData := empty_form; validationError := []; isOpen := isOpen s |}).

Definition onClose : PM State unit :=
  modify_local (fun s =>
    {| formData := formData s; validationError := validationError s;
       isOpen := false |}).

Definition handleClose : PM State unit :=
  resetForm ;;
  onClose.

(** [s.split(',')]: the pieces between the commas, at least one. *)
Fixpoint split_comma (cur : jsstring) (s : jsstring) : list jsstring :=
  match s with
  | [] => [rev cur]
  | c :: s' =>
      if (c =? 44)%N then rev cur :: split_comma [] s'
      else split_comma (c :: cur) s'
  end.

Definition split (s : jsstring) : list jsstring := split_comma [] s.

(** [formData.tags.split(',').map(tag => tag.trim())
      .filter(tag => tag.length > 0)]. *)
Definition tagsArray (tags : jsstring) : list jsstring :=
  List.filter (fun tag => (0 <? length tag)%nat) (map trim (split tags)).

(** [tags.join(', ')]: tags written the way the placeholder of the field
    shows them, "tag1, tag2, tag3". *)
Fixpoint join_tags (tags : list jsstring) : jsstring :=
  match tags with
  | [] => []
  | [t] => t
  | t :: rest => t ++ 44%N :: 32%N :: join_tags rest
  end.

(** [x || undefined] on a string. *)
Definition or_undefined (s : jsstring) : option jsstring :=
  if truthy s then Some s else None.

(** One kind of input event for each kind of field. *)
Inductive Change : Type :=
| ChangeUrl (value : jsstring)
| ChangeTitle (value : jsstring)
| ChangeDescription (value : jsstring)
| ChangeTags (value : jsstring)
| ChangeIsPublic (checked : bool).

Definition changed (e : Change) (prev : FormData) : FormData :=
  match e with
  | ChangeUrl v =>
      {| url := v; title := title prev; description := description prev;
         tags := tags prev; is_public := is_public prev |}
  | ChangeTitle v =>
      {| url := url prev; title := v; description := description prev;
         tags := tags prev; is_public := is_public prev |}
  | ChangeDescription v =>
      {| url := url prev; title := title prev; description := v;
         tags := tags prev; is_public := is_public prev |}
  | ChangeTags v =>
      {| url := url prev; title := title prev; description := description prev;
         tags := v; is_public := is_public prev |}
  | ChangeIsPublic b =>
      {| url := url prev; title := title prev; description := description prev;
         tags := tags prev; is_public := b |}
  end.

Definition handleChange (e : Change) : PM State unit :=
  modify_local (fun s =>
    {| formData := changed e (formData s);
       validationError := validationError s; isOpen := isOpen s |}) ;;
  setValidationError [].

(** The argument [handleSubmit] gives to [createBookmark]. *)
Definition submitted (form : FormData) : BookmarkCreate :=
  {| create_url := url form;
     create_title := or_undefined (title form);
     create_description := or_undefined (description form);
     create_tags := Some (tagsArray (tags form));
     create_is_public := Some (is_public form) |}.

Section WithAPI.
Variable bookmarksAPI : BookmarksAPI.
(** [validateUrl]: whether [new URL(url)] succeeds, a matter of the
    browser's URL parser. *)
Variable validateUrl : jsstring -> bool.

Definition handleSubmit : PM State unit :=
  s <- get_local ;;
  let form := formData s in
  if negb (truthy (trim (url form))) then
    setValidationError (of_ascii "URL is required")
  else if negb (validateUrl (url form)) then
    setValidationError (of_ascii "Please enter a valid URL")
  else
    try_catch
      (lift (createBookmark bookmarksAPI (submitted form)) ;;
       handleClose)
      (fun _ => ret tt).

End WithAPI.

(** [validationError || error]: what the red box shows, if anything. *)
Inductive Message : Type :=
| Validation (msg : jsstring)
| StoreError (msg : string).

Definition displayError (p : Page State) : option Message :=
  if truthy (validationError (local p))
  then Some (Validation (validationError (local p)))
  else match error (store (world p)) with
       | Some msg => if String.eqb msg EmptyString then None
                     else Some (StoreError msg)
       | None => None
       end.

End AddBookmarkModal.

(* ===================================================================== *)
(** * [store/authStore.ts] and the logout of [components/Layout.tsx] *)
(* ===================================================================== *)

Module AuthStore.
Import JS Types Client Page.
Local Open Scope page_scope.

Record AuthState := {
  user : option User;
  token : option string;
  isLoading : bool;
  error : option string
}.

Definition initial : AuthState :=
  {| user := None; token := None; isLoading := false; error := None |}.

(** [authAPI]: each entry is the request it makes, through the axios
    instance, whatever the server answers. *)
Record AuthAPI := {
  authAPI_login : LoginCredentials -> M AuthToken;
  authAPI_register : RegisterData -> M User;
  authAPI_getCurrentUser : M User
}.

(** [localStorage], key ['access_token']. *)
Definition localStorage_setItem (v : string) : M unit :=
  modify (fun w =>
    {| store := store w; searchBar := searchBar w;
       Client.access_token := Some v; location_href := location_href w;
       input_focused := input_focused w; requests := requests w;
       console := console w |}).

Definition localStorage_removeItem : M unit :=
  modify (fun w =>
    {| store := store w; searchBar := searchBar w;
       Client.access_token := None; location_href := location_href w;
       input_focused := input_focused w; requests := requests w;
       console := console w |}).

Definition localStorage_getItem : M (option string) := fun w =>
  (Resolved (Client.access_token w), w).

(** The stored token, when it is truthy. *)
Definition stored_token (w : World) : option string :=
  match Client.access_token w with
  | Some tok => if String.eqb tok EmptyString then None else Some tok
  | None => None
  end.

Definition router_push (path : string) : M unit :=
  modify (fun w =>
    {| store := store w; searchBar := searchBar w;
       Client.access_token := Client.access_token w; location_href := path;
       input_focused := input_focused w; requests := requests w;
       console := console w |}).

(** [error.response?.status === 401]. *)
Definition is_401 (e : ApiError) : bool :=
  bool_decide (response_status e = Some 401%N).

Definition set (f : AuthState -> AuthState) : PM AuthState unit :=
  modify_local f.

Definition logout : PM AuthState unit :=
  lift localStorage_removeItem ;;
  set (fun s =>
    {| user := None; token := None; isLoading := isLoading s; error := None |}).

Section WithAPI.
Variable authAPI : AuthAPI.

Definition getCurrentUser : PM AuthState unit :=
  stored <- lift localStorage_getItem ;;
  match stored with
  | None => ret tt
  | Some tok =>
      if String.eqb tok EmptyString then ret tt
      else
        set (fun s =>
          {| user := user s; token := token s; isLoading := true;
             error := error s |}) ;;
        try_catch
          (u <- lift (authAPI_getCurrentUser authAPI) ;;
           set (fun s =>
             {| user := Some u; token := Some tok; isLoading := false;
                error := error s |}))
          (fun e =>
             set (fun s =>
               {| user := user s; token := token s; isLoading := false;
                  error := Some (or_default (response_detail e)
                                            "Failed to get user") |}) ;;
             if is_401 e then logout else ret tt)
  end.

Definition login (credentials : LoginCredentials) : PM AuthState unit :=
  set (fun s =>
    {| user := user s; token := token s; isLoading := true; error := None |}) ;;
  try_catch
    (authToken <- lift (authAPI_login authAPI credentials) ;;
     lift (localStorage_setItem (Types.access_token authToken)) ;;
     set (fun s =>
       {| user := user s; token := Some (Types.access_token authToken);
          isLoading := isLoading s; error := error s |}) ;;
     getCurrentUser)
    (fun e =>
       set (fun s =>
         {| user := user s; token := token s; isLoading := false;
            error := Some (or_default (response_detail e) "Login failed") |}) ;;
       throw e).

Definition register (userData : RegisterData) : PM AuthState unit :=
  set (fun s =>
    {| user := user s; token := token s; isLoading := true; error := None |}) ;;
  try_catch
    (u <- lift (authAPI_register authAPI userData) ;;
     set (fun s =>
       {| user := Some u; token := token s; isLoading := false;
          error := error s |}))
    (fun e =>
       set (fun s =>
         {| user := user s; token := token s; isLoading := false;
            error := Some (or_default (response_detail e)
                                      "Registration failed") |}) ;;
       throw e).

End WithAPI.

Definition clearError : PM AuthState unit :=
  set (fun s =>
    {| user := user s; token := token s; isLoading := isLoading s;
       error := None |}).

(** [partialize]: what the [persist] middleware writes to storage. *)
Definition partialize (s : AuthState) : option string * option User :=
  (token s, user s).

(** [Layout]: the logout button. *)
Definition handleLogout : PM AuthState unit :=
  logout ;;
  lift (router_push "/auth/login").

(** The guard of the pages: [if (!authLoading && !user)
    router.push('/auth/login')]. *)
Definition auth_guard : PM AuthState unit :=
  s <- get_local ;;
  if negb (isLoading s) && negb (is_some (user s))
  then lift (router_push "/auth/login")
  else ret tt.

End AuthStore.

(* ===================================================================== *)
(** * [pages/diagnostics.tsx] *)
(* ===================================================================== *)

Module Diagnostics.
Import JS Types Client Page.
Local Open Scope page_scope.

Record Summary := {
  total_bookmarks : Q;
  total_embeddings : Q;
  embeddings_per_bookmark : Q
}.

Record ContentStats := {
  stats_total_bookmarks : Q;
  with_content : Q;
  with_title : Q;
  with_description : Q;
  content_coverage : Q;
  avg_content_length : Q;
  max_content_length : Q;
  min_content_length : Q
}.

Record PlatformCount := {
  platform : string;
  count : Q
}.

Record Activity := {
  activity_id : string;
  activity_title : string;
  activity_url : string;
  activity_platform : string;
  activity_created_at : string;
  embedding_count : Z;
  content_length : Q
}.

Record DiagnosticOverview := {
  summary : Summary;
  content_stats : ContentStats;
  platforms : list PlatformCount;
  recent_activity : list Activity
}.

Record Processing := {
  total_chunks : Q;
  total_characters : Q;
  avg_chunk_size : Q;
  embedding_dimension : Q
}.

Record EmbeddingInfo := {
  embedding_id : string;
  chunk_index : Z;
  content_chunk : jsstring;
  chunk_length : Q;
  info_embedding_dimension : Q
}.

Record BookmarkDetail := {
  bookmark : list (string * JsonValue);
  processing : Processing;
  embeddings : list EmbeddingInfo
}.

Record SystemInfo := {
  configuration : list (string * JsonValue);
  database : list (string * JsonValue)
}.

Inductive Tab : Type := overview_tab | bookmarks_tab | search_tab | system_tab.

Record State := {
  overview : option DiagnosticOverview;
  systemInfo : option SystemInfo;
  selectedBookmark : option BookmarkDetail;
  searchTest : option JsonValue;
  searchQuery : jsstring;
  isLoading : bool;
  activeTab : Tab
}.

Definition initial : State :=
  {| overview := None; systemInfo := None; selectedBookmark := None;
     searchTest := None; searchQuery := of_ascii "jules"; isLoading := true;
     activeTab := overview_tab |}.

(** The four [api.get] requests of the page, whatever the server
    answers. *)
Record DiagnosticsAPI := {
  get_overview : M DiagnosticOverview;
  get_system_info : M SystemInfo;
  get_bookmark : string -> M BookmarkDetail;
  get_search_test : jsstring -> M JsonValue
}.

Definition setIsLoading (b : bool) : PM State unit :=
  modify_local (fun s =>
    {| overview := overview s; systemInfo := systemInfo s;
       selectedBookmark := selectedBookmark s; searchTest := searchTest s;
       searchQuery := searchQuery s; isLoading := b;
       activeTab := activeTab s |}).

Definition setOverview (v : option DiagnosticOverview) : PM State unit :=
  modify_local (fun s =>
    {| overview := v; systemInfo := systemInfo s;
       selectedBookmark := selectedBookmark s; searchTest := searchTest s;
       searchQuery := searchQuery s; isLoading := isLoading s;
       activeTab := activeTab s |}).

Definition setSystemInfo (v : option SystemInfo) : PM State unit :=
  modify_local (fun s =>
    {| overview := overview s; systemInfo := v;
       selectedBookmark := selectedBookmark s; searchTest := searchTest s;
       searchQuery := searchQuery s; isLoading := isLoading s;
       activeTab := activeTab s |}).

Definition setSelectedBookmark (v : option BookmarkDetail) : PM State unit :=
  modify_local (fun s =>
    {| overview := overview s; systemInfo := systemInfo s;
       selectedBookmark := v; searchTest := searchTest s;
       searchQuery := searchQuery s; isLoading := isLoading s;
       activeTab := activeTab s |}).

Definition setSearchTest (v : option JsonValue) : PM State unit :=
  modify_local (fun s =>
    {| overview := overview s; systemInfo := systemInfo s;
       selectedBookmark := selectedBookmark s; searchTest := v;
       searchQuery := searchQuery s; isLoading := isLoading s;
       activeTab := activeTab s |}).

Definition console_error (line : string) : PM State unit :=
  lift (modify (logged line)).

Section WithAPI.
Variable api : DiagnosticsAPI.

Definition loadDiagnosticData : PM State unit :=
  setIsLoading true ;;
  try_finally
    (try_catch
       (res <- all2 (lift (get_overview api)) (lift (get_system_info api)) ;;
        setOverview (Some (fst res)) ;;
        setSystemInfo (Some (snd res)))
       (fun _ => console_error "Failed to load diagnostic data:"))
    (setIsLoading false).

Definition loadBookmarkDetail (bookmarkId : string) : PM State unit :=
  try_catch
    (response <- lift (get_bookmark api bookmarkId) ;;
     setSelectedBookmark (Some response))
    (fun _ => console_error "Failed to load bookmark detail:").

Definition testSearch : PM State unit :=
  s <- get_local ;;
  try_catch
    (response <- lift (get_search_test api (searchQuery s)) ;;
     setSearchTest (Some response))
    (fun _ => console_error "Failed to test search:").

End WithAPI.

Definition getStatusColor (value threshold : Q) : string :=
  if Qle_bool threshold value then "text-green-600" else "text-yellow-600".

End Diagnostics.
(* ===================================================================== *)
(** * Concrete inputs used by the examples below *)
(* ===================================================================== *)

Module Samples.
Import JS Types.

(** A bookmark as [GET /bookmarks/] may return it. *)
Definition sample_bookmark : Bookmark :=
  {| id := "b1"; user_id := "u1"; url := "https://example.org/";
     title := Some "Example"; description := None; content := None;
     platform := None; meta_data := []; tags := ["docs"];
     is_public := false; created_at := "2024-01-01T00:00:00";
     updated_at := "2024-01-01T00:00:00"; relevance_score := None |}.

Definition other_bookmark : Bookmark :=
  {| id := "b2"; user_id := "u1"; url := "https://example.org/two";
     title := None; description := None; content := None;
     platform := Some "github"; meta_data := []; tags := [];
     is_public := false; created_at := "2024-02-01T00:00:00";
     updated_at := "2024-02-01T00:00:00"; relevance_score := None |}.

(** A server that is down: every request is rejected, here with a 500. *)
Definition server_error : Client.ApiError :=
  {| Client.response_status := Some 500%N;
     Client.response_detail := Some "Internal Server Error" |}.

Definition failing_backend : Client.Backend :=
  {| Client.on_search := fun _ => Client.Fail server_error;
     Client.on_suggestions := fun _ => Client.Fail server_error;
     Client.on_delete := fun _ => Client.Fail server_error |}.

(** A server that accepts every request and finds nothing. *)
Definition quiet_backend : Client.Backend :=
  {| Client.on_search := fun q =>
       Client.Ok {| sr_bookmarks := []; total := 0; sr_query := query q |};
     Client.on_suggestions := fun _ => Client.Ok [];
     Client.on_delete := fun _ => Client.Ok tt |}.

(** The page after the bookmark list was fetched and "sem" was typed. *)
Definition sample_world : Client.World :=
  {| Client.store :=
       {| Client.bookmarks := [sample_bookmark; other_bookmark; sample_bookmark];
          Client.searchResults := None;
          Client.isLoading := false;
          Client.error := None |};
     Client.searchBar :=
       {| Client.sb_query := of_ascii "sem";
          Client.suggestions := [of_ascii "semantic search"];
          Client.showSuggestions := true |};
     Client.access_token := Some "token";
     Client.location_href := "/";
     Client.input_focused := true;
     Client.requests := [];
     Client.console := [] |}.

(** The same page with only blanks in the search box. *)
Definition blank_world : Client.World :=
  Client.with_searchBar
    (fun u => {| Client.sb_query := of_ascii "   ";
                 Client.suggestions := [];
                 Client.showSuggestions := false |})
    sample_world.

(** A configuration of the search engine: cut-overs at 0.70 and 0.40, a
    band of 0.10 below an excellent best, 60% of a good best, 30% of a poor
    one, and a 70/30 weighted sum as fusion. *)
Definition sample_config : HybridSearch.Config :=
  {| HybridSearch.excellent_cut := 0.70;
     HybridSearch.good_cut := 0.40;
     HybridSearch.tight_band := 0.10;
     HybridSearch.moderate_fraction := 0.60;
     HybridSearch.relaxed_fraction := 0.30;
     HybridSearch.fuse := fun v l => (0.7 * v + 0.3 * l)%Q |}.

(** A server whose search finds no candidate, neither by vector nor by
    lexical search. *)
Definition no_match_backend : Client.Backend :=
  {| Client.on_search := fun q =>
       HybridSearch.search sample_config (query q) (Some []) [];
     Client.on_suggestions := fun _ => Client.Ok [];
     Client.on_delete := fun _ => Client.Ok tt |}.

Definition sample_query : SearchQuery :=
  {| query := of_ascii "quantum gardening"; limit := None;
     mode := Some "smart"; q_platform := None; q_tags := None;
     date_from := None; date_to := None |}.

(** A small database: two bookmarks of one user, the first with two stored
    chunks (indices 0 and 1, left by an earlier indexing run), the second
    with one. *)
Definition row_b1 : Schema.bookmarks_row :=
  {| Schema.bookmarks_id := "b1"; Schema.bookmarks_user_id := Some "u1";
     Schema.url := "https://example.org/"; Schema.title := Some "Example";
     Schema.description := None; Schema.content := Some "Old text.";
     Schema.platform := None; Schema.metadata := Some [];
     Schema.tags := Some []; Schema.is_public := Some false;
     Schema.created_at := Some "2024-01-01T00:00:00";
     Schema.updated_at := Some "2024-01-01T00:00:00" |}.

Definition row_b2 : Schema.bookmarks_row :=
  {| Schema.bookmarks_id := "b2"; Schema.bookmarks_user_id := Some "u1";
     Schema.url := "https://example.org/two"; Schema.title := None;
     Schema.description := None; Schema.content := None;
     Schema.platform := Some "github"; Schema.metadata := Some [];
     Schema.tags := Some []; Schema.is_public := Some false;
     Schema.created_at := Some "2024-02-01T00:00:00";
     Schema.updated_at := Some "2024-02-01T00:00:00" |}.

Definition stored_chunk (rid bid : string) (i : Z) (txt : string)
  : Schema.embeddings_row :=
  {| Schema.embeddings_id := rid; Schema.bookmark_id := Some bid;
     Schema.content_chunk := Some txt;
     Schema.embedding := Some [1; 0]%Q;
     Schema.chunk_index := Some i;
     Schema.embeddings_created_at := Some "2024-01-01T00:00:00" |}.

Definition sample_db : Schema.Database :=
  {| Schema.users :=
       [ {| Schema.users_id := "u1"; Schema.email := "a@example.org";
            Schema.password_hash := "x";
            Schema.users_created_at := None;
            Schema.users_updated_at := None |} ];
     Schema.bookmarks := [row_b1; row_b2];
     Schema.embeddings :=
       [ stored_chunk "e1" "b1" 0 "Old";
         stored_chunk "e2" "b2" 0 "Two";
         stored_chunk "e3" "b1" 1 " text." ];
     Schema.search_logs := [] |}.

Definition sample_chunker : Chunker.Config :=
  {| Chunker.max_chars := 30; Chunker.overlap := 4 |}.

Definition sample_document : Chunker.ContentDocument :=
  {| Chunker.doc_title := Some "Example";
     Chunker.doc_description := None;
     Chunker.text :=
       "Bookmarks are saved. They are chunked! Are they searchable? Yes";
     Chunker.doc_platform := None |}.

(** A provider that answers every text with the same two-dimensional
    vector, and a supply of row ids. *)
Definition sample_provider : Indexer.EmbeddingProvider :=
  fun texts => Some (map (fun _ => [0; 1]%Q) texts).

Definition sample_uuid (i : nat) : string :=
  String (ascii_of_nat (65 + i)) EmptyString.

(** [sample_db] after re-indexing ["b1"] with [sample_document]. *)
Definition reindexed_db : Schema.Database :=
  Eval vm_compute in
    match Indexer.index_bookmark sample_chunker sample_provider sample_uuid
                                 "b1" sample_document sample_db with
    | Some db => db
    | None => sample_db
    end.

(** A database whose one chunk has the embedding opposite to the query
    vector [Cosine.axis 1]. *)
Definition opposite_row : Schema.embeddings_row :=
  {| Schema.embeddings_id := "e1"; Schema.bookmark_id := Some "b1";
     Schema.content_chunk := Some "An unrelated text.";
     Schema.embedding := Some (Cosine.axis (-1));
     Schema.chunk_index := Some 0%Z;
     Schema.embeddings_created_at := Some "2024-01-01T00:00:00" |}.

(** A chunk of the same bookmark embedded along the query vector. *)
Definition aligned_row : Schema.embeddings_row :=
  {| Schema.embeddings_id := "e2"; Schema.bookmark_id := Some "b1";
     Schema.content_chunk := Some "A related text.";
     Schema.embedding := Some (Cosine.axis 1);
     Schema.chunk_index := Some 1%Z;
     Schema.embeddings_created_at := Some "2024-01-01T00:00:00" |}.

Definition opposite_db : Schema.Database :=
  {| Schema.users :=
       [ {| Schema.users_id := "u1"; Schema.email := "a@example.org";
            Schema.password_hash := "x";
            Schema.users_created_at := None;
            Schema.users_updated_at := None |} ];
     Schema.bookmarks := [row_b1];
     Schema.embeddings := [opposite_row];
     Schema.search_logs := [] |}.

(** The same database with both chunks. *)
Definition mixed_db : Schema.Database :=
  {| Schema.users := Schema.users opposite_db;
     Schema.bookmarks := [row_b1];
     Schema.embeddings := [opposite_row; aligned_row];
     Schema.search_logs := [] |}.

(** A third bookmark, as the server returns it for a creation. *)
Definition new_bookmark : Bookmark :=
  {| id := "b3"; user_id := "u1"; url := "https://example.org/three";
     title := Some "Three"; description := None; content := None;
     platform := None; meta_data := []; tags := [];
     is_public := false; created_at := "2024-03-01T00:00:00";
     updated_at := "2024-03-01T00:00:00"; relevance_score := None |}.

(** [sample_bookmark] after an edit of its title. *)
Definition edited_bookmark : Bookmark :=
  {| id := "b1"; user_id := "u1"; url := "https://example.org/";
     title := Some "Edited"; description := None; content := None;
     platform := None; meta_data := []; tags := ["docs"];
     is_public := false; created_at := "2024-01-01T00:00:00";
     updated_at := "2024-03-02T00:00:00"; relevance_score := None |}.

(** A server that accepts every bookmark request. *)
Definition accepting_api : Client.BookmarksAPI :=
  {| Client.getAll := fun _ => Client.axios (Client.Ok [other_bookmark]);
     Client.create := fun _ => Client.axios (Client.Ok new_bookmark);
     Client.update := fun _ _ => Client.axios (Client.Ok edited_bookmark) |}.

(** A server that rejects every bookmark request. *)
Definition rejecting_api : Client.BookmarksAPI :=
  {| Client.getAll := fun _ => Client.axios (Client.Fail server_error);
     Client.create := fun _ => Client.axios (Client.Fail server_error);
     Client.update := fun _ _ => Client.axios (Client.Fail server_error) |}.

Definition sample_create : BookmarkCreate :=
  {| create_url := of_ascii "https://example.org/three";
     create_title := None; create_description := None;
     create_tags := Some []; create_is_public := Some false |}.

Definition sample_update : BookmarkUpdate :=
  {| update_title := Some (of_ascii "Edited"); update_description := None;
     update_tags := None; update_is_public := None |}.

Definition alice : User :=
  {| u_id := "u1"; u_email := "a@example.org";
     u_created_at := "2024-01-01T00:00:00" |}.

Definition sample_credentials : LoginCredentials :=
  {| login_email := "a@example.org"; login_password := "secret" |}.

Definition unauthorized : Client.ApiError :=
  {| Client.response_status := Some 401%N;
     Client.response_detail := Some "Could not validate credentials" |}.

(** A server that answers 401 to every request of the search bar. *)
Definition expired_backend : Client.Backend :=
  {| Client.on_search := fun _ => Client.Fail unauthorized;
     Client.on_suggestions := fun _ => Client.Fail unauthorized;
     Client.on_delete := fun _ => Client.Fail unauthorized |}.

(** A server that lets the user in. *)
Definition welcoming_api : AuthStore.AuthAPI :=
  {| AuthStore.authAPI_login := fun _ =>
       Client.axios (Client.Ok {| access_token := "fresh"; token_type := "bearer" |});
     AuthStore.authAPI_register := fun _ => Client.axios (Client.Ok alice);
     AuthStore.authAPI_getCurrentUser := Client.axios (Client.Ok alice) |}.

(** A server that hands out a token and then fails on [/auth/me]. *)
Definition flaky_api : AuthStore.AuthAPI :=
  {| AuthStore.authAPI_login := fun _ =>
       Client.axios (Client.Ok {| access_token := "fresh"; token_type := "bearer" |});
     AuthStore.authAPI_register := fun _ => Client.axios (Client.Fail server_error);
     AuthStore.authAPI_getCurrentUser := Client.axios (Client.Fail server_error) |}.

(** A server that answers 401 to everything. *)
Definition expired_api : AuthStore.AuthAPI :=
  {| AuthStore.authAPI_login := fun _ => Client.axios (Client.Fail unauthorized);
     AuthStore.authAPI_register := fun _ => Client.axios (Client.Fail unauthorized);
     AuthStore.authAPI_getCurrentUser := Client.axios (Client.Fail unauthorized) |}.

(** The sample page with a logged-in user in the auth store. *)
Definition logged_in_page : Page.Page AuthStore.AuthState :=
  {| Page.local := {| AuthStore.user := Some alice;
                      AuthStore.token := Some "token";
                      AuthStore.isLoading := false;
                      AuthStore.error := None |};
     Page.world := sample_world |}.

(** The same browser before anybody logged in. *)
Definition logged_out_page : Page.Page AuthStore.AuthState :=
  {| Page.local := AuthStore.initial;
     Page.world :=
       {| Client.store := Client.initial_store;
          Client.searchBar := {| Client.sb_query := [];
                                 Client.suggestions := [];
                                 Client.showSuggestions := false |};
          Client.access_token := None;
          Client.location_href := "/auth/login";
          Client.input_focused := false;
          Client.requests := [];
          Client.console := [] |} |}.

(** [sample_db] with a second user, who owns nothing, and two search
    logs. *)
Definition two_user_db : Schema.Database :=
  {| Schema.users :=
       [ {| Schema.users_id := "u1"; Schema.email := "a@example.org";
            Schema.password_hash := "x";
            Schema.users_created_at := None;
            Schema.users_updated_at := None |};
         {| Schema.users_id := "u2"; Schema.email := "b@example.org";
            Schema.password_hash := "y";
            Schema.users_created_at := None;
            Schema.users_updated_at := None |} ];
     Schema.bookmarks := Schema.bookmarks sample_db;
     Schema.embeddings := Schema.embeddings sample_db;
     Schema.search_logs :=
       [ {| Schema.search_logs_id := "l1";
            Schema.search_logs_user_id := Some "u1";
            Schema.query := Some "rocq"; Schema.results_count := Some 2%Z;
            Schema.search_logs_created_at := None |};
         {| Schema.search_logs_id := "l2";
            Schema.search_logs_user_id := Some "u2";
            Schema.query := Some "coq"; Schema.results_count := Some 0%Z;
            Schema.search_logs_created_at := None |} ] |}.

(** The sample page while the results of an earlier search are shown. *)
Definition searched_world : Client.World :=
  Client.with_store
    (fun s => {| Client.bookmarks := Client.bookmarks s;
                 Client.searchResults :=
                   Some {| sr_bookmarks := [sample_bookmark];
                           total := 1; sr_query := of_ascii "example" |};
                 Client.isLoading := false;
                 Client.error := None |})
    sample_world.

(** A store holding an empty search result. *)
Definition empty_result_store : Client.BookmarkState :=
  {| Client.bookmarks := [sample_bookmark; other_bookmark];
     Client.searchResults :=
       Some {| sr_bookmarks := []; total := 0; sr_query := of_ascii "nothing" |};
     Client.isLoading := false;
     Client.error := None |}.

(** The search page, freshly opened, nothing searched yet. *)
Definition fresh_search_page : Page.Page SearchPage.State :=
  {| Page.local := false; Page.world := sample_world |}.

(** The modal with a URL typed in, and with blanks only. *)
Definition filled_modal : Page.Page AddBookmarkModal.State :=
  {| Page.local :=
       {| AddBookmarkModal.formData :=
            {| AddBookmarkModal.url := of_ascii "https://example.org/three";
               AddBookmarkModal.title := of_ascii "Three";
               AddBookmarkModal.description := [];
               AddBookmarkModal.tags := of_ascii "rocq, proofs ,,";
               AddBookmarkModal.is_public := false |};
          AddBookmarkModal.validationError := [];
          AddBookmarkModal.isOpen := true |};
     Page.world := sample_world |}.

Definition blank_modal : Page.Page AddBookmarkModal.State :=
  {| Page.local :=
       {| AddBookmarkModal.formData :=
            {| AddBookmarkModal.url := of_ascii "  ";
               AddBookmarkModal.title := [];
               AddBookmarkModal.description := [];
               AddBookmarkModal.tags := [];
               AddBookmarkModal.is_public := false |};
          AddBookmarkModal.validationError := [];
          AddBookmarkModal.isOpen := true |};
     Page.world := sample_world |}.

(** A URL check that asks for a scheme separator, standing in for the
    browser's parser in the examples. *)
Definition has_colon (s : jsstring) : bool :=
  existsb (fun c => (c =? 58)%N) s.

End Samples.

(* ===================================================================== *)
(** * Theorems *)
(* ===================================================================== *)

(** ** JavaScript strings *)

Section JSFacts.
Import JS.

Lemma trimStart_all_white s :
  forallb is_white_space s = true -> trimStart s = [].
Proof.
  induction s as [|c s IH]; simpl; [reflexivity|].
  intros H. apply andb_prop in H as [Hc Hs]. rewrite Hc. auto.
Qed.

Lemma trimStart_nil_inv s :
  trimStart s = [] -> forallb is_white_space s = true.
Proof.
  induction s as [|c s IH]; simpl; [reflexivity|].
  destruct (is_white_space c); simpl; [exact IH | discriminate].
Qed.

Lemma trimStart_head s c t :
  trimStart s = c :: t -> is_white_space c = false.
Proof.
  induction s as [|a s IH]; simpl; [discriminate|].
  destruct (is_white_space a) eqn:Ha; [exact IH|].
  intros E. injection E as <- _. exact Ha.
Qed.

(** The trimmed form is empty exactly for the strings made of white space
    only (the empty string included). *)
Lemma trim_empty_iff s :
  trim s = [] <-> forallb is_white_space s = true.
Proof.
  unfold trim, trimEnd. split.
  - intros H. apply trimStart_nil_inv.
    destruct (trimStart s) as [|c t] eqn:E; [reflexivity|].
    exfalso.
    apply trimStart_head in E.
    assert (Hr : forallb is_white_space (rev (c :: t)) = true).
    { apply trimStart_nil_inv.
      apply (f_equal (@rev N)) in H. rewrite rev_involutive in H. exact H. }
    rewrite forallb_forall in Hr.
    specialize (Hr c). rewrite <- in_rev in Hr.
    rewrite Hr in E; [discriminate | now left].
  - intros H. rewrite (trimStart_all_white _ H). reflexivity.
Qed.

End JSFacts.

(** ** The bookmark record at the public interface *)

Section BookmarkRecord.
Import JS Types Samples.

Lemma lookup_put_opt_ne {A} k k' (f : A -> JsonValue) o m :
  k <> k' -> put_opt k f o m !! k' = m !! k'.
Proof.
  intros Hne. destruct o; simpl; [|reflexivity].
  now rewrite lookup_insert_ne.
Qed.

Lemma Bookmark_object_status b : Bookmark_object b !! "status" = None.
Proof.
  unfold Bookmark_object.
  repeat (first [ rewrite lookup_insert_ne by discriminate
                | rewrite lookup_put_opt_ne by discriminate ]).
  apply lookup_empty.
Qed.

(** C1, as stated: every bookmark record carries a processing status. It
    fails: [sample_bookmark] is a well-typed [Bookmark] and its object has
    no [status] property. *)
Lemma C1_status_field_absent :
  ~ (forall b : Bookmark, carries_status (Bookmark_object b)).
Proof.
  intros H. destruct (H sample_bookmark) as [s Hs].
  rewrite Bookmark_object_status in Hs. discriminate.
Qed.

Lemma lookup_put_opt_Some {A} k k' (f : A -> JsonValue) o m v :
  put_opt k f o m !! k' = Some v -> k' = k \/ m !! k' = Some v.
Proof.
  destruct o as [a|]; simpl; [|now right].
  intros H. apply lookup_insert_Some in H as [[-> _]|[_ H]]; auto.
Qed.

(** The properties of a bookmark object are among the declared fields. *)
Lemma Bookmark_object_fields b k :
  is_Some (Bookmark_object b !! k) ->
  In k ["id"; "user_id"; "url"; "title"; "description"; "content";
        "platform"; "meta_data"; "tags"; "is_public"; "created_at";
        "updated_at"; "relevance_score"].
Proof.
  intros [v Hv]. unfold Bookmark_object in Hv.
  repeat match type of Hv with
         | <[_ := _]> _ !! _ = Some _ =>
             apply lookup_insert_Some in Hv as [[<- _]|[_ Hv]];
             [simpl; tauto|]
         | put_opt _ _ _ _ !! _ = Some _ =>
             apply lookup_put_opt_Some in Hv as [->|Hv]; [simpl; tauto|]
         end.
  rewrite lookup_empty in Hv. discriminate.
Qed.

(** The badge of the diagnostics page: "Processed" for a bookmark with at
    least one embedding, "Pending" otherwise. *)
Lemma processing_badge_cases (n : Z) :
  (0 < n)%Z /\ Client.processing_badge n = "Processed"
  \/ (n <= 0)%Z /\ Client.processing_badge n = "Pending".
Proof.
  unfold Client.processing_badge.
  destruct (Z.ltb_spec 0 n); [left|right]; split; auto.
Qed.

(** C1, amended: no bookmark record visible at the public interface carries
    a processing status: a [Bookmark] object has no property besides the
    thirteen fields its interface declares, none of them a [status], and
    the [bookmarks] table has no [status] column. *)
Theorem C1_bookmark_has_no_status :
  (forall b : Bookmark,
      Bookmark_object b !! "status" = None /\ ~ carries_status (Bookmark_object b))
  /\ (forall (b : Bookmark) (k : string),
        is_Some (Bookmark_object b !! k) ->
        In k ["id"; "user_id"; "url"; "title"; "description"; "content";
              "platform"; "meta_data"; "tags"; "is_public"; "created_at";
              "updated_at"; "relevance_score"])
  /\ ~ In "status" Schema.bookmarks_columns.
Proof.
  split; [|split].
  - intros b. split; [apply Bookmark_object_status|].
    intros [s Hs]. rewrite Bookmark_object_status in Hs. discriminate.
  - apply Bookmark_object_fields.
  - unfold Schema.bookmarks_columns. simpl.
    intros H. repeat (destruct H as [H|H]; [discriminate H|]). exact H.
Qed.

(** The [url] property of the sample bookmark. *)
Lemma C1_bookmark_has_no_status_witness :
  is_Some (Bookmark_object sample_bookmark !! "url")
  /\ In "url" ["id"; "user_id"; "url"; "title"; "description"; "content";
               "platform"; "meta_data"; "tags"; "is_public"; "created_at";
               "updated_at"; "relevance_score"].
Proof.
  assert (H : is_Some (Bookmark_object sample_bookmark !! "url")).
  { unfold Bookmark_object.
    rewrite !lookup_insert_ne by discriminate.
    rewrite lookup_insert_eq. eexists. reflexivity. }
  split; [exact H|].
  exact (proj1 (proj2 C1_bookmark_has_no_status) sample_bookmark "url" H).
Defined.

End BookmarkRecord.

(** ** The store and the search bar *)

Section ClientFacts.
Import JS Types Client Samples.
Variable backend : Backend.

(** The response interceptor touches the token and the location only. *)
Lemma response_interceptor_cases e w :
  response_interceptor e w = w
  \/ response_status e = Some 401%N
     /\ response_interceptor e w
        = {| store := store w; searchBar := searchBar w;
             access_token := None; location_href := "/auth/login";
             input_focused := input_focused w; requests := requests w;
             console := console w |}.
Proof.
  unfold response_interceptor.
  destruct (response_status e) as [n|]; [|now left].
  destruct (N.eq_dec n 401%N) as [->|Hne]; [right; split; reflexivity|].
  left. destruct n as [|p]; [reflexivity|].
  do 9 (destruct p as [p|p|]; try reflexivity). congruence.
Qed.

Lemma response_interceptor_store e w :
  store (response_interceptor e w) = store w.
Proof. destruct (response_interceptor_cases e w) as [->|[_ ->]]; reflexivity. Qed.

Lemma response_interceptor_searchBar e w :
  searchBar (response_interceptor e w) = searchBar w.
Proof. destruct (response_interceptor_cases e w) as [->|[_ ->]]; reflexivity. Qed.

Lemma response_interceptor_requests e w :
  requests (response_interceptor e w) = requests w.
Proof. destruct (response_interceptor_cases e w) as [->|[_ ->]]; reflexivity. Qed.

Lemma response_interceptor_console e w :
  console (response_interceptor e w) = console w.
Proof. destruct (response_interceptor_cases e w) as [->|[_ ->]]; reflexivity. Qed.

Lemma response_interceptor_other e w :
  response_status e <> Some 401%N -> response_interceptor e w = w.
Proof. destruct (response_interceptor_cases e w) as [->|[? _]]; congruence. Qed.

(** C10: [deleteBookmark] on success removes from the bookmark list exactly
    the entries whose id matches, keeping the others as they were and in
    order; on a rejected request it leaves the list as it was, records the
    error message (and resets [isLoading]) and rethrows. *)
Theorem C10_deleteBookmark_list (bid : string) (w : World) :
  let old := store w in
  let new := store (snd (deleteBookmark backend bid w)) in
  match on_delete backend bid with
  | Ok _ =>
      fst (deleteBookmark backend bid w) = Resolved tt
      /\ bookmarks new = filter (fun b => id b <> bid) (bookmarks old)
      /\ sublist (bookmarks new) (bookmarks old)
      /\ (forall b, b ∈ bookmarks new <-> b ∈ bookmarks old /\ id b <> bid)
      /\ filter (fun b => id b <> bid) (bookmarks new)
         = filter (fun b => id b <> bid) (bookmarks old)
      /\ searchResults new = searchResults old
      /\ isLoading new = false
      /\ error new = None
  | Fail e =>
      fst (deleteBookmark backend bid w) = Rejected e
      /\ bookmarks new = bookmarks old
      /\ searchResults new = searchResults old
      /\ isLoading new = false
      /\ error new
         = Some (or_default (response_detail e) "Failed to delete bookmark")
  end.
Proof.
  unfold deleteBookmark, bookmarksAPI_delete, api_request, set, modify,
    bind, try_catch, throw.
  destruct (on_delete backend bid) as [[]|e]; simpl.
  - split; [reflexivity|]. split; [reflexivity|].
    split; [apply sublist_filter|].
    split; [intros b; rewrite list_elem_of_filter; tauto|].
    split; [apply list_filter_filter_l; tauto|].
    repeat split; reflexivity.
  - rewrite !response_interceptor_store. simpl. repeat split; reflexivity.
Qed.

(** [deleteBookmark] on a list with a repeated entry: both copies of
    ["b1"] go, ["b2"] stays. *)
Example deleteBookmark_sample :
  bookmarks (store (snd (deleteBookmark quiet_backend "b1" sample_world)))
  = [other_bookmark]
  /\ bookmarks (store (snd (deleteBookmark failing_backend "b1" sample_world)))
    = [sample_bookmark; other_bookmark; sample_bookmark]
  /\ error (store (snd (deleteBookmark failing_backend "b1" sample_world)))
    = Some "Internal Server Error".
Proof. repeat split; vm_compute; reflexivity. Qed.

Lemma handleSearch_blank (searchQuery : option jsstring) (w : World) :
  trim (or_else searchQuery (sb_query (searchBar w))) = [] ->
  handleSearch backend searchQuery w = (Resolved tt, w).
Proof.
  intros Hblank. unfold handleSearch, bind, get. simpl.
  rewrite Hblank. reflexivity.
Qed.

(** C9: when the trimmed form of the query to search for (the override if
    it is a non-empty string, the text of the search box otherwise) is
    empty, [handleSearch] returns at once: no request is sent and the whole
    world, the stored search results included, is as before. *)
Theorem C9_handleSearch_blank_noop (searchQuery : option jsstring) (w : World) :
  trim (or_else searchQuery (sb_query (searchBar w))) = [] ->
  handleSearch backend searchQuery w = (Resolved tt, w)
  /\ requests (snd (handleSearch backend searchQuery w)) = requests w
  /\ searchResults (store (snd (handleSearch backend searchQuery w)))
     = searchResults (store w).
Proof.
  intros Hblank. rewrite (handleSearch_blank _ _ Hblank). auto.
Qed.

(** Every white-space-only text of the search box is covered, and so is
    every white-space-only override. *)
Lemma handleSearch_blank_box (w : World) :
  forallb is_white_space (sb_query (searchBar w)) = true ->
  handleSearch backend None w = (Resolved tt, w).
Proof.
  intros H. apply handleSearch_blank. simpl. now apply trim_empty_iff.
Qed.

Lemma handleSearch_blank_override (s : jsstring) (w : World) :
  s <> [] -> forallb is_white_space s = true ->
  handleSearch backend (Some s) w = (Resolved tt, w).
Proof.
  intros Hne H. apply handleSearch_blank.
  destruct s as [|c s]; [contradiction|]. simpl. now apply trim_empty_iff.
Qed.


End ClientFacts.

Section ClientExamples.
Import JS Types Client Samples.

(** A two-blank override on the sample page. *)
Lemma C9_handleSearch_blank_noop_witness :
  let arg := Some (of_ascii "  ") in
  trim (or_else arg (sb_query (searchBar sample_world))) = []
  /\ handleSearch failing_backend arg sample_world = (Resolved tt, sample_world)
  /\ requests (snd (handleSearch failing_backend arg sample_world))
     = requests sample_world
  /\ searchResults (store (snd (handleSearch failing_backend arg sample_world)))
     = searchResults (store sample_world).
Proof.
  intros arg.
  assert (H : trim (or_else arg (sb_query (searchBar sample_world))) = [])
    by (vm_compute; reflexivity).
  split; [exact H|].
  exact (C9_handleSearch_blank_noop failing_backend arg sample_world H).
Defined.

(** An empty override is falsy: the handler falls back on the text of the
    search box, and searches for it when it is not blank. *)
Example handleSearch_empty_override :
  requests (snd (handleSearch quiet_backend (Some []) sample_world))
  = [POST_search {| query := of_ascii "sem"; limit := None; mode := Some "smart";
                    q_platform := None; q_tags := None;
                    date_from := None; date_to := None |}]
  /\ handleSearch quiet_backend (Some []) blank_world = (Resolved tt, blank_world).
Proof. split; vm_compute; reflexivity. Qed.



(** A session that has expired: the swallowed failure still ends on the
    login page, through the response interceptor. *)
Example fetchSuggestions_unauthorized :
  let expired := {| response_status := Some 401%N; response_detail := None |} in
  let backend := {| on_search := fun _ => Fail expired;
                    on_suggestions := fun _ => Fail expired;
                    on_delete := fun _ => Fail expired |} in
  let w' := snd (fetchSuggestions backend sample_world) in
  fst (fetchSuggestions backend sample_world) = Resolved tt
  /\ suggestions (searchBar w') = []
  /\ error (store w') = None
  /\ location_href w' = "/auth/login"
  /\ access_token w' = None.
Proof. vm_compute. repeat split; reflexivity. Qed.

End ClientExamples.

(** ** Hybrid search *)

Section HybridSearchFacts.
Import JS Types Client HybridSearch Samples.
Local Open Scope Q_scope.

Lemma search_no_candidates cfg q vec :
  vec = None \/ vec = Some [] ->
  HybridSearch.search cfg q vec []
  = Ok {| sr_bookmarks := []; total := 0; sr_query := q |}.
Proof. intros [->| ->]; reflexivity. Qed.

(** C7: when neither the vector search nor the lexical search yields a
    candidate (the vector side being empty or unavailable), the search
    answers successfully with an empty ranked list and total 0; the store
    then holds that result with no error, and the page shows its "no
    bookmarks found" state. *)
Theorem C7_no_candidates_is_empty_success
        (backend : Backend) (cfg : Config)
        (vec : option (list ChunkMatch)) (q : SearchQuery)
        (w : World) (hasSearched : bool) :
  vec = None \/ vec = Some [] ->
  on_search backend q = HybridSearch.search cfg (query q) vec [] ->
  let empty := {| sr_bookmarks := []; total := 0; sr_query := query q |} in
  let w' := snd (Client.search backend q w) in
  HybridSearch.search cfg (query q) vec [] = Ok empty
  /\ fst (Client.search backend q w) = Resolved empty
  /\ searchResults (store w') = Some empty
  /\ error (store w') = None
  /\ isLoading (store w') = false
  /\ Search_page (store w') hasSearched
     = [ResultsInfo 0 (query q); BookmarkList [] true; NoResultsState].
Proof.
  intros Hvec Hback. simpl.
  rewrite (search_no_candidates cfg (query q) vec Hvec) in *.
  unfold Client.search, searchAPI_search, api_request, set, modify, bind,
    try_catch, ret.
  rewrite Hback. simpl. repeat split; reflexivity.
Qed.

Lemma keeps_excellent cfg b s :
  excellent_cut cfg < b -> keeps cfg b s = Qle_bool (b - tight_band cfg) s.
Proof.
  intros H. unfold keeps.
  destruct (Qle_bool b (excellent_cut cfg)) eqn:E; [|reflexivity].
  apply Qle_bool_iff in E. Lqa.lra.
Qed.

Lemma keeps_good cfg b s :
  good_cut cfg <= b -> b <= excellent_cut cfg ->
  keeps cfg b s = Qle_bool (moderate_fraction cfg * b) s.
Proof.
  intros H1 H2. unfold keeps.
  apply Qle_bool_iff in H1, H2. rewrite H1, H2. reflexivity.
Qed.

Lemma keeps_poor cfg b s :
  b < good_cut cfg -> b <= excellent_cut cfg ->
  keeps cfg b s = Qle_bool (relaxed_fraction cfg * b) s.
Proof.
  intros H1 H2. unfold keeps.
  apply Qle_bool_iff in H2. rewrite H2. simpl.
  destruct (Qle_bool (good_cut cfg) b) eqn:E; [|reflexivity].
  apply Qle_bool_iff in E. Lqa.lra.
Qed.

Lemma Qle_bool_true a b : a <= b -> Qle_bool a b = true.
Proof. apply Qle_bool_iff. Qed.

Lemma Qle_bool_false a b : b < a -> Qle_bool a b = false.
Proof.
  intros H. destruct (Qle_bool a b) eqn:E; [|reflexivity].
  apply Qle_bool_iff in E. Lqa.lra.
Qed.

(** C2: with the cut-overs at 0.70 and 0.40, the three examples hold for
    every configuration whose tight band is at least 0.03 and below 0.45
    wide, whose moderate fraction lies in (1/3, 11/12] and whose relaxed
    fraction is at most 1/3. *)
Theorem C2_adaptive_threshold_examples (cfg : Config) :
  excellent_cut cfg == 0.70 ->
  good_cut cfg == 0.40 ->
  0.03 <= tight_band cfg < 0.45 ->
  1#3 < moderate_fraction cfg <= 11#12 ->
  relaxed_fraction cfg <= 1#3 ->
  smart_filter cfg [0.95; 0.92; 0.50; 0.10] = [0.95; 0.92]
  /\ smart_filter cfg [0.60; 0.55; 0.20] = [0.60; 0.55]
  /\ smart_filter cfg [0.30; 0.10] = [0.30; 0.10].
Proof.
  intros Hex Hgood [Hb1 Hb2] [Hm1 Hm2] Hr.
  unfold smart_filter, adaptive_threshold.
  change (best (fun s : Q => s) [0.95; 0.92; 0.50; 0.10]) with (Some 0.95).
  change (best (fun s : Q => s) [0.60; 0.55; 0.20]) with (Some 0.60).
  change (best (fun s : Q => s) [0.30; 0.10]) with (Some 0.30).
  cbn [List.filter].
  rewrite !(keeps_excellent cfg 0.95) by Lqa.lra.
  rewrite !(keeps_good cfg 0.60) by Lqa.lra.
  rewrite !(keeps_poor cfg 0.30) by Lqa.lra.
  rewrite (Qle_bool_true (0.95 - tight_band cfg) 0.95) by Lqa.lra.
  rewrite (Qle_bool_true (0.95 - tight_band cfg) 0.92) by Lqa.lra.
  rewrite (Qle_bool_false (0.95 - tight_band cfg) 0.50) by Lqa.lra.
  rewrite (Qle_bool_false (0.95 - tight_band cfg) 0.10) by Lqa.lra.
  rewrite (Qle_bool_true (moderate_fraction cfg * 0.60) 0.60) by Lqa.lra.
  rewrite (Qle_bool_true (moderate_fraction cfg * 0.60) 0.55) by Lqa.lra.
  rewrite (Qle_bool_false (moderate_fraction cfg * 0.60) 0.20) by Lqa.lra.
  rewrite (Qle_bool_true (relaxed_fraction cfg * 0.30) 0.30) by Lqa.lra.
  rewrite (Qle_bool_true (relaxed_fraction cfg * 0.30) 0.10) by Lqa.lra.
  repeat split; reflexivity.
Qed.

(** The sample configuration lies within the bounds. *)
Lemma C2_adaptive_threshold_examples_witness :
  excellent_cut sample_config == 0.70
  /\ good_cut sample_config == 0.40
  /\ 0.03 <= tight_band sample_config < 0.45
  /\ 1#3 < moderate_fraction sample_config <= 11#12
  /\ relaxed_fraction sample_config <= 1#3
  /\ smart_filter sample_config [0.95; 0.92; 0.50; 0.10] = [0.95; 0.92]
  /\ smart_filter sample_config [0.60; 0.55; 0.20] = [0.60; 0.55]
  /\ smart_filter sample_config [0.30; 0.10] = [0.30; 0.10].
Proof.
  assert (H1 : excellent_cut sample_config == 0.70) by reflexivity.
  assert (H2 : good_cut sample_config == 0.40) by reflexivity.
  assert (H3 : 0.03 <= tight_band sample_config < 0.45)
    by (simpl; split; Lqa.lra).
  assert (H4 : 1#3 < moderate_fraction sample_config <= 11#12)
    by (simpl; split; Lqa.lra).
  assert (H5 : relaxed_fraction sample_config <= 1#3) by (simpl; Lqa.lra).
  repeat (split; [assumption|]).
  exact (C2_adaptive_threshold_examples sample_config H1 H2 H3 H4 H5).
Defined.

(** These bounds are the ones the examples call for: a configuration
    with the same cut-overs that passes the three examples lies within
    them. *)
Lemma adaptive_threshold_examples_force (cfg : Config) :
  excellent_cut cfg == 0.70 ->
  good_cut cfg == 0.40 ->
  smart_filter cfg [0.95; 0.92; 0.50; 0.10] = [0.95; 0.92] ->
  smart_filter cfg [0.60; 0.55; 0.20] = [0.60; 0.55] ->
  smart_filter cfg [0.30; 0.10] = [0.30; 0.10] ->
  0.03 <= tight_band cfg < 0.45
  /\ 1#3 < moderate_fraction cfg <= 11#12
  /\ relaxed_fraction cfg <= 1#3.
Proof.
  intros Hex Hgood.
  unfold smart_filter, adaptive_threshold.
  change (best (fun s : Q => s) [0.95; 0.92; 0.50; 0.10]) with (Some 0.95).
  change (best (fun s : Q => s) [0.60; 0.55; 0.20]) with (Some 0.60).
  change (best (fun s : Q => s) [0.30; 0.10]) with (Some 0.30).
  cbn [List.filter].
  rewrite !(keeps_excellent cfg 0.95) by Lqa.lra.
  rewrite !(keeps_good cfg 0.60) by Lqa.lra.
  rewrite !(keeps_poor cfg 0.30) by Lqa.lra.
  destruct (Qle_bool (0.95 - tight_band cfg) 0.95) eqn:A1;
    destruct (Qle_bool (0.95 - tight_band cfg) 0.92) eqn:A2;
    destruct (Qle_bool (0.95 - tight_band cfg) 0.50) eqn:A3;
    destruct (Qle_bool (0.95 - tight_band cfg) 0.10) eqn:A4;
    try discriminate; intros _.
  destruct (Qle_bool (moderate_fraction cfg * 0.60) 0.60) eqn:B1;
    destruct (Qle_bool (moderate_fraction cfg * 0.60) 0.55) eqn:B2;
    destruct (Qle_bool (moderate_fraction cfg * 0.60) 0.20) eqn:B3;
    try discriminate; intros _.
  destruct (Qle_bool (relaxed_fraction cfg * 0.30) 0.30) eqn:C1;
    destruct (Qle_bool (relaxed_fraction cfg * 0.30) 0.10) eqn:C2;
    try discriminate; intros _.
  apply Qle_bool_iff in A2, B2, C2.
  assert (A3' : ~ 0.95 - tight_band cfg <= 0.50)
    by (rewrite <- Qle_bool_iff, A3; discriminate).
  assert (B3' : ~ moderate_fraction cfg * 0.60 <= 0.20)
    by (rewrite <- Qle_bool_iff, B3; discriminate).
  repeat split; Lqa.lra.
Qed.

(** The sample page against a server whose two searches find nothing. *)
Lemma C7_no_candidates_is_empty_success_witness :
  (Some ([] : list ChunkMatch) = None \/ Some [] = Some ([] : list ChunkMatch))
  /\ on_search no_match_backend sample_query
     = HybridSearch.search sample_config (query sample_query) (Some []) []
  /\ let empty := {| sr_bookmarks := []; total := 0;
                     sr_query := query sample_query |} in
     let w' := snd (Client.search no_match_backend sample_query sample_world) in
     HybridSearch.search sample_config (query sample_query) (Some []) [] = Ok empty
     /\ fst (Client.search no_match_backend sample_query sample_world)
        = Resolved empty
     /\ searchResults (store w') = Some empty
     /\ error (store w') = None
     /\ isLoading (store w') = false
     /\ Search_page (store w') true
        = [ResultsInfo 0 (query sample_query); BookmarkList [] true;
           NoResultsState].
Proof.
  assert (H1 : Some ([] : list ChunkMatch) = None \/ Some [] = Some ([] : list ChunkMatch))
    by (right; reflexivity).
  assert (H2 : on_search no_match_backend sample_query
               = HybridSearch.search sample_config (query sample_query)
                   (Some []) []) by reflexivity.
  split; [exact H1|]. split; [exact H2|].
  exact (C7_no_candidates_is_empty_success no_match_backend sample_config
           (Some []) sample_query sample_world true H1 H2).
Defined.

(** The filter at work on candidates that are not sorted: the best score
    is found wherever it stands, and ranking follows the filter. *)
Example search_ranks_after_filter :
  HybridSearch.search sample_config (of_ascii "q")
    (Some [ {| cm_bookmark := other_bookmark; cm_similarity := 0.50 |};
            {| cm_bookmark := sample_bookmark; cm_similarity := 0.90 |};
            {| cm_bookmark := sample_bookmark; cm_similarity := 0.40 |} ])
    [ {| lm_bookmark := sample_bookmark; lm_rank := 1 |} ]
  = Ok {| sr_bookmarks :=
            [with_relevance (sample_bookmark, 0.7 * 0.90 + 0.3 * 1)];
          total := 1;
          sr_query := of_ascii "q" |}.
Proof. vm_compute. reflexivity. Qed.

(** The relevance badge reads its score as a percentage: a fused score of
    the unit interval is shown as "0% match" or "1% match". *)
Lemma relevance_badge_unit_interval (b : Bookmark) (s : Q) :
  relevance_score b = Some s -> 0 < s <= 1 ->
  relevance_badge b = Some 0%Z \/ relevance_badge b = Some 1%Z.
Proof.
  intros Hs [H0 H1]. unfold relevance_badge, Math_round. rewrite Hs.
  rewrite (Qle_bool_false s 0 H0).
  assert (Hlo : (Qfloor (1 # 2) <= Qfloor (s + (1 # 2)))%Z)
    by (apply Qfloor_resp_le; Lqa.lra).
  assert (Hhi : (Qfloor (s + (1 # 2)) <= Qfloor (3 # 2))%Z)
    by (apply Qfloor_resp_le; Lqa.lra).
  change (Qfloor (1 # 2)) with 0%Z in Hlo.
  change (Qfloor (3 # 2)) with 1%Z in Hhi.
  assert (E : Qfloor (s + (1 # 2)) = 0%Z \/ Qfloor (s + (1 # 2)) = 1%Z) by lia.
  destruct E as [-> | ->]; auto.
Qed.

Example relevance_badge_sample :
  relevance_badge (with_relevance (sample_bookmark, 0.93)) = Some 1%Z
  /\ relevance_badge (with_relevance (sample_bookmark, 93)) = Some 93%Z
  /\ relevance_badge sample_bookmark = None.
Proof. repeat split; vm_compute; reflexivity. Qed.

End HybridSearchFacts.

(** ** The schema: deleting a bookmark *)

Section SchemaFacts.
Import Schema Samples.

Lemma delete_bookmark_embeddings (db : Database) (bid : string) e :
  e ∈ embeddings (delete_bookmark bid db) <->
  e ∈ embeddings db
  /\ ~ (bookmark_id e = Some bid /\ exists b, b ∈ bookmarks db /\ bookmarks_id b = bid).
Proof.
  unfold delete_bookmark. simpl. rewrite list_elem_of_filter.
  unfold references. split.
  - intros [Hn He]. split; [exact He|]. intros [Hb (b & Hin & Hid)].
    apply Hn. exists b. split.
    + apply list_elem_of_filter. auto.
    + congruence.
  - intros [He Hn]. split; [|exact He]. intros (b & Hin & Hb).
    apply list_elem_of_filter in Hin as [Hid Hin].
    apply Hn. split; [congruence|]. eauto.
Qed.

(** C4: deleting a bookmark leaves no [embeddings] row that references it;
    hence the vector index holds no entry of its chunks and the full-text
    index no entry of the bookmark, while the chunks of the other
    bookmarks stay. *)
Theorem C4_delete_bookmark_removes_chunks (db : Database) (b : bookmarks_row) :
  b ∈ bookmarks db ->
  let bid := bookmarks_id b in
  let db' := delete_bookmark bid db in
  (forall e, e ∈ embeddings db' -> bookmark_id e <> Some bid)
  /\ Indexer.chunks_of bid db' = []
  /\ (forall e v, (e, v) ∈ idx_embeddings_vector db' -> bookmark_id e <> Some bid)
  /\ (forall r doc, (r, doc) ∈ idx_bookmarks_fts db' -> bookmarks_id r <> bid)
  /\ (forall e, e ∈ embeddings db -> bookmark_id e <> Some bid ->
                e ∈ embeddings db').
Proof.
  intros Hb bid db'.
  assert (Hgone : forall e, e ∈ embeddings db' -> bookmark_id e <> Some bid).
  { intros e He Hid. apply delete_bookmark_embeddings in He as [_ Hn].
    apply Hn. split; [exact Hid|]. exists b. auto. }
  split; [exact Hgone|]. split; [|split; [|split]].
  - unfold Indexer.chunks_of.
    destruct (filter _ (embeddings db')) as [|e l] eqn:E; [reflexivity|].
    exfalso. assert (He : e ∈ filter (fun e => bookmark_id e = Some bid)
                                     (embeddings db')).
    { rewrite E. left. }
    apply list_elem_of_filter in He as [Hid He]. exact (Hgone e He Hid).
  - intros e v Hin. unfold idx_embeddings_vector in Hin.
    apply list_elem_of_omap in Hin as (e' & He' & Hv).
    destruct (embedding e') as [v'|]; simpl in Hv; [|discriminate].
    injection Hv as <- <-. apply Hgone. exact He'.
  - intros r doc Hin. unfold idx_bookmarks_fts in Hin.
    apply list_elem_of_fmap in Hin as (r' & Heq & Hr').
    injection Heq as -> _. subst db'. unfold delete_bookmark in Hr'. simpl in Hr'.
    apply list_elem_of_filter in Hr' as [Hne _]. exact Hne.
  - intros e He Hne. apply delete_bookmark_embeddings. tauto.
Qed.

(** Deleting the first bookmark of the sample database. *)
Lemma C4_delete_bookmark_removes_chunks_witness :
  row_b1 ∈ bookmarks sample_db
  /\ let bid := bookmarks_id row_b1 in
     let db' := delete_bookmark bid sample_db in
     (forall e, e ∈ embeddings db' -> bookmark_id e <> Some bid)
     /\ Indexer.chunks_of bid db' = []
     /\ (forall e v, (e, v) ∈ idx_embeddings_vector db' -> bookmark_id e <> Some bid)
     /\ (forall r doc, (r, doc) ∈ idx_bookmarks_fts db' -> bookmarks_id r <> bid)
     /\ (forall e, e ∈ embeddings sample_db -> bookmark_id e <> Some bid ->
                   e ∈ embeddings db').
Proof.
  assert (H : row_b1 ∈ bookmarks sample_db) by (simpl; left).
  split; [exact H|].
  exact (C4_delete_bookmark_removes_chunks sample_db row_b1 H).
Defined.

Example delete_bookmark_sample :
  embeddings (delete_bookmark "b1" sample_db) = [stored_chunk "e2" "b2" 0 "Two"]
  /\ bookmarks (delete_bookmark "b1" sample_db) = [row_b2]
  /\ delete_bookmark "nobody" sample_db = sample_db.
Proof. repeat split; vm_compute; reflexivity. Qed.

(** Deleting keeps the foreign key of [embeddings] intact. *)
Lemma delete_bookmark_fk (db : Database) (bid : string) :
  fk_embeddings_ok db -> fk_embeddings_ok (delete_bookmark bid db).
Proof.
  intros Hfk e bid' He Hid.
  apply delete_bookmark_embeddings in He as [He Hn].
  destruct (Hfk e bid' He Hid) as (b & Hb & Hbid).
  exists b. split; [|exact Hbid].
  unfold delete_bookmark. simpl. apply list_elem_of_filter. split; [|exact Hb].
  intros Hb2. apply Hn. split; [congruence|]. exists b. auto.
Qed.

End SchemaFacts.

(** ** The chunker *)

Section ChunkerFacts.
Import Chunker Samples.

Lemma fitsb_spec cfg buf seg : fitsb cfg buf seg = true <-> fits cfg buf seg.
Proof.
  unfold fits, fitsb. rewrite orb_true_iff, String.eqb_eq, Nat.leb_le.
  reflexivity.
Qed.

(** One state has at most one successor. *)
Lemma step_deterministic cfg s s1 s2 :
  step cfg s s1 -> step cfg s s2 -> s1 = s2.
Proof.
  intros H1 H2.
  destruct H1 as [seg rest buf out Hf|seg rest buf out Hf];
    inversion H2; subst; try reflexivity; contradiction.
Qed.

(** A state with no pending segment is final. *)
Lemma step_final cfg buf out s' :
  ~ step cfg {| pending := []; buffer := buf; emitted := out |} s'.
Proof. intros H. inversion H. Qed.

Lemma runs_deterministic cfg s r1 r2 :
  runs cfg s r1 -> runs cfg s r2 -> r1 = r2.
Proof.
  intros H1. revert r2.
  induction H1 as [buf out|s s' r Hstep Hruns IH]; intros r2 H2.
  - inversion H2 as [buf' out'|s0 s0' r0 Hstep' Hruns']; subst.
    + reflexivity.
    + exfalso. exact (step_final _ _ _ _ Hstep').
  - inversion H2 as [buf' out' Hs|s0 s0' r0 Hstep' Hruns']; subst.
    + exfalso. exact (step_final _ _ _ _ Hstep).
    + rewrite (step_deterministic _ _ _ _ Hstep Hstep') in IH.
      apply IH. exact Hruns'.
Qed.

(** Every state runs to completion, and [accumulate] computes the run. *)
Lemma runs_accumulate cfg pend buf out :
  runs cfg {| pending := pend; buffer := buf; emitted := out |}
       (accumulate cfg pend buf out).
Proof.
  revert buf out. induction pend as [|seg rest IH]; intros buf out; simpl.
  - constructor.
  - destruct (fitsb cfg buf seg) eqn:E.
    + eapply runs_step; [apply step_accumulate|apply IH].
      now apply fitsb_spec.
    + eapply runs_step; [apply step_new_chunk|apply IH].
      rewrite <- fitsb_spec, E. discriminate.
Qed.

Lemma chunks_to_chunk cfg d : chunks_to cfg d (chunk cfg d).
Proof.
  unfold chunks_to, chunk. destruct (blank (text d)); [reflexivity|].
  eexists. split; [apply runs_accumulate|reflexivity].
Qed.

(** C8: two runs of the chunker on the same document under the same
    configuration produce the same ordered sequence of (index, text)
    pairs, the one the function [chunk] computes; and a run always
    completes. *)
Theorem C8_chunk_deterministic cfg d r1 r2 :
  chunks_to cfg d r1 -> chunks_to cfg d r2 ->
  r1 = r2 /\ r1 = chunk cfg d /\ chunks_to cfg d (chunk cfg d).
Proof.
  assert (Hdet : forall a b, chunks_to cfg d a -> chunks_to cfg d b -> a = b).
  { unfold chunks_to. intros a b. destruct (blank (text d)).
    - congruence.
    - intros (ca & Ha & ->) (cb & Hb & ->).
      now rewrite (runs_deterministic _ _ _ _ Ha Hb). }
  intros H1 H2. split; [exact (Hdet _ _ H1 H2)|]. split.
  - apply (Hdet _ _ H1). apply chunks_to_chunk.
  - apply chunks_to_chunk.
Qed.

Example chunk_sample :
  chunk sample_chunker sample_document
  = [ (0, "Bookmarks are saved.");
      (1, "ved. They are chunked!");
      (2, "ked! Are they searchable? Yes") ]%nat.
Proof. vm_compute. reflexivity. Qed.

(** Two runs on the sample document. *)
Lemma C8_chunk_deterministic_witness :
  let r := [ (0, "Bookmarks are saved.");
             (1, "ved. They are chunked!");
             (2, "ked! Are they searchable? Yes") ]%nat in
  chunks_to sample_chunker sample_document r
  /\ chunks_to sample_chunker sample_document r
  /\ r = r /\ r = chunk sample_chunker sample_document
  /\ chunks_to sample_chunker sample_document
               (chunk sample_chunker sample_document).
Proof.
  intros r.
  assert (H : chunks_to sample_chunker sample_document r)
    by exact (chunks_to_chunk sample_chunker sample_document).
  split; [exact H|]. split; [exact H|].
  exact (C8_chunk_deterministic sample_chunker sample_document r r H H).
Defined.

Example chunk_blank :
  chunk sample_chunker
        {| doc_title := None; doc_description := None;
           text := "   "; doc_platform := None |} = [].
Proof. reflexivity. Qed.

Lemma enumerate_indices {A} (l : list A) :
  map fst (enumerate l) = seq 0 (length l).
Proof.
  unfold enumerate. generalize 0%nat as k.
  induction l as [|x l IH]; intros k; simpl; [reflexivity|].
  now rewrite IH.
Qed.

Lemma enumerate_length {A} (l : list A) : length (enumerate l) = length l.
Proof.
  unfold enumerate. rewrite length_combine, length_seq. lia.
Qed.

(** The indices of the chunks of a document are 0, 1, ..., n-1. *)
Lemma chunk_indices_seq cfg d :
  map fst (chunk cfg d) = seq 0 (length (chunk cfg d)).
Proof.
  unfold chunk. destruct (blank (text d)); [reflexivity|].
  now rewrite enumerate_indices, enumerate_length.
Qed.

End ChunkerFacts.

(** ** The indexer *)

Section IndexerFacts.
Import Schema Chunker Indexer Samples.
Variables (provider : EmbeddingProvider) (uuid : nat -> string).

Lemma embed_Some chunks cvs :
  embed provider chunks = Some cvs -> map fst cvs = chunks.
Proof.
  unfold embed. destruct (provider (map snd chunks)) as [vs|]; [|discriminate].
  destruct (Nat.eqb_spec (length vs) (length chunks)) as [Hlen|]; [|discriminate].
  intros [= <-]. clear -Hlen. revert vs Hlen.
  induction chunks as [|c chunks IH]; intros [|v vs] Hlen; simpl in *;
    try reflexivity; try discriminate.
  f_equal. apply IH. lia.
Qed.

Lemma filter_all {A} (P : A -> Prop) `{forall x, Decision (P x)} (l : list A) :
  Forall P l -> filter P l = l.
Proof.
  induction 1 as [|x l Hx Hl IH]; [reflexivity|].
  rewrite filter_cons_True by exact Hx. now rewrite IH.
Qed.

Lemma filter_none {A} (P : A -> Prop) `{forall x, Decision (P x)} (l : list A) :
  Forall (fun x => ~ P x) l -> filter P l = [].
Proof.
  induction 1 as [|x l Hx Hl IH]; [reflexivity|].
  rewrite filter_cons_False by exact Hx. exact IH.
Qed.

(** After [persist], the stored chunks of the bookmark are the new rows
    and nothing else. *)
Lemma chunks_of_persist bid cvs db :
  chunks_of bid (persist uuid bid cvs db) = map (chunk_row uuid bid) cvs.
Proof.
  unfold chunks_of, persist. simpl. rewrite filter_app.
  rewrite (filter_none (fun e => bookmark_id e = Some bid)).
  - simpl. apply filter_all. apply Forall_forall. intros e He.
    apply list_elem_of_fmap in He as (c & -> & _). reflexivity.
  - apply Forall_forall. intros e He.
    apply list_elem_of_filter in He as [Hne _]. exact Hne.
Qed.

(** The chunks of the other bookmarks are not touched. *)
Lemma chunks_of_persist_other bid bid' cvs db :
  bid' <> bid ->
  chunks_of bid' (persist uuid bid cvs db) = chunks_of bid' db.
Proof.
  intros Hne. unfold chunks_of, persist. simpl. rewrite filter_app.
  rewrite (filter_none (fun e => bookmark_id e = Some bid')
                       (map (chunk_row uuid bid) cvs)).
  - rewrite app_nil_r. rewrite list_filter_filter.
    apply list_filter_iff. intros e. split; [tauto|].
    intros He. split; [exact He|congruence].
  - apply Forall_forall. intros e He.
    apply list_elem_of_fmap in He as (c & -> & _). simpl. congruence.
Qed.

Lemma seq_indices_NoDup n :
  NoDup (map (fun i => Some (Z.of_nat i)) (seq 0 n)).
Proof.
  apply NoDup_fmap_2; [|apply NoDup_seq].
  intros i j [= Hij]. lia.
Qed.

Lemma seq_indices_elem n (i : Z) :
  Some i ∈ map (fun k => Some (Z.of_nat k)) (seq 0 n)
  <-> (0 <= i < Z.of_nat n)%Z.
Proof.
  rewrite list_elem_of_fmap. split.
  - intros (k & [= ->] & Hk). apply list_elem_of_In, in_seq in Hk. lia.
  - intros Hi. exists (Z.to_nat i). split; [f_equal; lia|].
    apply list_elem_of_In, in_seq. lia.
Qed.

(** One successful run: the chunks of the bookmark are replaced by one row
    per chunk of the document, indexed from 0; the rest is as before. *)
Lemma index_bookmark_chunks cfg bid d db db' :
  index_bookmark cfg provider uuid bid d db = Some db' ->
  contiguous bid db'
  /\ length (chunks_of bid db') = length (chunk cfg d)
  /\ (forall bid', bid' <> bid -> chunks_of bid' db' = chunks_of bid' db).
Proof.
  unfold index_bookmark.
  destruct (embed provider (chunk cfg d)) as [cvs|] eqn:E; [|discriminate].
  intros [= <-]. apply embed_Some in E.
  assert (Hlen : length (chunks_of bid (persist uuid bid cvs db))
                 = length (chunk cfg d)).
  { rewrite chunks_of_persist, length_map, <- E, length_map. reflexivity. }
  split; [|split; [exact Hlen|]].
  - unfold contiguous, chunk_indices. rewrite Hlen.
    rewrite chunks_of_persist, <- chunk_indices_seq, <- E.
    rewrite !map_map. reflexivity.
  - intros bid' Hne. now apply chunks_of_persist_other.
Qed.

(** C5: after a successful indexing run of a bookmark, first or repeated,
    on any database, the chunk indices stored for it are 0, 1, ..., n-1
    with n the number of its chunks (one per chunk of the document): no
    gap, no duplicate; the chunks of the other bookmarks are as before. *)
Theorem C5_chunk_indices_contiguous
        (cfg : Config) (bid : string) (d : ContentDocument) (db db' : Database) :
  index_bookmark cfg provider uuid bid d db = Some db' ->
  let n := length (chunks_of bid db') in
  contiguous bid db'
  /\ n = length (chunk cfg d)
  /\ NoDup (chunk_indices bid db')
  /\ (forall i : Z, Some i ∈ chunk_indices bid db' <-> (0 <= i < Z.of_nat n)%Z)
  /\ (forall bid', bid' <> bid -> chunks_of bid' db' = chunks_of bid' db).
Proof.
  intros Hrun.
  destruct (index_bookmark_chunks cfg bid d db db' Hrun) as (Hc & Hlen & Hother).
  simpl. split; [exact Hc|]. split; [exact Hlen|].
  unfold contiguous in Hc. rewrite Hc.
  split; [apply seq_indices_NoDup|]. split; [apply seq_indices_elem|].
  exact Hother.
Qed.

(** The invariant is kept for every bookmark by every successful run. *)
Lemma contiguous_preserved cfg bid d db db' :
  index_bookmark cfg provider uuid bid d db = Some db' ->
  (forall b, contiguous b db) -> forall b, contiguous b db'.
Proof.
  intros Hrun Hinv b.
  destruct (index_bookmark_chunks cfg bid d db db' Hrun) as (Hc & _ & Hother).
  destruct (decide (b = bid)) as [->|Hne]; [exact Hc|].
  unfold contiguous, chunk_indices. rewrite (Hother b Hne). apply Hinv.
Qed.

End IndexerFacts.

Section IndexerExamples.
Import Schema Chunker Indexer Samples.

(** Re-indexing the first bookmark of the sample database. *)
Lemma C5_chunk_indices_contiguous_witness :
  index_bookmark sample_chunker sample_provider sample_uuid "b1"
                 sample_document sample_db = Some reindexed_db
  /\ let n := length (chunks_of "b1" reindexed_db) in
     contiguous "b1" reindexed_db
     /\ n = length (chunk sample_chunker sample_document)
     /\ NoDup (chunk_indices "b1" reindexed_db)
     /\ (forall i : Z, Some i ∈ chunk_indices "b1" reindexed_db
                       <-> (0 <= i < Z.of_nat n)%Z)
     /\ (forall bid', bid' <> "b1" ->
           chunks_of bid' reindexed_db = chunks_of bid' sample_db).
Proof.
  assert (H : index_bookmark sample_chunker sample_provider sample_uuid "b1"
                sample_document sample_db = Some reindexed_db)
    by (vm_compute; reflexivity).
  split; [exact H|].
  exact (C5_chunk_indices_contiguous sample_provider sample_uuid
           sample_chunker "b1" sample_document sample_db reindexed_db H).
Defined.

(** Re-indexing replaces the two old chunks of ["b1"] by the three new
    ones; the chunk of ["b2"] stays. *)
Example reindexed_sample :
  chunk_indices "b1" sample_db = [Some 0; Some 1]%Z
  /\ chunk_indices "b1" reindexed_db = [Some 0; Some 1; Some 2]%Z
  /\ chunk_indices "b2" reindexed_db = [Some 0]%Z.
Proof. repeat split; vm_compute; reflexivity. Qed.

(** The schema alone does not keep the indices apart: [chunk_index] has a
    default of 0 and no uniqueness constraint, so it is the indexer's
    delete-then-insert that maintains the range. *)
Example indices_without_delete :
  ~ contiguous "b1"
      {| users := []; bookmarks := [row_b1];
         embeddings := [stored_chunk "e1" "b1" 0 "a"; stored_chunk "e9" "b1" 0 "b"];
         search_logs := [] |}.
Proof. unfold contiguous. vm_compute. discriminate. Qed.

End IndexerExamples.

(** ** Cosine similarity and the vector lookup *)

Section CosineFacts.
Import Schema Cosine Samples.
Local Open Scope R_scope.

Lemma dot_self_nonneg u : 0 <= dot u u.
Proof.
  induction u as [|x u IH]; simpl; [Lra.lra|].
  assert (H := Rle_0_sqr x). unfold Rsqr in H. Lra.lra.
Qed.

Lemma two_le_sum a b t : 0 <= a -> 0 <= b -> t * t <= a * b -> 2 * t <= a + b.
Proof.
  intros Ha Hb Ht.
  destruct (Rle_dec (2 * t) (a + b)) as [H|H]; [exact H|]. exfalso.
  apply Rnot_le_lt in H.
  assert (H2 : (a + b) * (a + b) < (2 * t) * (2 * t))
    by (apply Rmult_le_0_lt_compat; Lra.lra).
  assert (H3 := Rle_0_sqr (a - b)). unfold Rsqr in H3.
  Lra.lra.
Qed.

Lemma cauchy_schwarz_step x y p A B :
  0 <= A -> 0 <= B -> p * p <= A * B ->
  (x * y + p) * (x * y + p) <= (x * x + A) * (y * y + B).
Proof.
  intros HA HB Hp.
  assert (H : 2 * (p * (x * y)) <= A * (y * y) + B * (x * x)).
  { apply two_le_sum.
    - apply Rmult_le_pos; [exact HA|apply Rle_0_sqr].
    - apply Rmult_le_pos; [exact HB|apply Rle_0_sqr].
    - replace (p * (x * y) * (p * (x * y)))
        with ((p * p) * ((x * x) * (y * y))) by ring.
      replace (A * (y * y) * (B * (x * x)))
        with ((A * B) * ((x * x) * (y * y))) by ring.
      apply Rmult_le_compat_r; [|exact Hp].
      apply Rmult_le_pos; apply Rle_0_sqr. }
  Lra.nra.
Qed.

(** The Cauchy-Schwarz inequality for [dot]. *)
Lemma cauchy_schwarz u v : dot u v * dot u v <= dot u u * dot v v.
Proof.
  revert v. induction u as [|x u IH]; intros [|y v]; simpl;
    try (rewrite ?Rmult_0_l, ?Rmult_0_r; Lra.lra).
  apply cauchy_schwarz_step; [apply dot_self_nonneg..|apply IH].
Qed.

Lemma norm_pos u : 0 < dot u u -> 0 < norm u.
Proof. intros H. unfold norm. now apply sqrt_lt_R0. Qed.

(** For non-zero vectors the cosine lies between -1 and 1, and it has the
    sign of the dot product. *)
Lemma cosine_similarity_range u v :
  0 < dot u u -> 0 < dot v v ->
  -1 <= cosine_similarity u v <= 1
  /\ (0 <= cosine_similarity u v <-> 0 <= dot u v).
Proof.
  intros Hu Hv. unfold cosine_similarity.
  assert (Hn : 0 < norm u * norm v)
    by (apply Rmult_lt_0_compat; now apply norm_pos).
  assert (Hsq : (norm u * norm v) * (norm u * norm v) = dot u u * dot v v).
  { unfold norm.
    replace (sqrt (dot u u) * sqrt (dot v v) * (sqrt (dot u u) * sqrt (dot v v)))
      with ((sqrt (dot u u) * sqrt (dot u u)) * (sqrt (dot v v) * sqrt (dot v v)))
      by ring.
    rewrite !sqrt_sqrt by Lra.lra. reflexivity. }
  assert (Hcs := cauchy_schwarz u v). rewrite <- Hsq in Hcs.
  set (n := norm u * norm v) in *. set (p := dot u v) in *.
  assert (Hp : - n <= p <= n).
  { split.
    - destruct (Rle_dec (- n) p) as [H|H]; [exact H|]. exfalso.
      apply Rnot_le_lt in H.
      assert (n * n < (- p) * (- p))
        by (apply Rmult_le_0_lt_compat; Lra.lra).
      Lra.lra.
    - destruct (Rle_dec p n) as [H|H]; [exact H|]. exfalso.
      apply Rnot_le_lt in H.
      assert (n * n < p * p) by (apply Rmult_le_0_lt_compat; Lra.lra).
      Lra.lra. }
  assert (Hinv : 0 < / n) by now apply Rinv_0_lt_compat.
  assert (H1 : n * / n = 1) by (apply Rinv_r; Lra.lra).
  unfold Rdiv. repeat split.
  - replace (-1) with ((- n) * / n) by (rewrite <- Ropp_mult_distr_l, H1; ring).
    apply Rmult_le_compat_r; Lra.lra.
  - rewrite <- H1. apply Rmult_le_compat_r; Lra.lra.
  - intros H. destruct (Rle_dec 0 p) as [Hp0|Hp0]; [exact Hp0|]. exfalso.
    apply Rnot_le_lt in Hp0.
    assert (p * / n < 0 * / n) by (apply Rmult_lt_compat_r; Lra.lra).
    Lra.lra.
  - intros H. apply Rmult_le_pos; Lra.lra.
Qed.

Lemma insert_desc_elem {A} (x y : A * R) l :
  y ∈ insert_desc x l <-> y = x \/ y ∈ l.
Proof.
  induction l as [|z l IH]; simpl.
  - rewrite list_elem_of_singleton, elem_of_nil. tauto.
  - destruct (Rle_dec (snd z) (snd x)).
    + rewrite !elem_of_cons. tauto.
    + rewrite !elem_of_cons, IH. tauto.
Qed.

Lemma sort_desc_elem {A} (y : A * R) l : y ∈ sort_desc l <-> y ∈ l.
Proof.
  induction l as [|x l IH]; simpl; [reflexivity|].
  rewrite insert_desc_elem, IH, elem_of_cons. reflexivity.
Qed.

Lemma insert_desc_length {A} (x : A * R) l :
  length (insert_desc x l) = S (length l).
Proof.
  induction l as [|y l IH]; simpl; [reflexivity|].
  destruct (Rle_dec (snd y) (snd x)); simpl; [reflexivity|]. now rewrite IH.
Qed.

Lemma sort_desc_length {A} (l : list (A * R)) :
  length (sort_desc l) = length l.
Proof.
  induction l as [|x l IH]; simpl; [reflexivity|].
  now rewrite insert_desc_length, IH.
Qed.

Lemma unit_score_spec s : unit_score s = true <-> 0 <= s <= 1.
Proof.
  unfold unit_score.
  destruct (Rle_dec 0 s), (Rle_dec s 1); split; intros H;
    try discriminate; try reflexivity; try Lra.lra.
Qed.

(** The scored chunks: the chunks of the user with a stored vector, each
    with the cosine of that vector and the query vector. *)
Lemma scored_chunks_elem uid q db e s :
  (e, s) ∈ scored_chunks uid q db
  <-> e ∈ embeddings db /\ owned_by uid db e = true
      /\ exists v, embedding e = Some v
                   /\ s = cosine_similarity (to_R q) (to_R v).
Proof.
  unfold scored_chunks. rewrite list_elem_of_omap. split.
  - intros (e' & He' & Hv).
    destruct (embedding e') as [v|] eqn:E; simpl in Hv; [|discriminate].
    injection Hv as <- <-.
    apply list_elem_of_In, filter_In in He' as [He' Hown].
    split; [now apply list_elem_of_In|]. split; [exact Hown|]. eauto.
  - intros (He & Hown & v & Hv & ->). exists e. split.
    + apply list_elem_of_In, filter_In. split; [now apply list_elem_of_In|exact Hown].
    + rewrite Hv. reflexivity.
Qed.

Lemma scored_chunks_length uid q db :
  (length (scored_chunks uid q db) <= length (embeddings db))%nat.
Proof.
  unfold scored_chunks.
  transitivity (length (List.filter (owned_by uid db) (embeddings db)));
    [|apply List.filter_length_le].
  generalize (List.filter (owned_by uid db) (embeddings db)) as l.
  induction l as [|e l IH]; [apply le_n|].
  change (omap ?f (e :: l)) with
    (match f e with Some y => y :: omap f l | None => omap f l end).
  cbv beta. destruct (embedding e); simpl in *; lia.
Qed.

(** What the lookup returns: scored chunks whose score is in [0,1]. *)
Lemma vector_lookup_elem K uid q db e s :
  (e, s) ∈ vector_lookup K uid q db ->
  0 <= s <= 1 /\ (e, s) ∈ scored_chunks uid q db.
Proof.
  unfold vector_lookup. intros H.
  apply elem_of_take in H as (i & H & _). apply list_elem_of_lookup_2 in H.
  rewrite sort_desc_elem in H.
  apply list_elem_of_In, filter_In in H as [H Hs]. simpl in Hs.
  split; [now apply unit_score_spec|now apply list_elem_of_In].
Qed.

(** What the lookup leaves out, when [K] does not cut: nothing but the
    chunks whose vector has a negative dot product with the query. *)
Lemma vector_lookup_complete K uid q db e v :
  (length (embeddings db) <= K)%nat ->
  e ∈ embeddings db -> owned_by uid db e = true -> embedding e = Some v ->
  0 < dot (to_R q) (to_R q) -> 0 < dot (to_R v) (to_R v) ->
  0 <= dot (to_R q) (to_R v) ->
  (e, cosine_similarity (to_R q) (to_R v)) ∈ vector_lookup K uid q db.
Proof.
  intros HK He Hown Hv Hq Hvv Hdot. unfold vector_lookup.
  rewrite firstn_all2.
  - rewrite sort_desc_elem. apply list_elem_of_In, filter_In. split.
    + apply list_elem_of_In, scored_chunks_elem. eauto.
    + simpl. apply unit_score_spec.
      destruct (cosine_similarity_range _ _ Hq Hvv) as [Hr Hs].
      split; [now apply Hs|apply Hr].
  - rewrite sort_desc_length.
    etransitivity; [apply List.filter_length_le|].
    etransitivity; [apply scored_chunks_length|exact HK].
Qed.

Lemma fold_Rmax_range a b l x :
  a <= x <= b -> Forall (fun y => a <= y <= b) l ->
  a <= fold_left Rmax l x <= b.
Proof.
  intros Hx Hl. revert x Hx.
  induction Hl as [|y l Hy Hl IH]; intros x Hx; simpl; [exact Hx|].
  apply IH. unfold Rmax. destruct (Rle_dec x y); assumption.
Qed.

(** A bound on every match is a bound on the per-bookmark maximum. *)
Lemma bookmark_score_range {a b} bid (ms : list (embeddings_row * R)) m :
  (forall e s, (e, s) ∈ ms -> a <= s <= b) ->
  bookmark_score bid ms = Some m -> a <= m <= b.
Proof.
  intros Hall. unfold bookmark_score.
  destruct (List.filter _ ms) as [|[e0 s0] l] eqn:E; [discriminate|].
  intros [= <-].
  assert (Hsub : forall x, In x ((e0, s0) :: l) -> In x ms).
  { intros x Hx. rewrite <- E in Hx. now apply filter_In in Hx. }
  apply fold_Rmax_range.
  - apply (Hall e0). apply list_elem_of_In, Hsub. now left.
  - apply Forall_forall. intros y Hy.
    apply list_elem_of_fmap in Hy as ([e s] & -> & Hy).
    apply (Hall e). apply list_elem_of_In, Hsub. right.
    now apply list_elem_of_In.
Qed.

Lemma dot_zeros n :
  dot (to_R (repeat (0 : Q) n)) (to_R (repeat (0 : Q) n)) = 0.
Proof.
  induction n as [|n IH]; [reflexivity|].
  change (Q2R 0 * Q2R 0
          + dot (to_R (repeat (0 : Q) n)) (to_R (repeat (0 : Q) n)) = 0).
  rewrite IH, RMicromega.Q2R_0. ring.
Qed.

Lemma dot_axis x y : dot (to_R (axis x)) (to_R (axis y)) = Q2R x * Q2R y.
Proof.
  unfold axis. change (dot (to_R (x :: ?a)) (to_R (y :: ?b)))
    with (Q2R x * Q2R y + dot (to_R a) (to_R b)).
  rewrite dot_zeros. ring.
Qed.

Lemma Q2R_minus_one : Q2R (-1) = -1.
Proof. unfold Q2R. simpl. Lra.lra. Qed.

Lemma cosine_opposite :
  cosine_similarity (to_R (axis 1)) (to_R (axis (-1))) = -1.
Proof.
  unfold cosine_similarity, norm. rewrite !dot_axis.
  rewrite RMicromega.Q2R_1, Q2R_minus_one.
  replace (1 * 1) with 1 by ring. replace (-1 * -1) with 1 by ring.
  rewrite sqrt_1. field.
Qed.

Lemma cosine_aligned :
  cosine_similarity (to_R (axis 1)) (to_R (axis 1)) = 1.
Proof.
  unfold cosine_similarity, norm. rewrite !dot_axis.
  rewrite RMicromega.Q2R_1.
  replace (1 * 1) with 1 by ring.
  rewrite sqrt_1. field.
Qed.

Lemma scored_chunks_mixed :
  scored_chunks "u1" (axis 1) mixed_db = [(opposite_row, -1); (aligned_row, 1)].
Proof.
  unfold scored_chunks.
  assert (E : List.filter (owned_by "u1" mixed_db) (embeddings mixed_db)
              = [opposite_row; aligned_row]) by (vm_compute; reflexivity).
  rewrite E.
  change (omap ?f [opposite_row; aligned_row]) with
    [(opposite_row, cosine_similarity (to_R (axis 1)) (to_R (axis (-1))));
     (aligned_row, cosine_similarity (to_R (axis 1)) (to_R (axis 1)))].
  rewrite cosine_opposite, cosine_aligned. reflexivity.
Qed.

(** Of a chunk along the query vector and one opposite to it, the lookup
    returns the first, with score 1: the cosine of the second is -1, no
    score in [0,1]. *)
Lemma vector_lookup_mixed :
  vector_lookup 5 "u1" (axis 1) mixed_db = [(aligned_row, 1)].
Proof.
  unfold vector_lookup. rewrite scored_chunks_mixed.
  assert (H1 : unit_score 1 = true) by (apply unit_score_spec; Lra.lra).
  assert (H2 : unit_score (-1) = false).
  { destruct (unit_score (-1)) eqn:E; [|reflexivity].
    apply unit_score_spec in E. Lra.lra. }
  simpl. rewrite H1, H2. reflexivity.
Qed.



End CosineFacts.

(* ===================================================================== *)
(** * Further properties of the code *)
(* ===================================================================== *)

(** ** [store/bookmarkStore.ts] *)

Section StoreFacts.
Import JS Types Client Samples.
Variable bookmarksAPI : BookmarksAPI.
Variable backend : Backend.

#[local] Abbreviation started w := (with_store loading_started w).

Lemma fetchBookmarks_eq params w :
  fetchBookmarks bookmarksAPI params w
  = match getAll bookmarksAPI params (started w) with
    | (Resolved fetched, w1) =>
        (Resolved tt,
         with_store (fun s => {| bookmarks := fetched;
                                 searchResults := searchResults s;
                                 isLoading := false; error := error s |}) w1)
    | (Rejected e, w1) =>
        (Resolved tt,
         with_store (failed_with (or_default (response_detail e)
                                             "Failed to fetch bookmarks")) w1)
    end.
Proof.
  unfold fetchBookmarks, set, modify, bind, try_catch. simpl.
  destruct (getAll bookmarksAPI params (started w)) as [[fetched|e] w1];
    reflexivity.
Qed.

Lemma createBookmark_eq data w :
  createBookmark bookmarksAPI data w
  = match create bookmarksAPI data (started w) with
    | (Resolved b, w1) =>
        (Resolved b,
         with_store (fun s => {| bookmarks := b :: bookmarks s;
                                 searchResults := searchResults s;
                                 isLoading := false; error := error s |}) w1)
    | (Rejected e, w1) =>
        (Rejected e,
         with_store (failed_with (or_default (response_detail e)
                                             "Failed to create bookmark")) w1)
    end.
Proof.
  unfold createBookmark, set, modify, bind, try_catch, throw, ret. simpl.
  destruct (create bookmarksAPI data (started w)) as [[b|e] w1]; reflexivity.
Qed.

Lemma updateBookmark_eq bid data w :
  updateBookmark bookmarksAPI bid data w
  = match update bookmarksAPI bid data (started w) with
    | (Resolved u, w1) =>
        (Resolved u,
         with_store (fun s =>
           {| bookmarks := map (fun b => if String.eqb (id b) bid then u else b)
                               (bookmarks s);
              searchResults := searchResults s;
              isLoading := false; error := error s |}) w1)
    | (Rejected e, w1) =>
        (Rejected e,
         with_store (failed_with (or_default (response_detail e)
                                             "Failed to update bookmark")) w1)
    end.
Proof.
  unfold updateBookmark, set, modify, bind, try_catch, throw, ret. simpl.
  destruct (update bookmarksAPI bid data (started w)) as [[u|e] w1];
    reflexivity.
Qed.

Lemma deleteBookmark_eq bid w :
  deleteBookmark backend bid w
  = match on_delete backend bid with
    | Ok _ =>
        (Resolved tt,
         with_store (fun s => {| bookmarks := filter (fun b => id b <> bid)
                                                     (bookmarks s);
                                 searchResults := searchResults s;
                                 isLoading := false; error := error s |})
                    (sent (DELETE_bookmarks bid) (started w)))
    | Fail e =>
        (Rejected e,
         with_store (failed_with (or_default (response_detail e)
                                             "Failed to delete bookmark"))
                    (response_interceptor e
                       (sent (DELETE_bookmarks bid) (started w))))
    end.
Proof.
  unfold deleteBookmark, bookmarksAPI_delete, api_request, set, modify, bind,
    try_catch, throw. simpl.
  destruct (on_delete backend bid) as [[]|e]; reflexivity.
Qed.

Lemma search_eq q w :
  search backend q w
  = match on_search backend q with
    | Ok r =>
        (Resolved r,
         with_store (fun s => {| bookmarks := bookmarks s;
                                 searchResults := Some r;
                                 isLoading := false; error := error s |})
                    (sent (POST_search q) (started w)))
    | Fail e =>
        (Rejected e,
         with_store (failed_with (or_default (response_detail e)
                                             "Search failed"))
                    (response_interceptor e (sent (POST_search q) (started w))))
    end.
Proof.
  unfold search, searchAPI_search, api_request, set, modify, bind,
    try_catch, throw, ret. simpl.
  destruct (on_search backend q) as [r|e]; reflexivity.
Qed.

(** [fetchBookmarks] never rejects: a failed request is turned into the
    [error] field, and the list is the one the store had when the request
    failed; a successful one replaces the list. *)
Theorem fetchBookmarks_swallows_failure params w :
  let r := fetchBookmarks bookmarksAPI params w in
  fst r = Resolved tt
  /\ match getAll bookmarksAPI params (started w) with
     | (Resolved fetched, w1) =>
         bookmarks (store (snd r)) = fetched
         /\ error (store (snd r)) = error (store w1)
     | (Rejected e, w1) =>
         bookmarks (store (snd r)) = bookmarks (store w1)
         /\ error (store (snd r))
            = Some (or_default (response_detail e) "Failed to fetch bookmarks")
     end
  /\ searchResults (store (snd r))
     = searchResults (store (snd (getAll bookmarksAPI params (started w)))).
Proof.
  simpl. rewrite fetchBookmarks_eq.
  destruct (getAll bookmarksAPI params (started w)) as [[fetched|e] w1];
    simpl; auto.
Qed.

(** Whatever the server answers, each of the five asynchronous operations
    of the store ends with [isLoading] false. *)
Theorem store_operations_end_loading w :
  (forall params, isLoading (store (snd (fetchBookmarks bookmarksAPI params w))) = false)
  /\ (forall data, isLoading (store (snd (createBookmark bookmarksAPI data w))) = false)
  /\ (forall bid data,
        isLoading (store (snd (updateBookmark bookmarksAPI bid data w))) = false)
  /\ (forall bid, isLoading (store (snd (deleteBookmark backend bid w))) = false)
  /\ (forall q, isLoading (store (snd (search backend q w))) = false).
Proof.
  repeat split; intros.
  - rewrite fetchBookmarks_eq.
    destruct (getAll bookmarksAPI params (started w)) as [[?|?] ?]; reflexivity.
  - rewrite createBookmark_eq.
    destruct (create bookmarksAPI data (started w)) as [[?|?] ?]; reflexivity.
  - rewrite updateBookmark_eq.
    destruct (update bookmarksAPI bid data (started w)) as [[?|?] ?]; reflexivity.
  - rewrite deleteBookmark_eq.
    destruct (on_delete backend bid) as [?|?]; reflexivity.
  - rewrite search_eq. destruct (on_search backend q) as [?|?]; reflexivity.
Qed.

(** When the creation request resolves with a bookmark, [createBookmark]
    resolves with it and puts it in front of the list, which is otherwise
    as before; when the request is rejected, the list is as before, the
    message is recorded and the error is rethrown. (Hypothesis: nothing
    else writes to the store while the request is in flight.) *)
Theorem createBookmark_prepends data w :
  store (snd (create bookmarksAPI data (started w))) = store (started w) ->
  let r := createBookmark bookmarksAPI data w in
  match fst (create bookmarksAPI data (started w)) with
  | Resolved b =>
      fst r = Resolved b
      /\ bookmarks (store (snd r)) = b :: bookmarks (store w)
      /\ error (store (snd r)) = None
  | Rejected e =>
      fst r = Rejected e
      /\ bookmarks (store (snd r)) = bookmarks (store w)
      /\ error (store (snd r))
         = Some (or_default (response_detail e) "Failed to create bookmark")
  end
  /\ searchResults (store (snd r)) = searchResults (store w).
Proof.
  simpl. rewrite createBookmark_eq.
  destruct (create bookmarksAPI data (started w)) as [[b|e] w1]; simpl;
    intros ->; simpl; auto.
Qed.

Lemma map_replace_lookup (bid : string) (u : Bookmark) (l : list Bookmark) i :
  map (fun b => if String.eqb (id b) bid then u else b) l !! i
  = (fun b => if String.eqb (id b) bid then u else b) <$> (l !! i).
Proof. apply list_lookup_fmap. Qed.

Lemma map_replace_absent (bid : string) (u : Bookmark) (l : list Bookmark) :
  (forall b, b ∈ l -> id b <> bid) ->
  map (fun b => if String.eqb (id b) bid then u else b) l = l.
Proof.
  induction l as [|x l IH]; intros H; simpl; [reflexivity|].
  destruct (String.eqb_spec (id x) bid) as [E|_].
  - exfalso. apply (H x); [left|exact E].
  - f_equal. apply IH. intros b Hb. apply H. now right.
Qed.

(** When the update request resolves, [updateBookmark] puts the returned
    bookmark at every position whose entry has the given id and leaves the
    other positions alone, so the list keeps its length and order; if no
    entry has that id the list does not change at all. When the request is
    rejected the list is as before and the error is rethrown. *)
Theorem updateBookmark_replaces_in_place bid data w :
  store (snd (update bookmarksAPI bid data (started w))) = store (started w) ->
  let r := updateBookmark bookmarksAPI bid data w in
  let old := bookmarks (store w) in
  let new := bookmarks (store (snd r)) in
  match fst (update bookmarksAPI bid data (started w)) with
  | Resolved u =>
      fst r = Resolved u
      /\ length new = length old
      /\ (forall i b, old !! i = Some b ->
            new !! i = Some (if String.eqb (id b) bid then u else b))
      /\ ((forall b, b ∈ old -> id b <> bid) -> new = old)
  | Rejected e =>
      fst r = Rejected e
      /\ new = old
      /\ error (store (snd r))
         = Some (or_default (response_detail e) "Failed to update bookmark")
  end.
Proof.
  simpl. rewrite updateBookmark_eq.
  destruct (update bookmarksAPI bid data (started w)) as [[u|e] w1]; simpl;
    intros ->; simpl; [|auto].
  split; [reflexivity|]. split; [apply length_map|]. split.
  - intros i b Hb. rewrite map_replace_lookup, Hb. reflexivity.
  - apply map_replace_absent.
Qed.

(** Deleting a bookmark that was just created gives back the list the
    store had before the creation, provided no older entry shares the id
    of the new one (older entries with that id are deleted with it). *)
Theorem create_then_delete_restores data w :
  store (snd (create bookmarksAPI data (started w))) = store (started w) ->
  forall b, fst (create bookmarksAPI data (started w)) = Resolved b ->
  on_delete backend (id b) = Ok tt ->
  let w1 := snd (createBookmark bookmarksAPI data w) in
  let w2 := snd (deleteBookmark backend (id b) w1) in
  bookmarks (store w2) = filter (fun x => id x <> id b) (bookmarks (store w))
  /\ ((forall x, x ∈ bookmarks (store w) -> id x <> id b) ->
      bookmarks (store w2) = bookmarks (store w)).
Proof.
  intros Hquiet b Hb Hdel. simpl.
  rewrite deleteBookmark_eq, Hdel, createBookmark_eq.
  destruct (create bookmarksAPI data (started w)) as [[b'|e] w1];
    simpl in *; [|discriminate].
  injection Hb as ->. rewrite Hquiet. simpl.
  assert (E : filter (fun x => id x <> id b) (b :: bookmarks (store w))
              = filter (fun x => id x <> id b) (bookmarks (store w))).
  { apply filter_cons_False. intros H. now apply H. }
  rewrite E. split; [reflexivity|].
  intros Hfresh. clear E. induction (bookmarks (store w)) as [|x l IH];
    [reflexivity|].
  rewrite filter_cons_True by (apply Hfresh; left).
  f_equal. apply IH. intros y Hy. apply Hfresh. now right.
Qed.

(** Deleting twice is deleting once: after a successful [deleteBookmark],
    a second one for the same id leaves the list as the first left it. *)
Theorem deleteBookmark_twice bid w :
  on_delete backend bid = Ok tt ->
  let w1 := snd (deleteBookmark backend bid w) in
  bookmarks (store (snd (deleteBookmark backend bid w1))) = bookmarks (store w1)
  /\ forall b, b ∈ bookmarks (store w1) -> id b <> bid.
Proof.
  intros Hdel. simpl. rewrite !deleteBookmark_eq, Hdel. simpl. split.
  - rewrite list_filter_filter. apply list_filter_iff. tauto.
  - intros b Hb. apply list_elem_of_filter in Hb. tauto.
Qed.

(** [deleteBookmark] does not touch the search results: while a search is
    shown, the home page goes on displaying a bookmark the user has just
    deleted. *)
Theorem deleted_bookmark_stays_in_results bid w r b :
  on_delete backend bid = Ok tt ->
  searchResults (store w) = Some r ->
  b ∈ sr_bookmarks r -> id b = bid ->
  let w' := snd (deleteBookmark backend bid w) in
  b ∈ displayBookmarks (store w')
  /\ (b ∉ bookmarks (store w'))
  /\ Home_page (store w')
     = [ResultsInfo (total r) (sr_query r); BookmarkList (sr_bookmarks r) false].
Proof.
  intros Hdel Hres Hb Hid. simpl. rewrite deleteBookmark_eq, Hdel.
  unfold displayBookmarks, Home_page, displayBookmarks. simpl. rewrite Hres.
  simpl. split; [exact Hb|]. split; [|reflexivity].
  intros Hin. apply list_elem_of_filter in Hin as [Hne _]. contradiction.
Qed.

(** After a rejected search the store keeps the results of the previous
    one, and the search page, which never renders [error], shows exactly
    what it showed before the search was started. *)
Theorem failed_search_keeps_page q w e hasSearched :
  on_search backend q = Fail e ->
  isLoading (store w) = false ->
  let w' := snd (search backend q w) in
  fst (search backend q w) = Rejected e
  /\ searchResults (store w') = searchResults (store w)
  /\ error (store w') = Some (or_default (response_detail e) "Search failed")
  /\ Search_page (store w') hasSearched = Search_page (store w) hasSearched.
Proof.
  intros Hfail Hload. simpl. rewrite search_eq, Hfail. simpl.
  rewrite response_interceptor_store. simpl.
  repeat split. unfold Search_page. simpl. rewrite Hload. reflexivity.
Qed.

End StoreFacts.

(** ** [components/SearchBar.tsx] *)

Section SearchBarFacts.
Import JS Types Client Samples.
Variable backend : Backend.

(** With at most two code units in the search box, [fetchSuggestions]
    sends nothing, whatever the server would answer: it empties and hides
    the suggestions and leaves the rest of the world alone. *)
Theorem fetchSuggestions_short_query w :
  (length (sb_query (searchBar w)) <= 2)%nat ->
  fetchSuggestions backend w
  = (Resolved tt,
     with_searchBar (fun u => {| sb_query := sb_query u; suggestions := [];
                                 showSuggestions := false |}) w)
  /\ requests (snd (fetchSuggestions backend w)) = requests w
  /\ dropdown_visible (searchBar (snd (fetchSuggestions backend w))) = false.
Proof.
  intros Hlen.
  assert (E : fetchSuggestions backend w
              = (Resolved tt,
                 with_searchBar (fun u => {| sb_query := sb_query u;
                                             suggestions := [];
                                             showSuggestions := false |}) w)).
  { unfold fetchSuggestions, bind, get, setSuggestions, setShowSuggestions,
      modify. simpl.
    assert (Hb : (2 <? length (sb_query (searchBar w)))%nat = false)
      by (apply Nat.ltb_ge; exact Hlen).
    rewrite Hb. reflexivity. }
  rewrite E. auto.
Qed.

(** When the server answers, the suggestions are its answer and the
    dropdown is rendered exactly when that answer is not empty. *)
Theorem fetchSuggestions_shows_answer w l :
  (2 < length (sb_query (searchBar w)))%nat ->
  on_suggestions backend (sb_query (searchBar w)) = Ok l ->
  let w' := snd (fetchSuggestions backend w) in
  suggestions (searchBar w') = l
  /\ (dropdown_visible (searchBar w') = true <-> l <> [])
  /\ store w' = store w
  /\ requests w' = GET_search_suggestions (sb_query (searchBar w)) :: requests w.
Proof.
  intros Hlen Hok.
  unfold fetchSuggestions, bind, get, try_catch, searchAPI_getSuggestions,
    api_request, setSuggestions, setShowSuggestions, modify.
  simpl. apply Nat.ltb_lt in Hlen. rewrite Hlen, Hok. simpl.
  unfold dropdown_visible. simpl.
  repeat split; try reflexivity.
  - destruct l; [discriminate|discriminate].
  - destruct l; [contradiction|reflexivity].
Qed.

Lemma handleSearch_eq arg w :
  handleSearch backend arg w
  = let text := or_else arg (sb_query (searchBar w)) in
    if negb (truthy (trim text)) then (Resolved tt, w)
    else match search backend (smart_query text) w with
         | (Resolved _, w1) =>
             (Resolved tt,
              blurred (with_searchBar
                         (fun u => {| sb_query := sb_query u;
                                      suggestions := suggestions u;
                                      showSuggestions := false |}) w1))
         | (Rejected _, w1) => (Resolved tt, logged "Search failed:" w1)
         end.
Proof.
  unfold handleSearch, bind, get, try_catch, setShowSuggestions, modify,
    smart_query. simpl.
  destruct (negb (truthy (trim (or_else arg (sb_query (searchBar w))))));
    [reflexivity|].
  destruct (search backend _ w) as [[r|e] w1]; reflexivity.
Qed.

Lemma truthy_trim text : trim text <> [] -> negb (truthy (trim text)) = false.
Proof. destruct (trim text); [contradiction|reflexivity]. Qed.

(** For a query that is not blank, [handleSearch] sends exactly one
    search request, in smart mode and with the text as it stands, not
    trimmed; it never rejects. On success the results are stored, the
    suggestions hidden and the input blurred; on failure the stored
    results, the suggestions and the focus stay, the store records the
    message and one line goes to the console. *)
Theorem handleSearch_sends_text_untrimmed arg w :
  let text := or_else arg (sb_query (searchBar w)) in
  trim text <> [] ->
  let r := handleSearch backend arg w in
  let w' := snd r in
  fst r = Resolved tt
  /\ requests w' = POST_search (smart_query text) :: requests w
  /\ match on_search backend (smart_query text) with
     | Ok res =>
         searchResults (store w') = Some res
         /\ showSuggestions (searchBar w') = false
         /\ input_focused w' = false
         /\ console w' = console w
     | Fail e =>
         searchResults (store w') = searchResults (store w)
         /\ error (store w')
            = Some (or_default (response_detail e) "Search failed")
         /\ showSuggestions (searchBar w') = showSuggestions (searchBar w)
         /\ input_focused w' = input_focused w
         /\ console w' = "Search failed:" :: console w
     end.
Proof.
  intros text Hne. simpl. rewrite handleSearch_eq. simpl. fold text.
  rewrite (truthy_trim _ Hne). rewrite search_eq.
  destruct (on_search backend (smart_query text)) as [res|e]; simpl.
  - repeat split; reflexivity.
  - rewrite response_interceptor_store, response_interceptor_requests,
      response_interceptor_console, response_interceptor_searchBar.
    simpl. repeat split; try reflexivity.
    destruct (response_interceptor_cases e
                (sent (POST_search (smart_query text))
                      (with_store loading_started w))) as [->|[_ ->]];
      reflexivity.
Qed.

Lemma trim_nonempty s : trim s <> [] -> s <> [].
Proof. intros H ->. now apply H. Qed.

(** Clicking a suggestion that is not blank searches for the suggestion,
    whatever text was in the box, and puts the suggestion in the box. *)
Theorem handleSuggestionClick_searches_suggestion suggestion w :
  trim suggestion <> [] ->
  let r := handleSuggestionClick backend suggestion w in
  fst r = Resolved tt
  /\ requests (snd r) = POST_search (smart_query suggestion) :: requests w
  /\ sb_query (searchBar (snd r)) = suggestion.
Proof.
  intros Hne. simpl.
  assert (Hs := trim_nonempty _ Hne).
  assert (E : or_else (Some suggestion) (sb_query (searchBar w)) = suggestion).
  { simpl. destruct suggestion; [contradiction|reflexivity]. }
  unfold handleSuggestionClick, bind, setQuery, modify.
  rewrite handleSearch_eq. cbv zeta. rewrite E, (truthy_trim _ Hne), search_eq.
  destruct (on_search backend (smart_query suggestion)) as [res|e]; simpl.
  - auto.
  - rewrite response_interceptor_requests. auto.
Qed.

(** Clearing the search empties the box, drops the stored results and
    gives the input the focus, without any request. The known suggestions
    are kept, and the dropdown ends hidden unless the input had not the
    focus and suggestions are known: the focus event of [focus()] then runs
    [onFocus], which shows them again. Pressing Enter right after does
    nothing at all, and the suggestion effect, when the emptied box makes
    it run, sends no request, drops the suggestions and hides the
    dropdown. *)
Theorem handleClearSearch_then_enter w :
  let w1 := snd (handleClearSearch w) in
  fst (handleClearSearch w) = Resolved tt
  /\ sb_query (searchBar w1) = []
  /\ suggestions (searchBar w1) = suggestions (searchBar w)
  /\ searchResults (store w1) = None
  /\ bookmarks (store w1) = bookmarks (store w)
  /\ error (store w1) = error (store w)
  /\ dropdown_visible (searchBar w1)
     = negb (input_focused w) && (0 <? length (suggestions (searchBar w)))%nat
  /\ input_focused w1 = true
  /\ requests w1 = requests w
  /\ handleKeyDown backend Enter w1 = (Resolved tt, w1)
  /\ (let w2 := snd (fetchSuggestions backend w1) in
      dropdown_visible (searchBar w2) = false
      /\ suggestions (searchBar w2) = []
      /\ requests w2 = requests w).
Proof.
  unfold handleClearSearch, focus, onFocus, fetchSuggestions, bind, get,
    setQuery, clearSearch, setSuggestions, setShowSuggestions, set, modify,
    dropdown_visible.
  simpl.
  destruct (input_focused w) eqn:Hf; simpl.
  - rewrite Hf. repeat split; reflexivity.
  - destruct (0 <? length (suggestions (searchBar w)))%nat eqn:Hs; simpl;
      rewrite ?Hs; repeat split; reflexivity.
Qed.

End SearchBarFacts.

(** ** [components/BookmarkList.tsx] *)

Section BookmarkListFacts.
Import JS Types Client Page BookmarkListComponent Samples.
Variable backend : Backend.

(** [truncateContent] returns a text of at most [maxLength + 3] code
    units that agrees with the content on the first [maxLength]; a content
    within the limit is returned as it is, a longer one is cut at the limit
    and gets three dots, so that a content one or two units over the limit
    comes out longer than it went in. *)
Theorem truncateContent_bounds (content : jsstring) (maxLength : nat) :
  let out := truncateContent content maxLength in
  (length out <= maxLength + 3)%nat
  /\ take maxLength out = take maxLength content
  /\ ((length content <= maxLength)%nat -> out = content)
  /\ ((maxLength < length content)%nat ->
      out = take maxLength content ++ of_ascii "..."
      /\ length out = (maxLength + 3)%nat)
  /\ ((maxLength < length content < maxLength + 3)%nat ->
      (length content < length out)%nat).
Proof.
  unfold truncateContent. simpl.
  destruct (Nat.leb_spec (length content) maxLength) as [Hle|Hgt].
  - repeat split; try reflexivity; try lia.
  - assert (Hlen : length (take maxLength content ++ of_ascii "...")
                   = (maxLength + 3)%nat).
    { rewrite length_app, length_take. simpl. lia. }
    repeat split; try exact Hlen; try lia.
    rewrite take_app_le by (rewrite length_take; lia).
    rewrite take_take. f_equal. lia.
Qed.

Lemma handleDelete_eq bid (p : Page State) :
  handleDelete backend true bid p
  = match deleteBookmark backend bid (world p) with
    | (Resolved _, w1) => (Resolved tt, {| local := None; world := w1 |})
    | (Rejected _, w1) =>
        (Resolved tt,
         {| local := None; world := logged "Failed to delete bookmark:" w1 |})
    end.
Proof.
  unfold handleDelete, setDeletingId, Page.bind, Page.try_catch, Page.lift,
    modify_local, Client.modify, State in *. simpl.
  destruct (deleteBookmark backend bid (world p)) as [[[]|e] w1]; reflexivity.
Qed.

(** [handleDelete] does nothing when the confirmation is declined,
    whatever the server would answer. When it is confirmed, the handler
    never rejects and always leaves [deletingId] null: on success the
    entries with the id are gone from the list; on failure the list is as
    it was, the store holds the message and one line goes to the console. *)
Theorem handleDelete_outcome bid (p : Page State) :
  handleDelete backend false bid p = (Resolved tt, p)
  /\ let r := handleDelete backend true bid p in
     let old := store (world p) in
     let new := store (world (snd r)) in
     fst r = Resolved tt
     /\ local (snd r) = None
     /\ match on_delete backend bid with
        | Ok _ =>
            bookmarks new = filter (fun b => id b <> bid) (bookmarks old)
            /\ console (world (snd r)) = console (world p)
        | Fail e =>
            bookmarks new = bookmarks old
            /\ error new
               = Some (or_default (response_detail e) "Failed to delete bookmark")
            /\ console (world (snd r))
               = "Failed to delete bookmark:" :: console (world p)
        end.
Proof.
  split; [reflexivity|]. cbv zeta.
  rewrite handleDelete_eq, deleteBookmark_eq.
  destruct (on_delete backend bid) as [[]|e]; simpl.
  - auto.
  - rewrite response_interceptor_store, response_interceptor_console.
    simpl. auto.
Qed.

End BookmarkListFacts.

(** ** [pages/search.tsx] and [pages/index.tsx] *)

Section PageFacts.
Import JS Types Client Page SearchPage Samples.
Variable backend : Backend.

(** For a search without results (and no request in flight) the search
    page renders two empty states, the one of [BookmarkList], which it
    asks for with [showEmpty], and its own "No bookmarks found"; the home
    page renders none: there the list is told not to show its empty
    state, and it shows the empty result rather than the user's
    bookmarks. *)
Theorem empty_results_rendering (s : BookmarkState) (r : SearchResult)
        (hasSearched : bool) :
  searchResults s = Some r -> sr_bookmarks r = [] -> isLoading s = false ->
  Search_page s hasSearched
  = [ResultsInfo (total r) (sr_query r); BookmarkList [] true; NoResultsState]
  /\ omap Panel_view (Search_page s hasSearched) = [NoBookmarks]
  /\ Home_page s = [ResultsInfo (total r) (sr_query r); BookmarkList [] false]
  /\ omap Panel_view (Home_page s) = [Cards []]
  /\ displayBookmarks s = [].
Proof.
  intros Hres Hempty Hload.
  unfold Search_page, Home_page, displayBookmarks.
  rewrite Hres, Hempty, Hload. simpl. repeat split; reflexivity.
Qed.

(** The search described by the URL is sent for any non-empty [q], blank
    or not, and without the smart mode. It is not awaited: when it is
    rejected, [hasSearched] is set all the same and, with no earlier
    results, the page renders nothing below the search bar, neither the
    initial state nor any message, while the store holds the error. *)
Theorem query_effect_failure_blank_page (q : jsstring) (u : User)
        (p : Page SearchPage.State) (e : ApiError) :
  let sent_query := {| query := q; limit := None; mode := None;
                       q_platform := None; q_tags := None;
                       date_from := None; date_to := None |} in
  q <> [] ->
  on_search backend sent_query = Fail e ->
  searchResults (store (world p)) = None ->
  let r := query_effect backend (Single q) (Some u) p in
  fst r = Resolved tt
  /\ requests (world (snd r)) = POST_search sent_query :: requests (world p)
  /\ local (snd r) = true
  /\ error (store (world (snd r)))
     = Some (or_default (response_detail e) "Search failed")
  /\ render (snd r) = [].
Proof.
  intros sent_query Hq Hfail Hnone. simpl.
  unfold query_effect, SearchPage.State in *.
  destruct q as [|c q]; [contradiction|]. simpl.
  unfold Page.bind, detached, Page.lift, modify_local, render. simpl.
  fold sent_query. rewrite search_eq, Hfail. simpl.
  rewrite response_interceptor_store, response_interceptor_requests. simpl.
  unfold Search_page. simpl. rewrite Hnone. auto.
Qed.

(** Without a user, with no [q], with an empty [q] or with a repeated
    [q], the effect does nothing, whatever the server would answer. *)
Lemma query_effect_noop (q : QueryParam) (user : option User)
      (p : Page SearchPage.State) :
  user = None \/ q = Absent \/ q = Single [] \/ (exists qs, q = Several qs) ->
  query_effect backend q user p = (Resolved tt, p).
Proof.
  intros H. destruct q as [|[|c s]|qs], user as [u|]; try reflexivity.
  exfalso. destruct H as [H|[H|[H|[qs H]]]]; discriminate.
Qed.

End PageFacts.

(** ** [components/AddBookmarkModal.tsx] *)

Section TrimFacts.
Import JS.

Lemma trimStart_suffix s : exists l, s = l ++ trimStart s.
Proof.
  induction s as [|c s [l IH]]; simpl; [now exists []|].
  destruct (is_white_space c); [|now exists []].
  exists (c :: l). simpl. now f_equal.
Qed.

Lemma trimStart_elem s x : x ∈ trimStart s -> x ∈ s.
Proof.
  destruct (trimStart_suffix s) as [l E]. intros H. rewrite E.
  apply elem_of_app. now right.
Qed.

Lemma trimStart_stable s c t :
  s = c :: t -> is_white_space c = false -> trimStart s = s.
Proof. intros -> H. simpl. now rewrite H. Qed.

Lemma trimStart_idempotent s : trimStart (trimStart s) = trimStart s.
Proof.
  destruct (trimStart s) as [|c t] eqn:E; [reflexivity|].
  eapply trimStart_stable; [reflexivity|]. eapply trimStart_head. exact E.
Qed.

Lemma trimStart_app_last l c :
  is_white_space c = false -> exists l', trimStart (l ++ [c]) = l' ++ [c].
Proof.
  intros Hc. induction l as [|a l [l' IH]]; simpl.
  - rewrite Hc. now exists [].
  - destruct (is_white_space a); [now exists l'|].
    now exists (a :: l).
Qed.

Lemma trimEnd_cons c t :
  is_white_space c = false -> exists t', trimEnd (c :: t) = c :: t'.
Proof.
  intros Hc. unfold trimEnd. simpl.
  destruct (trimStart_app_last (rev t) c Hc) as [l' E]. rewrite E.
  exists (rev l'). rewrite rev_app_distr. reflexivity.
Qed.

Lemma trimEnd_elem s x : x ∈ trimEnd s -> x ∈ s.
Proof.
  unfold trimEnd. intros H.
  apply list_elem_of_In, in_rev, list_elem_of_In, trimStart_elem in H.
  apply list_elem_of_In, in_rev, list_elem_of_In. exact H.
Qed.

Lemma trimEnd_idempotent s : trimEnd (trimEnd s) = trimEnd s.
Proof.
  unfold trimEnd. rewrite rev_involutive, trimStart_idempotent. reflexivity.
Qed.

Lemma trim_elem s x : x ∈ trim s -> x ∈ s.
Proof. unfold trim. intros H. now apply trimStart_elem, trimEnd_elem. Qed.

(** What [trim] returns begins and ends with a code unit that is not white
    space, unless it is empty. *)
Lemma trim_head s c t : trim s = c :: t -> is_white_space c = false.
Proof.
  unfold trim. destruct (trimStart s) as [|a l] eqn:E; [discriminate|].
  apply trimStart_head in E.
  destruct (trimEnd_cons a l E) as [t' ->]. now intros [= <- _].
Qed.

Lemma trimStart_trim s : trimStart (trim s) = trim s.
Proof.
  destruct (trim s) as [|c t] eqn:E; [reflexivity|].
  eapply trimStart_stable; [reflexivity|]. eapply trim_head. exact E.
Qed.

Lemma trim_idempotent s : trim (trim s) = trim s.
Proof.
  unfold trim at 1. rewrite trimStart_trim. unfold trim.
  apply trimEnd_idempotent.
Qed.

Lemma trim_last s d : last (trim s) = Some d -> is_white_space d = false.
Proof.
  unfold trim, trimEnd.
  destruct (trimStart (rev (trimStart s))) as [|c t] eqn:E; [discriminate|].
  simpl. rewrite last_snoc. intros [= <-]. eapply trimStart_head. exact E.
Qed.

End TrimFacts.

Section ModalFacts.
Import JS Types Client Page AddBookmarkModal Samples.

Lemma split_comma_spec cur s :
  split_comma cur s
  = match split_comma [] s with
    | p :: ps => (rev cur ++ p) :: ps
    | [] => []
    end.
Proof.
  revert cur. induction s as [|c s IH]; intros cur; simpl.
  - now rewrite app_nil_r.
  - destruct (c =? 44)%N.
    + now rewrite app_nil_r.
    + rewrite (IH (c :: cur)), (IH [c]).
      destruct (split_comma [] s) as [|p ps]; [reflexivity|].
      simpl. now rewrite <- app_assoc.
Qed.

Lemma split_cons c s :
  c <> 44%N ->
  split (c :: s)
  = match split s with p :: ps => (c :: p) :: ps | [] => [] end.
Proof.
  intros Hc. unfold split. simpl.
  destruct (N.eqb_spec c 44) as [E|_]; [contradiction|].
  now rewrite split_comma_spec.
Qed.

Lemma split_no_comma t : 44%N ∉ t -> split t = [t].
Proof.
  induction t as [|c t IH]; intros H; [reflexivity|].
  rewrite split_cons by (intros ->; apply H; left).
  rewrite IH; [reflexivity|]. intros Hin. apply H. now right.
Qed.

Lemma split_app_comma t rest :
  44%N ∉ t -> split (t ++ 44%N :: rest) = t :: split rest.
Proof.
  induction t as [|c t IH]; intros H; [reflexivity|].
  simpl. rewrite split_cons by (intros ->; apply H; left).
  rewrite IH; [reflexivity|]. intros Hin. apply H. now right.
Qed.

Lemma split_comma_free s p : p ∈ split s -> 44%N ∉ p.
Proof.
  revert p. induction s as [|c s IH]; intros p.
  - unfold split. simpl. intros Hp. apply list_elem_of_singleton in Hp.
    subst. apply not_elem_of_nil.
  - destruct (N.eqb_spec c 44) as [->|Hc].
    + unfold split. simpl. intros Hp. apply elem_of_cons in Hp as [->|Hp].
      * apply not_elem_of_nil.
      * now apply IH.
    + rewrite split_cons by exact Hc.
      destruct (split s) as [|q qs] eqn:E; [intros Hp; inversion Hp|].
      intros Hp. apply elem_of_cons in Hp as [->|Hp].
      * intros Hin. apply elem_of_cons in Hin as [Hin|Hin]; [congruence|].
        apply (IH q); [left|exact Hin].
      * apply IH. now right.
Qed.

(** Every tag [tagsArray] returns is non-empty, free of commas, and
    begins and ends with a code unit that is not white space (trimming it
    again changes nothing); a field with nothing but blanks and commas
    gives no tag. *)
Theorem tagsArray_tags_are_clean (tags : jsstring) :
  (forall tag, tag ∈ tagsArray tags ->
     tag <> []
     /\ (44%N ∉ tag)
     /\ trim tag = tag
     /\ (forall c, head tag = Some c -> is_white_space c = false)
     /\ (forall d, last tag = Some d -> is_white_space d = false))
  /\ (forallb (fun c => is_white_space c || (c =? 44)%N) tags = true ->
      tagsArray tags = []).
Proof.
  split.
  - intros tag Hin. unfold tagsArray in Hin.
    apply list_elem_of_In, filter_In in Hin as [Hin Hlen].
    apply in_map_iff in Hin as (p & <- & Hp).
    apply list_elem_of_In, split_comma_free in Hp.
    split; [destruct (trim p); [discriminate|discriminate]|].
    split; [intros H; apply Hp; now apply trim_elem|].
    split; [apply trim_idempotent|]. split.
    + intros c Hc. destruct (trim p) as [|a t] eqn:E; [discriminate|].
      injection Hc as <-. eapply trim_head. exact E.
    + intros d. apply trim_last.
  - intros Hall. unfold tagsArray.
    assert (Hp : forall p, In p (split tags) -> trim p = []).
    { clear -Hall. induction tags as [|c s IH]; intros p Hp.
      - unfold split in Hp. simpl in Hp. destruct Hp as [<-|[]]. reflexivity.
      - simpl in Hall. apply andb_prop in Hall as [Hc Hs].
        destruct (N.eqb_spec c 44) as [->|Hne].
        + unfold split in Hp. simpl in Hp. destruct Hp as [<-|Hp];
            [reflexivity|now apply IH].
        + rewrite split_cons in Hp by exact Hne.
          rewrite orb_false_r in Hc.
          destruct (split s) as [|q qs] eqn:E; [destruct Hp|].
          destruct Hp as [<-|Hp].
          * assert (Hq : trim q = []) by (apply IH; [exact Hs|now left]).
            apply trim_empty_iff in Hq. apply trim_empty_iff.
            simpl. now rewrite Hc.
          * apply IH; [exact Hs|now right]. }
    induction (split tags) as [|p ps IH]; [reflexivity|].
    simpl. rewrite (Hp p) by now left. simpl.
    apply IH. intros q Hq. apply Hp. now right.
Qed.

Lemma trim_space_cons t : trim (32%N :: t) = trim t.
Proof. reflexivity. Qed.

(** Tags written the way the placeholder shows them are read back as
    they are: for non-empty, comma-free tags without white space at either
    end, [tagsArray] of their [", "]-joined text is the list itself. *)
Theorem tagsArray_join_roundtrip (tags : list jsstring) :
  Forall (fun t : jsstring => t <> [] /\ (44%N ∉ t) /\ trim t = t) tags ->
  tagsArray (join_tags tags) = tags.
Proof.
  intros Hall.
  assert (Hkeep : forall t : jsstring, t <> [] -> (0 <? length t)%nat = true)
    by (intros [|c t] Ht; [contradiction|reflexivity]).
  assert (Hmap : forall l,
             Forall (fun t : jsstring => t <> [] /\ (44%N ∉ t) /\ trim t = t) l -> l <> [] ->
             exists p ps, split (join_tags l) = p :: ps
                          /\ map trim (p :: ps) = l).
  { intros l0 H0.
    induction H0 as [|t l (Ht & Hc & Htrim) Hl IH]; intros Hne;
      [contradiction|].
    destruct l as [|t2 l].
    - exists t, []. simpl. rewrite (split_no_comma t Hc). simpl.
      now rewrite Htrim.
    - destruct IH as (p & ps & E & Em); [discriminate|].
      change (join_tags (t :: t2 :: l))
        with (t ++ 44%N :: 32%N :: join_tags (t2 :: l)).
      rewrite (split_app_comma t _ Hc).
      rewrite split_cons by discriminate. rewrite E.
      exists t, ((32%N :: p) :: ps). split; [reflexivity|].
      simpl in *. rewrite Htrim, trim_space_cons. now f_equal. }
  destruct tags as [|t l]; [reflexivity|].
  destruct (Hmap (t :: l) Hall) as (p & ps & E & Em); [discriminate|].
  unfold tagsArray. rewrite E, Em.
  clear -Hall Hkeep.
  induction Hall as [|x l' (Hx & _) Hl IH]; [reflexivity|].
  simpl. rewrite (Hkeep x Hx). now f_equal.
Qed.

Section SubmitFacts.
Variable bookmarksAPI : BookmarksAPI.
Variable validateUrl : jsstring -> bool.

(** A submission that fails validation never reaches the store: with a
    blank URL, or with one the URL parser refuses, [handleSubmit] only sets
    the validation message ("URL is required" having precedence) and the
    red box shows it; the world, the form and the modal are as before,
    whatever the server would answer. *)
Theorem handleSubmit_validation_blocks (p : Page State) :
  let form := formData (local p) in
  trim (url form) = [] \/ validateUrl (url form) = false ->
  let r := handleSubmit bookmarksAPI validateUrl p in
  let msg := if truthy (trim (url form))
             then of_ascii "Please enter a valid URL"
             else of_ascii "URL is required" in
  fst r = Resolved tt
  /\ world (snd r) = world p
  /\ formData (local (snd r)) = form
  /\ isOpen (local (snd r)) = isOpen (local p)
  /\ validationError (local (snd r)) = msg
  /\ displayError (snd r) = Some (Validation msg).
Proof.
  intros form H. unfold handleSubmit, Page.bind, get_local, setValidationError,
    modify_local, displayError. simpl. fold form.
  destruct (truthy (trim (url form))) eqn:Et; simpl.
  - destruct H as [H|H]; [rewrite H in Et; discriminate|].
    rewrite H. simpl. repeat split; reflexivity.
  - repeat split; reflexivity.
Qed.

(** A submission that passes validation calls [createBookmark] with the
    URL as typed, empty title and description left out, and the parsed
    tags. [handleSubmit] never rejects: when the creation succeeds the new
    bookmark heads the list, the form is reset and the modal closed; when
    it fails the form and the modal stay as they are, for another try, and
    the store holds the message. *)
Theorem handleSubmit_valid (p : Page State) :
  let form := formData (local p) in
  let call := create bookmarksAPI (submitted form)
                     (with_store loading_started (world p)) in
  trim (url form) <> [] ->
  validateUrl (url form) = true ->
  store (snd call) = store (with_store loading_started (world p)) ->
  let r := handleSubmit bookmarksAPI validateUrl p in
  fst r = Resolved tt
  /\ match fst call with
     | Resolved b =>
         local (snd r)
         = {| formData := empty_form; validationError := []; isOpen := false |}
         /\ bookmarks (store (world (snd r)))
            = b :: bookmarks (store (world p))
     | Rejected e =>
         local (snd r) = local p
         /\ bookmarks (store (world (snd r))) = bookmarks (store (world p))
         /\ error (store (world (snd r)))
            = Some (or_default (response_detail e) "Failed to create bookmark")
     end.
Proof.
  intros form call Hurl Hvalid Hquiet.
  unfold handleSubmit, Page.bind, Page.try_catch, Page.lift, Page.ret,
    get_local, handleClose, resetForm, onClose, modify_local. simpl.
  fold form. rewrite (truthy_trim _ Hurl), Hvalid. simpl.
  rewrite createBookmark_eq. fold call.
  destruct call as [[b|e] w1] eqn:E; simpl in *.
  - rewrite Hquiet. simpl. auto.
  - rewrite Hquiet. simpl. destruct (local p). auto.
Qed.

(** Any edit of the form clears the validation message, so that the red
    box then shows the message of the store, if there is one. *)
Theorem handleChange_clears_validation (e : Change) (p : Page State) :
  let r := handleChange e p in
  fst r = Resolved tt
  /\ validationError (local (snd r)) = []
  /\ formData (local (snd r)) = changed e (formData (local p))
  /\ world (snd r) = world p
  /\ displayError (snd r)
     = match error (store (world p)) with
       | Some msg => if String.eqb msg EmptyString then None
                     else Some (StoreError msg)
       | None => None
       end.
Proof. repeat split; reflexivity. Qed.

End SubmitFacts.

End ModalFacts.

(** ** [store/authStore.ts], [utils/api.ts] and the logout of [Layout] *)

Section AuthFacts.
Import JS Types Client Page AuthStore Samples.
Variable authAPI : AuthAPI.

Lemma getCurrentUser_eq (p : Page AuthState) :
  getCurrentUser authAPI p
  = match stored_token (world p) with
    | None => (Resolved tt, p)
    | Some tok =>
        let s := local p in
        match authAPI_getCurrentUser authAPI (world p) with
        | (Resolved u, w1) =>
            (Resolved tt,
             {| local := {| user := Some u; token := Some tok;
                            isLoading := false; error := error s |};
                world := w1 |})
        | (Rejected e, w1) =>
            let failed :=
              {| local := {| user := user s; token := token s;
                             isLoading := false;
                             error := Some (or_default (response_detail e)
                                                       "Failed to get user") |};
                 world := w1 |} in
            if is_401 e then logout failed else (Resolved tt, failed)
        end
    end.
Proof.
  destruct p as [s w].
  unfold getCurrentUser, stored_token, Page.bind, Page.lift, Page.try_catch,
    localStorage_getItem, set, modify_local, Page.ret. simpl.
  destruct (Client.access_token w) as [tok|]; [|reflexivity].
  destruct (String.eqb tok EmptyString); [reflexivity|]. simpl.
  destruct (authAPI_getCurrentUser authAPI w) as [[u|e] w1]; simpl;
    [reflexivity|].
  destruct (is_401 e); reflexivity.
Qed.

Lemma logout_eq (p : Page AuthState) :
  logout p
  = (Resolved tt,
     {| local := {| user := None; token := None;
                    isLoading := isLoading (local p); error := None |};
        world := snd (localStorage_removeItem (world p)) |}).
Proof. reflexivity. Qed.

Lemma stored_token_removed w :
  stored_token (snd (localStorage_removeItem w)) = None.
Proof. reflexivity. Qed.

Lemma getCurrentUser_resolves (p : Page AuthState) :
  fst (getCurrentUser authAPI p) = Resolved tt.
Proof.
  rewrite getCurrentUser_eq.
  destruct (stored_token (world p)) as [tok|]; [|reflexivity].
  destruct (authAPI_getCurrentUser authAPI (world p)) as [[u|e] w1]; simpl;
    [reflexivity|].
  destruct (is_401 e); reflexivity.
Qed.

(** [getCurrentUser] never rejects. Without a usable token in
    [localStorage] it does nothing, whatever the server would answer. With
    one: on success it stores the user and that token; on a 401 it ends
    logged out (user, token and stored token gone) and with no error
    message, the one it had just set being cleared by [logout]; on any
    other failure it keeps user and token and records the message. *)
Theorem getCurrentUser_outcomes (p : Page AuthState) :
  let r := getCurrentUser authAPI p in
  let s' := local (snd r) in
  fst r = Resolved tt
  /\ match stored_token (world p) with
     | None => snd r = p
     | Some tok =>
         isLoading s' = false
         /\ match fst (authAPI_getCurrentUser authAPI (world p)) with
            | Resolved u =>
                user s' = Some u /\ token s' = Some tok
                /\ error s' = error (local p)
            | Rejected e =>
                if is_401 e
                then user s' = None /\ token s' = None /\ error s' = None
                     /\ stored_token (world (snd r)) = None
                else user s' = user (local p) /\ token s' = token (local p)
                     /\ error s' = Some (or_default (response_detail e)
                                                    "Failed to get user")
            end
     end.
Proof.
  simpl. rewrite getCurrentUser_eq.
  destruct (stored_token (world p)) as [tok|]; [|auto].
  destruct (authAPI_getCurrentUser authAPI (world p)) as [[u|e] w1]; simpl;
    [repeat split; reflexivity|].
  destruct (is_401 e); [rewrite logout_eq|]; simpl; repeat split; reflexivity.
Qed.

Lemma login_eq credentials (p : Page AuthState) :
  login authAPI credentials p
  = let s := local p in
    match authAPI_login authAPI credentials (world p) with
    | (Resolved authToken, w1) =>
        getCurrentUser authAPI
          {| local := {| user := user s;
                         token := Some (Types.access_token authToken);
                         isLoading := true; error := None |};
             world := snd (localStorage_setItem
                             (Types.access_token authToken) w1) |}
    | (Rejected e, w1) =>
        (Rejected e,
         {| local := {| user := user s; token := token s; isLoading := false;
                        error := Some (or_default (response_detail e)
                                                  "Login failed") |};
            world := w1 |})
    end.
Proof.
  destruct p as [s w].
  unfold login, Page.bind, Page.try_catch, Page.lift, Page.throw, set,
    modify_local. simpl.
  destruct (authAPI_login authAPI credentials w) as [[t|e] w1]; simpl;
    [|reflexivity].
  match goal with
  | |- context [getCurrentUser authAPI ?q] =>
      assert (H := getCurrentUser_resolves q);
      destruct (getCurrentUser authAPI q) as [[[]|e] q'] eqn:E
  end.
  - reflexivity.
  - discriminate.
Qed.

(** [login] rejects only when the login request itself is rejected; then
    user and token are as before and the message is recorded. When the
    request resolves with a non-empty token, [login] resolves whatever
    becomes of the request for the user that follows: if that one fails
    with anything but a 401, the store ends with the new token, the
    message of that failure and the user it had before [login] (none, for
    a store that was logged out), and if it fails with a 401 the store ends
    logged out. *)
Theorem login_outcomes credentials (p : Page AuthState) :
  let r := login authAPI credentials p in
  let s' := local (snd r) in
  match authAPI_login authAPI credentials (world p) with
  | (Rejected e, w1) =>
      fst r = Rejected e
      /\ user s' = user (local p) /\ token s' = token (local p)
      /\ isLoading s' = false
      /\ error s' = Some (or_default (response_detail e) "Login failed")
      /\ world (snd r) = w1
  | (Resolved authToken, w1) =>
      let tok := Types.access_token authToken in
      tok <> EmptyString ->
      fst r = Resolved tt
      /\ isLoading s' = false
      /\ match fst (authAPI_getCurrentUser authAPI
                      (snd (localStorage_setItem tok w1))) with
         | Resolved u =>
             user s' = Some u /\ token s' = Some tok /\ error s' = None
         | Rejected e =>
             if is_401 e
             then user s' = None /\ token s' = None /\ error s' = None
             else user s' = user (local p) /\ token s' = Some tok
                  /\ error s' = Some (or_default (response_detail e)
                                                 "Failed to get user")
         end
  end.
Proof.
  simpl. rewrite login_eq. simpl.
  destruct (authAPI_login authAPI credentials (world p)) as [[t|e] w1];
    simpl; [|auto 10].
  intros Hne. rewrite getCurrentUser_eq. unfold stored_token. simpl.
  destruct (String.eqb_spec (Types.access_token t) EmptyString) as [E|_];
    [contradiction|].
  destruct (authAPI_getCurrentUser authAPI _) as [[u|e] w2]; simpl.
  - repeat split; reflexivity.
  - destruct (is_401 e); [rewrite logout_eq|]; simpl; repeat split; reflexivity.
Qed.

(** After the logout button, the store holds neither user nor token nor
    error, [localStorage] holds no token, so the next request carries no
    [Authorization] header, the browser is on the login page, and
    [getCurrentUser] does nothing, whatever the server would answer. *)
Theorem handleLogout_logs_out (p : Page AuthState) :
  let r := handleLogout p in
  let s' := local (snd r) in
  fst r = Resolved tt
  /\ user s' = None /\ token s' = None /\ error s' = None
  /\ Client.access_token (world (snd r)) = None
  /\ request_interceptor (world (snd r)) = None
  /\ location_href (world (snd r)) = "/auth/login"
  /\ store (world (snd r)) = store (world p)
  /\ getCurrentUser authAPI (snd r) = (Resolved tt, snd r).
Proof.
  simpl. repeat split; try reflexivity.
Qed.

(** [register] stores the user the server returns and nothing else: the
    token of the store is as before and the world is as the request left
    it, so a registration does not log in. When the request is rejected,
    user and token are as before and the error is rethrown. *)
Theorem register_stores_no_token userData (p : Page AuthState) :
  let r := register authAPI userData p in
  let s' := local (snd r) in
  token s' = token (local p)
  /\ isLoading s' = false
  /\ world (snd r) = snd (authAPI_register authAPI userData (world p))
  /\ match fst (authAPI_register authAPI userData (world p)) with
     | Resolved u => fst r = Resolved tt /\ user s' = Some u /\ error s' = None
     | Rejected e =>
         fst r = Rejected e /\ user s' = user (local p)
         /\ error s' = Some (or_default (response_detail e)
                                        "Registration failed")
     end.
Proof.
  destruct p as [s w].
  unfold register, Page.bind, Page.try_catch, Page.lift, Page.throw, set,
    modify_local. simpl.
  destruct (authAPI_register authAPI userData w) as [[u|e] w1]; simpl;
    repeat split; reflexivity.
Qed.

(** A 401 on any request makes the response interceptor drop the stored
    token and send the browser to the login page, so the next request
    carries no [Authorization] header; the auth store is out of its reach
    and keeps user and token, and [getCurrentUser], finding no stored
    token, leaves them there. *)
Theorem unauthorized_response_keeps_auth_store {A} (e : ApiError)
        (p : Page AuthState) :
  is_401 e = true ->
  let p1 := snd (lift (axios (Fail e : Response A)) p) in
  Client.access_token (world p1) = None
  /\ request_interceptor (world p1) = None
  /\ location_href (world p1) = "/auth/login"
  /\ local p1 = local p
  /\ getCurrentUser authAPI p1 = (Resolved tt, p1).
Proof.
  intros H. apply bool_decide_eq_true in H. simpl.
  unfold Page.lift, axios. simpl.
  assert (E : response_interceptor e (world p)
              = {| store := store (world p); searchBar := searchBar (world p);
                   Client.access_token := None; location_href := "/auth/login";
                   input_focused := input_focused (world p);
                   requests := requests (world p);
                   console := console (world p) |})
    by (unfold response_interceptor; rewrite H; reflexivity).
  rewrite E. simpl. rewrite getCurrentUser_eq. simpl. auto.
Qed.

End AuthFacts.

(** ** [database/init.sql]: deleting a user, and the full-text document *)

Section SchemaMoreFacts.
Import Schema Samples.

Lemma owned_by_deleted (db : Database) (u : users_row) (b : bookmarks_row) :
  u ∈ users db ->
  owned_by_one (filter (fun x => users_id x = users_id u) (users db)) b
  <-> bookmarks_user_id b = Some (users_id u).
Proof.
  intros Hu. unfold owned_by_one. split.
  - intros (x & Hx & Hb). apply list_elem_of_filter in Hx as [Hid _]. congruence.
  - intros Hb. exists u. split; [|exact Hb].
    apply list_elem_of_filter. auto.
Qed.

Lemma logged_by_deleted (db : Database) (u : users_row) (l : search_logs_row) :
  u ∈ users db ->
  logged_by_one (filter (fun x => users_id x = users_id u) (users db)) l
  <-> search_logs_user_id l = Some (users_id u).
Proof.
  intros Hu. unfold logged_by_one. split.
  - intros (x & Hx & Hb). apply list_elem_of_filter in Hx as [Hid _]. congruence.
  - intros Hb. exists u. split; [|exact Hb].
    apply list_elem_of_filter. auto.
Qed.

(** Deleting a user removes the user, every bookmark of the user and
    every chunk of those bookmarks; the bookmarks of the other users and
    their chunks stay. Every search log stays where it is with its id,
    query, result count and date: those of the user get a null [user_id],
    the others keep theirs. *)
Theorem delete_user_cascades (db : Database) (u : users_row) :
  u ∈ users db ->
  let uid := users_id u in
  let db' := delete_user uid db in
  (forall x, x ∈ users db' -> users_id x <> uid)
  /\ (forall b, b ∈ bookmarks db' <->
                b ∈ bookmarks db /\ bookmarks_user_id b <> Some uid)
  /\ (forall e, e ∈ embeddings db' <->
                e ∈ embeddings db
                /\ ~ exists b, b ∈ bookmarks db
                               /\ bookmarks_user_id b = Some uid
                               /\ bookmark_id e = Some (bookmarks_id b))
  /\ length (search_logs db') = length (search_logs db)
  /\ (forall l, l ∈ search_logs db' -> search_logs_user_id l <> Some uid)
  /\ (forall l, l ∈ search_logs db -> search_logs_user_id l <> Some uid ->
                l ∈ search_logs db')
  /\ (forall i l, search_logs db !! i = Some l ->
        exists l', search_logs db' !! i = Some l'
          /\ search_logs_id l' = search_logs_id l
          /\ query l' = query l
          /\ results_count l' = results_count l
          /\ search_logs_created_at l' = search_logs_created_at l
          /\ search_logs_user_id l'
             = if decide (search_logs_user_id l = Some uid) then None
               else search_logs_user_id l).
Proof.
  intros Hu. cbv zeta. unfold delete_user. simpl.
  split; [|split; [|split; [|split; [|split; [|split]]]]].
  - intros x Hx. apply list_elem_of_filter in Hx. tauto.
  - intros b. rewrite list_elem_of_filter, (owned_by_deleted db u b Hu). tauto.
  - intros e. rewrite list_elem_of_filter. unfold references.
    split.
    + intros [Hn He]. split; [exact He|]. intros (b & Hb & Hown & Href).
      apply Hn. exists b. split; [|exact Href].
      apply list_elem_of_filter. split; [|exact Hb].
      now apply (owned_by_deleted db u b Hu).
    + intros [He Hn]. split; [|exact He]. intros (b & Hb & Href).
      apply list_elem_of_filter in Hb as [Hown Hb].
      apply (owned_by_deleted db u b Hu) in Hown. apply Hn. eauto.
  - apply length_map.
  - intros l Hl. apply list_elem_of_fmap in Hl as (l0 & -> & Hl0).
    destruct (decide _) as [Hd|Hd]; simpl; [discriminate|].
    intros Hid. apply Hd. now apply (logged_by_deleted db u l0 Hu).
  - intros l Hl Hne. apply list_elem_of_fmap. exists l. split; [|exact Hl].
    destruct (decide _) as [Hd|Hd]; [|reflexivity].
    apply (logged_by_deleted db u l Hu) in Hd. contradiction.
  - intros i l Hl.
    match goal with
    | |- context [map ?f (search_logs db)] =>
        change (map f (search_logs db)) with (f <$> search_logs db);
        exists (f l)
    end.
    rewrite list_lookup_fmap, Hl. simpl.
    split; [reflexivity|].
    destruct (decide (logged_by_one _ l)) as [Hd|Hd];
      destruct (decide (search_logs_user_id l = Some (users_id u)))
        as [Hid|Hid]; simpl; repeat split; try reflexivity.
    + apply (logged_by_deleted db u l Hu) in Hd. contradiction.
    + exfalso. apply Hd. now apply (logged_by_deleted db u l Hu).
Qed.

(** Deleting a user keeps both foreign keys intact: no bookmark is left
    without its user and no chunk without its bookmark. *)
Theorem delete_user_keeps_foreign_keys (db : Database) (uid : string) :
  fk_bookmarks_ok db -> fk_embeddings_ok db ->
  fk_bookmarks_ok (delete_user uid db) /\ fk_embeddings_ok (delete_user uid db).
Proof.
  intros Hb He. unfold delete_user. split.
  - intros b uid' Hin Hown. simpl in *.
    apply list_elem_of_filter in Hin as [Hn Hin].
    destruct (Hb b uid' Hin Hown) as (x & Hx & Hid).
    exists x. split; [|exact Hid].
    apply list_elem_of_filter. split; [|exact Hx].
    intros Hxid. apply Hn. exists x. split; [|congruence].
    apply list_elem_of_filter. auto.
  - intros e bid Hin Href. simpl in *.
    apply list_elem_of_filter in Hin as [Hn Hin].
    destruct (He e bid Hin Href) as (b & Hbin & Hid).
    exists b. split; [|exact Hid].
    apply list_elem_of_filter. split; [|exact Hbin].
    intros Hown. apply Hn. exists b. split; [|congruence].
    apply list_elem_of_filter. auto.
Qed.

End SchemaMoreFacts.

(** ** [pages/diagnostics.tsx] *)

Section DiagnosticsFacts.
Import JS Types Client Page Diagnostics Samples.
Variable api : DiagnosticsAPI.

(** [loadDiagnosticData] sends both requests, never rejects and always
    ends with [isLoading] false. Overview and system information are set
    together or not at all: if either request is rejected both keep their
    previous value and one line goes to the console. The other cells of
    the page are not touched. *)
Theorem loadDiagnosticData_all_or_nothing (p : Page State) :
  let r := loadDiagnosticData api p in
  let s := local p in
  let s' := local (snd r) in
  let first := get_overview api (world p) in
  let second := get_system_info api (snd first) in
  fst r = Resolved tt
  /\ isLoading s' = false
  /\ match fst first, fst second with
     | Resolved o, Resolved i =>
         overview s' = Some o /\ systemInfo s' = Some i
         /\ world (snd r) = snd second
     | _, _ =>
         overview s' = overview s /\ systemInfo s' = systemInfo s
         /\ world (snd r) = logged "Failed to load diagnostic data:" (snd second)
     end
  /\ selectedBookmark s' = selectedBookmark s
  /\ searchTest s' = searchTest s
  /\ searchQuery s' = searchQuery s
  /\ activeTab s' = activeTab s.
Proof.
  destruct p as [s w].
  unfold loadDiagnosticData, try_finally, Page.try_catch, Page.bind, all2,
    Page.lift, setIsLoading, setOverview, setSystemInfo, console_error,
    modify_local, Client.modify. simpl.
  destruct (get_overview api w) as [[o|e1] w1]; simpl;
    destruct (get_system_info api w1) as [[i|e2] w2]; simpl;
    repeat split; reflexivity.
Qed.

(** Neither [loadBookmarkDetail] nor [testSearch] ever rejects; when its
    request is rejected, what was selected or found before stays on
    screen and one line goes to the console. *)
Theorem detail_loaders_keep_previous (bookmarkId : string) (p : Page State) :
  let r1 := loadBookmarkDetail api bookmarkId p in
  let r2 := testSearch api p in
  fst r1 = Resolved tt
  /\ fst r2 = Resolved tt
  /\ match get_bookmark api bookmarkId (world p) with
     | (Resolved d, w1) =>
         selectedBookmark (local (snd r1)) = Some d /\ world (snd r1) = w1
     | (Rejected _, w1) =>
         local (snd r1) = local p
         /\ world (snd r1) = logged "Failed to load bookmark detail:" w1
     end
  /\ match get_search_test api (searchQuery (local p)) (world p) with
     | (Resolved t, w1) =>
         searchTest (local (snd r2)) = Some t /\ world (snd r2) = w1
     | (Rejected _, w1) =>
         local (snd r2) = local p
         /\ world (snd r2) = logged "Failed to test search:" w1
     end.
Proof.
  destruct p as [s w].
  unfold loadBookmarkDetail, testSearch, Page.try_catch, Page.bind, Page.lift,
    get_local, setSelectedBookmark, setSearchTest, console_error,
    modify_local, Client.modify. simpl.
  destruct (get_bookmark api bookmarkId w) as [[d|e1] w1]; simpl;
    destruct (get_search_test api (searchQuery s) w) as [[t|e2] w2]; simpl;
    repeat split; reflexivity.
Qed.

End DiagnosticsFacts.

(** ** Worked instances *)

Section MoreExamples.
Import JS Types Client Page Samples.

(** Creating a bookmark on the sample page. *)
Lemma createBookmark_prepends_witness :
  store (snd (create accepting_api sample_create
                     (with_store loading_started sample_world)))
  = store (with_store loading_started sample_world)
  /\ bookmarks (store (snd (createBookmark accepting_api sample_create
                                           sample_world)))
     = [new_bookmark; sample_bookmark; other_bookmark; sample_bookmark].
Proof.
  assert (H : store (snd (create accepting_api sample_create
                                 (with_store loading_started sample_world)))
              = store (with_store loading_started sample_world))
    by reflexivity.
  split; [exact H|].
  pose proof (createBookmark_prepends accepting_api sample_create
                sample_world H) as T.
  simpl in T. destruct T as [(_ & T & _) _]. exact T.
Defined.

(** Editing the first bookmark of the sample page: both of its entries
    are replaced, the one in between stays. *)
Lemma updateBookmark_replaces_in_place_witness :
  store (snd (update accepting_api "b1" sample_update
                     (with_store loading_started sample_world)))
  = store (with_store loading_started sample_world)
  /\ length (bookmarks (store (snd (updateBookmark accepting_api "b1"
                                      sample_update sample_world))))
     = 3%nat.
Proof.
  assert (H : store (snd (update accepting_api "b1" sample_update
                                 (with_store loading_started sample_world)))
              = store (with_store loading_started sample_world))
    by reflexivity.
  split; [exact H|].
  pose proof (updateBookmark_replaces_in_place accepting_api "b1"
                sample_update sample_world H) as T.
  simpl in T. destruct T as (_ & T & _). exact T.
Defined.

Example updateBookmark_sample :
  bookmarks (store (snd (updateBookmark accepting_api "b1" sample_update
                                        sample_world)))
  = [edited_bookmark; other_bookmark; edited_bookmark]
  /\ bookmarks (store (snd (updateBookmark accepting_api "nobody" sample_update
                                          sample_world)))
     = [sample_bookmark; other_bookmark; sample_bookmark].
Proof. split; vm_compute; reflexivity. Qed.

(** Creating ["b3"] on the sample page and deleting it again. *)
Lemma create_then_delete_restores_witness :
  store (snd (create accepting_api sample_create
                     (with_store loading_started sample_world)))
  = store (with_store loading_started sample_world)
  /\ fst (create accepting_api sample_create
                 (with_store loading_started sample_world))
     = Resolved new_bookmark
  /\ on_delete quiet_backend (id new_bookmark) = Ok tt
  /\ bookmarks (store (snd (deleteBookmark quiet_backend (id new_bookmark)
                  (snd (createBookmark accepting_api sample_create
                                       sample_world)))))
     = filter (fun x => id x <> id new_bookmark) (bookmarks (store sample_world)).
Proof.
  assert (H1 : store (snd (create accepting_api sample_create
                                  (with_store loading_started sample_world)))
               = store (with_store loading_started sample_world))
    by reflexivity.
  assert (H2 : fst (create accepting_api sample_create
                           (with_store loading_started sample_world))
               = Resolved new_bookmark) by reflexivity.
  assert (H3 : on_delete quiet_backend (id new_bookmark) = Ok tt)
    by reflexivity.
  split; [exact H1|]. split; [exact H2|]. split; [exact H3|].
  exact (proj1 (create_then_delete_restores accepting_api quiet_backend
                  sample_create sample_world H1 new_bookmark H2 H3)).
Defined.

(** Deleting ["b1"] twice on the sample page. *)
Lemma deleteBookmark_twice_witness :
  on_delete quiet_backend "b1" = Ok tt
  /\ bookmarks (store (snd (deleteBookmark quiet_backend "b1"
                  (snd (deleteBookmark quiet_backend "b1" sample_world)))))
     = bookmarks (store (snd (deleteBookmark quiet_backend "b1" sample_world))).
Proof.
  assert (H : on_delete quiet_backend "b1" = Ok tt) by reflexivity.
  split; [exact H|].
  exact (proj1 (deleteBookmark_twice quiet_backend "b1" sample_world H)).
Defined.

(** Deleting the bookmark that the shown search result consists of. *)
Lemma deleted_bookmark_stays_in_results_witness :
  let r := {| sr_bookmarks := [sample_bookmark]; total := 1;
              sr_query := of_ascii "example" |} in
  on_delete quiet_backend "b1" = Ok tt
  /\ searchResults (store searched_world) = Some r
  /\ sample_bookmark ∈ sr_bookmarks r
  /\ id sample_bookmark = "b1"
  /\ sample_bookmark
     ∈ displayBookmarks (store (snd (deleteBookmark quiet_backend "b1"
                                                    searched_world))).
Proof.
  intros r.
  assert (H1 : on_delete quiet_backend "b1" = Ok tt) by reflexivity.
  assert (H2 : searchResults (store searched_world) = Some r) by reflexivity.
  assert (H3 : sample_bookmark ∈ sr_bookmarks r) by (simpl; left).
  assert (H4 : id sample_bookmark = "b1") by reflexivity.
  split; [exact H1|]. split; [exact H2|]. split; [exact H3|].
  split; [exact H4|].
  exact (proj1 (deleted_bookmark_stays_in_results quiet_backend "b1"
                  searched_world r sample_bookmark H1 H2 H3 H4)).
Defined.

(** A search that fails while an earlier result is shown. *)
Lemma failed_search_keeps_page_witness :
  on_search failing_backend sample_query = Fail server_error
  /\ isLoading (store searched_world) = false
  /\ searchResults (store (snd (search failing_backend sample_query
                                       searched_world)))
     = searchResults (store searched_world).
Proof.
  assert (H1 : on_search failing_backend sample_query = Fail server_error)
    by reflexivity.
  assert (H2 : isLoading (store searched_world) = false) by reflexivity.
  split; [exact H1|]. split; [exact H2|].
  exact (proj1 (proj2 (failed_search_keeps_page failing_backend sample_query
                         searched_world server_error true H1 H2))).
Defined.

(** Two blanks in the search box: no suggestion request. *)
Lemma fetchSuggestions_short_query_witness :
  (length (sb_query (searchBar
                       (with_searchBar
                          (fun u => {| sb_query := of_ascii "se";
                                       suggestions := suggestions u;
                                       showSuggestions := showSuggestions u |})
                          sample_world))) <= 2)%nat
  /\ requests (snd (fetchSuggestions failing_backend
                      (with_searchBar
                         (fun u => {| sb_query := of_ascii "se";
                                      suggestions := suggestions u;
                                      showSuggestions := showSuggestions u |})
                         sample_world)))
     = requests sample_world.
Proof.
  set (w := with_searchBar _ sample_world).
  assert (H : (length (sb_query (searchBar w)) <= 2)%nat)
    by (vm_compute; lia).
  split; [exact H|].
  exact (proj1 (proj2 (fetchSuggestions_short_query failing_backend w H))).
Defined.

(** A text with blanks around it is searched as it stands. *)
Lemma handleSearch_sends_text_untrimmed_witness :
  let arg := Some (of_ascii " rocq ") in
  trim (or_else arg (sb_query (searchBar sample_world))) <> []
  /\ requests (snd (handleSearch quiet_backend arg sample_world))
     = [POST_search (smart_query (of_ascii " rocq "))].
Proof.
  intros arg.
  assert (H : trim (or_else arg (sb_query (searchBar sample_world))) <> [])
    by (vm_compute; discriminate).
  split; [exact H|].
  exact (proj1 (proj2 (handleSearch_sends_text_untrimmed quiet_backend arg
                         sample_world H))).
Defined.

(** Clicking the suggestion of the sample page. *)
Lemma handleSuggestionClick_searches_suggestion_witness :
  let s := of_ascii "semantic search" in
  trim s <> []
  /\ requests (snd (handleSuggestionClick quiet_backend s sample_world))
     = [POST_search (smart_query s)]
  /\ sb_query (searchBar (snd (handleSuggestionClick quiet_backend s
                                                    sample_world))) = s.
Proof.
  intros s.
  assert (H : trim s <> []) by (vm_compute; discriminate).
  split; [exact H|].
  exact (proj2 (handleSuggestionClick_searches_suggestion quiet_backend s
                  sample_world H)).
Defined.

(** An empty suggestion is falsy: the handler searches for the text of the
    box and then empties the box. *)
Example handleSuggestionClick_empty :
  requests (snd (handleSuggestionClick quiet_backend [] sample_world))
  = [POST_search (smart_query (of_ascii "sem"))]
  /\ sb_query (searchBar (snd (handleSuggestionClick quiet_backend []
                                                    sample_world))) = [].
Proof. split; vm_compute; reflexivity. Qed.

(** The store with an empty search result, on both pages. *)
Lemma empty_results_rendering_witness :
  let r := {| sr_bookmarks := []; total := 0; sr_query := of_ascii "nothing" |} in
  searchResults empty_result_store = Some r
  /\ sr_bookmarks r = []
  /\ isLoading empty_result_store = false
  /\ omap Panel_view (Search_page empty_result_store true) = [NoBookmarks]
  /\ omap Panel_view (Home_page empty_result_store) = [Cards []].
Proof.
  intros r.
  assert (H1 : searchResults empty_result_store = Some r) by reflexivity.
  assert (H2 : sr_bookmarks r = []) by reflexivity.
  assert (H3 : isLoading empty_result_store = false) by reflexivity.
  split; [exact H1|]. split; [exact H2|]. split; [exact H3|].
  pose proof (empty_results_rendering empty_result_store r true H1 H2 H3) as T.
  destruct T as (_ & T1 & _ & T2 & _). split; [exact T1|exact T2].
Defined.

(** Opening [/search?q=%20] against a server that is down. *)
Lemma query_effect_failure_blank_page_witness :
  let q := of_ascii " " in
  let sent_query := {| query := q; limit := None; mode := None;
                       q_platform := None; q_tags := None;
                       date_from := None; date_to := None |} in
  q <> []
  /\ on_search failing_backend sent_query = Fail server_error
  /\ searchResults (store (world fresh_search_page)) = None
  /\ SearchPage.render
       (snd (SearchPage.query_effect failing_backend (SearchPage.Single q)
                                     (Some alice) fresh_search_page)) = [].
Proof.
  intros q sent_query.
  assert (H1 : q <> []) by discriminate.
  assert (H2 : on_search failing_backend sent_query = Fail server_error)
    by reflexivity.
  assert (H3 : searchResults (store (world fresh_search_page)) = None)
    by reflexivity.
  split; [exact H1|]. split; [exact H2|]. split; [exact H3|].
  pose proof (query_effect_failure_blank_page failing_backend q alice
                fresh_search_page server_error H1 H2 H3) as T.
  destruct T as (_ & _ & _ & _ & T). exact T.
Defined.

(** Two tags, typed the way the placeholder shows. *)
Lemma tagsArray_join_roundtrip_witness :
  let tags := [of_ascii "rocq"; of_ascii "formal proofs"] in
  Forall (fun t : jsstring => t <> [] /\ (44%N ∉ t) /\ trim t = t) tags
  /\ AddBookmarkModal.tagsArray (AddBookmarkModal.join_tags tags) = tags.
Proof.
  intros tags.
  assert (H : Forall (fun t : jsstring => t <> [] /\ (44%N ∉ t) /\ trim t = t)
                     tags).
  { repeat constructor; try discriminate; try (vm_compute; reflexivity);
      intros Hin; repeat (apply elem_of_cons in Hin as [Hin|Hin];
                          [discriminate Hin|]); inversion Hin. }
  split; [exact H|].
  exact (tagsArray_join_roundtrip tags H).
Defined.

Example tagsArray_sample :
  AddBookmarkModal.tagsArray (of_ascii "rocq, proofs ,,")
  = [of_ascii "rocq"; of_ascii "proofs"]
  /\ AddBookmarkModal.tagsArray (of_ascii " , ,") = []
  /\ AddBookmarkModal.tagsArray [] = [].
Proof. repeat split; vm_compute; reflexivity. Qed.

(** Submitting a URL of two blanks. *)
Lemma handleSubmit_validation_blocks_witness :
  (trim (AddBookmarkModal.url (AddBookmarkModal.formData (local blank_modal)))
   = []
   \/ has_colon (AddBookmarkModal.url
                   (AddBookmarkModal.formData (local blank_modal))) = false)
  /\ world (snd (AddBookmarkModal.handleSubmit accepting_api has_colon
                                               blank_modal))
     = world blank_modal
  /\ AddBookmarkModal.validationError
       (local (snd (AddBookmarkModal.handleSubmit accepting_api has_colon
                                                  blank_modal)))
     = of_ascii "URL is required".
Proof.
  assert (H : trim (AddBookmarkModal.url
                      (AddBookmarkModal.formData (local blank_modal))) = []
              \/ has_colon (AddBookmarkModal.url
                              (AddBookmarkModal.formData (local blank_modal)))
                 = false) by (left; vm_compute; reflexivity).
  split; [exact H|].
  pose proof (handleSubmit_validation_blocks accepting_api has_colon
                blank_modal H) as T.
  destruct T as (_ & T1 & _ & _ & T2 & _). split; [exact T1|exact T2].
Defined.

(** Submitting the filled form, to a server that accepts it. *)
Lemma handleSubmit_valid_witness :
  let form := AddBookmarkModal.formData (local filled_modal) in
  trim (AddBookmarkModal.url form) <> []
  /\ has_colon (AddBookmarkModal.url form) = true
  /\ store (snd (create accepting_api (AddBookmarkModal.submitted form)
                        (with_store loading_started (world filled_modal))))
     = store (with_store loading_started (world filled_modal))
  /\ fst (AddBookmarkModal.handleSubmit accepting_api has_colon filled_modal)
     = Resolved tt.
Proof.
  intros form.
  assert (H1 : trim (AddBookmarkModal.url form) <> [])
    by (vm_compute; discriminate).
  assert (H2 : has_colon (AddBookmarkModal.url form) = true)
    by (vm_compute; reflexivity).
  assert (H3 : store (snd (create accepting_api
                             (AddBookmarkModal.submitted form)
                             (with_store loading_started (world filled_modal))))
               = store (with_store loading_started (world filled_modal)))
    by reflexivity.
  split; [exact H1|]. split; [exact H2|]. split; [exact H3|].
  exact (proj1 (handleSubmit_valid accepting_api has_colon filled_modal
                  H1 H2 H3)).
Defined.

Example handleSubmit_sample :
  local (snd (AddBookmarkModal.handleSubmit accepting_api has_colon filled_modal))
  = {| AddBookmarkModal.formData := AddBookmarkModal.empty_form;
       AddBookmarkModal.validationError := [];
       AddBookmarkModal.isOpen := false |}
  /\ local (snd (AddBookmarkModal.handleSubmit rejecting_api has_colon
                                               filled_modal))
     = local filled_modal
  /\ AddBookmarkModal.displayError
       (snd (AddBookmarkModal.handleSubmit rejecting_api has_colon filled_modal))
     = Some (AddBookmarkModal.StoreError "Internal Server Error")
  /\ create_tags (AddBookmarkModal.submitted
                    (AddBookmarkModal.formData (local filled_modal)))
     = Some [of_ascii "rocq"; of_ascii "proofs"].
Proof. repeat split; vm_compute; reflexivity. Qed.

(** A 401 on a request of the logged-in page. *)
Lemma unauthorized_response_keeps_auth_store_witness :
  AuthStore.is_401 unauthorized = true
  /\ request_interceptor
       (world (snd (lift (axios (Fail unauthorized : Response unit))
                         logged_in_page))) = None
  /\ local (snd (lift (axios (Fail unauthorized : Response unit))
                      logged_in_page))
     = local logged_in_page.
Proof.
  assert (H : AuthStore.is_401 unauthorized = true) by reflexivity.
  split; [exact H|].
  pose proof (@unauthorized_response_keeps_auth_store welcoming_api unit
                unauthorized logged_in_page H) as T.
  destruct T as (_ & T1 & _ & T2 & _). split; [exact T1|exact T2].
Defined.

(** Logging in, against three servers. *)
Example login_samples :
  local (snd (AuthStore.login welcoming_api sample_credentials logged_out_page))
  = {| AuthStore.user := Some alice; AuthStore.token := Some "fresh";
       AuthStore.isLoading := false; AuthStore.error := None |}
  /\ AuthStore.login flaky_api sample_credentials logged_out_page
     = (Resolved tt,
        {| local := {| AuthStore.user := None; AuthStore.token := Some "fresh";
                       AuthStore.isLoading := false;
                       AuthStore.error := Some "Internal Server Error" |};
           world := snd (AuthStore.localStorage_setItem "fresh"
                           (world logged_out_page)) |})
  /\ fst (AuthStore.login expired_api sample_credentials logged_out_page)
     = Rejected unauthorized
  /\ request_interceptor
       (world (snd (AuthStore.login welcoming_api sample_credentials
                                    logged_out_page)))
     = Some "Bearer fresh".
Proof. repeat split; vm_compute; reflexivity. Qed.

(** Deleting the first user of the two-user database: the user is gone and
    the log of the search for "rocq" is still there, without its user. *)
Lemma delete_user_cascades_witness :
  let u := {| Schema.users_id := "u1"; Schema.email := "a@example.org";
              Schema.password_hash := "x"; Schema.users_created_at := None;
              Schema.users_updated_at := None |} in
  let l := {| Schema.search_logs_id := "l1";
              Schema.search_logs_user_id := Some "u1";
              Schema.query := Some "rocq"; Schema.results_count := Some 2%Z;
              Schema.search_logs_created_at := None |} in
  u ∈ Schema.users two_user_db
  /\ Schema.search_logs two_user_db !! 0%nat = Some l
  /\ (forall x, x ∈ Schema.users (Schema.delete_user "u1" two_user_db) ->
                Schema.users_id x <> "u1")
  /\ exists l', Schema.search_logs (Schema.delete_user "u1" two_user_db) !! 0%nat
                = Some l'
       /\ Schema.search_logs_id l' = "l1"
       /\ Schema.query l' = Some "rocq"
       /\ Schema.results_count l' = Some 2%Z
       /\ Schema.search_logs_user_id l' = None.
Proof.
  intros u l.
  assert (H : u ∈ Schema.users two_user_db) by (simpl; left).
  assert (Hl : Schema.search_logs two_user_db !! 0%nat = Some l) by reflexivity.
  pose proof (delete_user_cascades two_user_db u H) as T.
  destruct T as (Hu & _ & _ & _ & _ & _ & Hlogs).
  destruct (Hlogs 0%nat l Hl) as (l' & Hl' & Hid & Hq & Hc & _ & Hn).
  split; [exact H|]. split; [exact Hl|]. split; [exact Hu|].
  exists l'. split; [exact Hl'|]. split; [exact Hid|]. split; [exact Hq|].
  split; [exact Hc|exact Hn].
Defined.

Example delete_user_sample :
  Schema.bookmarks (Schema.delete_user "u1" two_user_db) = []
  /\ Schema.embeddings (Schema.delete_user "u1" two_user_db) = []
  /\ map Schema.search_logs_user_id
         (Schema.search_logs (Schema.delete_user "u1" two_user_db))
     = [None; Some "u2"]
  /\ map Schema.users_id (Schema.users (Schema.delete_user "u2" two_user_db))
     = ["u1"]
  /\ Schema.bookmarks (Schema.delete_user "u2" two_user_db)
     = Schema.bookmarks two_user_db
  /\ Schema.embeddings (Schema.delete_user "u2" two_user_db)
     = Schema.embeddings two_user_db
  /\ map Schema.search_logs_user_id
         (Schema.search_logs (Schema.delete_user "u2" two_user_db))
     = [Some "u1"; None].
Proof. repeat split; vm_compute; reflexivity. Qed.

Lemma sample_foreign_keys :
  Schema.fk_bookmarks_ok two_user_db /\ Schema.fk_embeddings_ok two_user_db.
Proof.
  split.
  - intros b uid Hb Hu. simpl in Hb.
    repeat (apply elem_of_cons in Hb as [->|Hb]);
      try (inversion Hb); simpl in Hu; injection Hu as <-;
      eexists; (split; [left|reflexivity]).
  - intros e bid He Hb. simpl in He.
    repeat (apply elem_of_cons in He as [->|He]);
      try (inversion He); simpl in Hb; injection Hb as <-.
    + eexists; split; [left|reflexivity].
    + eexists; split; [right; left|reflexivity].
    + eexists; split; [left|reflexivity].
Qed.

(** The two-user database has sound keys, before and after. *)
Lemma delete_user_keeps_foreign_keys_witness :
  Schema.fk_bookmarks_ok two_user_db
  /\ Schema.fk_embeddings_ok two_user_db
  /\ Schema.fk_bookmarks_ok (Schema.delete_user "u2" two_user_db)
  /\ Schema.fk_embeddings_ok (Schema.delete_user "u2" two_user_db).
Proof.
  destruct sample_foreign_keys as [H1 H2].
  split; [exact H1|]. split; [exact H2|].
  exact (delete_user_keeps_foreign_keys two_user_db "u2" H1 H2).
Defined.

(** A fused score of 0.93, as the back end of the specification would
    return it. *)
Lemma relevance_badge_unit_interval_witness :
  let b := HybridSearch.with_relevance (sample_bookmark, 0.93%Q) in
  relevance_score b = Some 0.93%Q
  /\ (0 < 0.93 <= 1)%Q
  /\ (relevance_badge b = Some 0%Z \/ relevance_badge b = Some 1%Z).
Proof.
  intros b.
  assert (H1 : relevance_score b = Some 0.93%Q) by reflexivity.
  assert (H2 : (0 < 0.93 <= 1)%Q) by (split; Lqa.lra).
  split; [exact H1|]. split; [exact H2|].
  exact (relevance_badge_unit_interval b 0.93%Q H1 H2).
Defined.

(** Clearing the search while results are shown: with the focus in the
    input the dropdown closes; from the Clear button, which took the focus,
    the one known suggestion is shown again. *)
Example handleClearSearch_sample :
  dropdown_visible (searchBar (snd (handleClearSearch searched_world))) = false
  /\ dropdown_visible
       (searchBar (snd (handleClearSearch (blurred searched_world)))) = true
  /\ suggestions (searchBar (snd (handleClearSearch (blurred searched_world))))
     = [of_ascii "semantic search"]
  /\ searchResults (store (snd (handleClearSearch (blurred searched_world))))
     = None.
Proof. repeat split; vm_compute; reflexivity. Qed.

(** A content of six code units cut at four. *)
Lemma truncateContent_bounds_witness :
  let content := of_ascii "abcdef" in
  (4 < length content < 4 + 3)%nat
  /\ truncateContent content 4 = of_ascii "abcd..."
  /\ (length content < length (truncateContent content 4))%nat.
Proof.
  intros content.
  assert (H : (4 < length content < 4 + 3)%nat) by (vm_compute; lia).
  pose proof (truncateContent_bounds content 4) as T.
  destruct T as (_ & _ & _ & Hcut & Hlong).
  split; [exact H|].
  split; [exact (proj1 (Hcut (proj1 H)))|exact (Hlong H)].
Defined.

(** The second tag of a tags field with stray blanks and commas. *)
Lemma tagsArray_tags_are_clean_witness :
  let tags := of_ascii "rocq, proofs ,," in
  of_ascii "proofs" ∈ AddBookmarkModal.tagsArray tags
  /\ trim (of_ascii "proofs") = of_ascii "proofs"
  /\ forallb (fun c => is_white_space c || (c =? 44)%N) (of_ascii " , ,") = true
  /\ AddBookmarkModal.tagsArray (of_ascii " , ,") = [].
Proof.
  intros tags.
  assert (H1 : of_ascii "proofs" ∈ AddBookmarkModal.tagsArray tags).
  { apply (list_elem_of_lookup_2 _ 1%nat). reflexivity. }
  assert (H2 : forallb (fun c => is_white_space c || (c =? 44)%N)
                       (of_ascii " , ,") = true) by reflexivity.
  split; [exact H1|].
  split.
  - exact (proj1 (proj2 (proj2
             (proj1 (tagsArray_tags_are_clean tags) _ H1)))).
  - split; [exact H2|].
    exact (proj2 (tagsArray_tags_are_clean (of_ascii " , ,")) H2).
Defined.

(** Logging in, with a user already in the store, against the server that
    answers the login and then fails the request for the user with a 500:
    the store ends with the new token and the user it had. *)
Lemma login_outcomes_witness :
  let r := AuthStore.login flaky_api sample_credentials logged_in_page in
  fst (AuthStore.authAPI_login flaky_api sample_credentials
         (world logged_in_page))
  = Resolved {| Types.access_token := "fresh"; token_type := "bearer" |}
  /\ "fresh"%string <> EmptyString
  /\ fst r = Resolved tt
  /\ AuthStore.user (local (snd r)) = Some alice
  /\ AuthStore.token (local (snd r)) = Some "fresh"%string
  /\ AuthStore.error (local (snd r)) = Some "Internal Server Error"%string.
Proof.
  intros r.
  assert (H1 : fst (AuthStore.authAPI_login flaky_api sample_credentials
                      (world logged_in_page))
               = Resolved {| Types.access_token := "fresh";
                             token_type := "bearer" |}) by reflexivity.
  assert (H2 : "fresh"%string <> EmptyString) by discriminate.
  pose proof (login_outcomes flaky_api sample_credentials logged_in_page H2)
    as T.
  destruct T as (Hr & _ & Hu & Ht & He).
  split; [exact H1|]. split; [exact H2|].
  split; [exact Hr|]. split; [exact Hu|]. split; [exact Ht|exact He].
Defined.

End MoreExamples.
